(** * TEDxSDG search frontend: the talk panel and the chat panel

    A shallow embedding of [components/organisms/TalkPanel.tsx] and of the
    handlers [handleClearChat] and [handleSpeechResult] of
    [components/organisms/ChatPanel.tsx].

    The React component is modelled as a transition system.  Its refs
    ([useRef]) and its [useState] cell are the fields of [Panel]; the Redux
    store is [Store]; what the browser keeps for the component (abort
    controllers, the network requests issued by axios, the continuations
    parked on an [await], telemetry spans, local storage) is [Browser].
    An [async] function is split at its [await]: the part before it runs in
    the step of the event that calls the function, the part after it runs in
    the step in which the awaited promise settles.

    [State], [step] and [reachable] describe one instance of the panel over
    its life: the mount effect runs once, and once more after its cleanup
    under React's StrictMode in development; no other component writes the
    store.  [App] puts instances one after the other on a page, each with
    refs of its own, on a shared store.

    Numbers are as in JavaScript where it matters: [Math.random()] is a
    double and its product with a length is rounded as IEEE 754 says.
    Strings are byte sequences (UTF-8).  Output written to the console is
    not part of the state. *)

From Stdlib Require Import String Ascii ZArith.
From stdpp Require Import gmap strings list pretty.

Local Open Scope string_scope.
Local Open Scope list_scope.
Local Open Scope nat_scope.

(** ** Data model *)

(** [Talk] of [types]. *)
Record Talk := mkTalk {
  presenterDisplayName : string;
  title : string;
  url : string;
  sdg_tags : list string;
  transcript : string;
}.

(** The object literal passed to [sendMessage] by the talk panel. *)
Record Message := mkMessage {
  persona : string;
  role : string;
  sender : string;
  text : string;
  hidden : bool;
}.

(** The three shapes of argument [sendMessage] is called with: a plain
    string ([handleChat]), [{ text, hidden }] ([handleSpeechResult]) and the
    full object ([sendTranscriptAsMessage]). *)
Inductive SendPayload :=
| PayloadText (s : string)
| PayloadSpeech (s : string) (h : bool)
| PayloadMessage (m : Message).

(** Actions of [store/talkSlice], [store/apiSlice] and [store/chatSlice]. *)
Inductive Action :=
| SetTalks (ts : list Talk)
| SetSelectedTalk (t : Talk)
| SetLoading (b : bool)
| SetApiError (e : option string)
| SendMessage (p : SendPayload)
| ClearMessages.

(** [RootState]: [state.talk], [state.api] and [state.chat]. *)
Record Store := mkStore {
  talks : list Talk;
  selectedTalk : option Talk;
  isLoading : bool;
  error : option string;
  messages : list SendPayload;
}.

(** Modelled from the spec: the reducers of [store/talkSlice],
    [store/apiSlice] and [store/chatSlice] are not among the sources.  The
    store is "a centralized, app-wide reactive store holding talk list,
    loading/error flags, and chat message history"; each setter action
    overwrites its own field, [sendMessage] adds its argument to the end of
    the chat message history and [clearMessages] "clears history". *)
Definition reducer (a : Action) (s : Store) : Store :=
  match a with
  | SetTalks ts => mkStore ts (selectedTalk s) (isLoading s) (error s) (messages s)
  | SetSelectedTalk t => mkStore (talks s) (Some t) (isLoading s) (error s) (messages s)
  | SetLoading b => mkStore (talks s) (selectedTalk s) b (error s) (messages s)
  | SetApiError e => mkStore (talks s) (selectedTalk s) (isLoading s) e (messages s)
  | SendMessage p => mkStore (talks s) (selectedTalk s) (isLoading s) (error s) (messages s ++ [p])
  | ClearMessages => mkStore (talks s) (selectedTalk s) (isLoading s) (error s) []
  end.

(** Values thrown inside [performSearch]. *)
Inductive JsError :=
| CanceledError                 (* axios rejection caused by an aborted signal *)
| ErrorMsg (msg : string)       (* [new Error(msg)], network and HTTP errors *)
| TypeError.                    (* property access on [undefined] *)

(** [axios.isCancel]. *)
Definition isCancel (e : JsError) : bool :=
  match e with CanceledError => true | _ => false end.

(** [result.document] of one search hit; a field that is absent is [None]. *)
Record Document := mkDocument {
  doc_presenterDisplayName : option string;
  doc_slug : option string;
  doc_sdg_tags : option (list string);
  doc_transcript : option string;
}.

(** The axios response: [status], [statusText] and [data.results]. *)
Record Response := mkResponse {
  status : nat;
  statusText : string;
  results : option (list Document);
}.

(** How the promise returned by [axios.get] settles. *)
Inductive Outcome :=
| Resolved (r : Response)
| Rejected (e : JsError).

(** Attribute values of a span. *)
Inductive AttrValue :=
| AStr (s : string)
| ABool (b : bool)
| ANum (n : nat).

(** A telemetry span: its name, the attributes set on it, the exceptions
    recorded on it and the number of times [end()] was called on it. *)
Record Span := mkSpan {
  span_name : string;
  attributes : list (string * AttrValue);
  exceptions : list JsError;
  ended : nat;
}.

(** A request issued by [axios.get]: its URL and the abort controller whose
    signal it was given. *)
Record Request := mkRequest {
  req_url : string;
  req_signal : nat;
}.

(** The rest of [performSearch], parked on [await axios.get(...)]: the span
    of the call and the request it waits for. *)
Record Pending := mkPending {
  p_span : nat;
  p_request : Request;
}.

(** A value of [Math.random()]: a double of [0, 1).  These doubles are the
    numbers [m / 2^(53 + k)] with a mantissa [m < 2^53] and a scale
    [k <= 1021]: a double of [2^-(k+1), 2^-k) has [2^52 <= m], and the
    subnormal doubles have [k = 1021].  The mantissa of a draw is read
    modulo [2^53] and its scale is capped at 1021, so that every draw is
    such a double: its value is [draw_num / 2^draw_exp]. *)
Record RandomDraw := mkDraw {
  draw_mantissa : N;
  draw_scale : N;
}.

Definition draw_num (d : RandomDraw) : Z := (Z.of_N (draw_mantissa d) mod 2 ^ 53)%Z.

Definition draw_exp (d : RandomDraw) : Z := (53 + Z.min (Z.of_N (draw_scale d)) 1021)%Z.

(** [x / 2^t] rounded to the nearest integer, a tie to the even one. *)
Definition round_half_even (x t : Z) : Z :=
  let q := (x / 2 ^ t)%Z in
  let r := (x mod 2 ^ t)%Z in
  let half := (2 ^ (t - 1))%Z in
  if (r <? half)%Z then q
  else if (half <? r)%Z then (q + 1)%Z
  else if Z.even q then q else (q + 1)%Z.

(** The product of two doubles is the exact product rounded to the nearest
    double, a tie to the even mantissa (IEEE 754, binary64).  For an exact
    product [x / 2^s] with [s <= 1074], [round_double x] is the numerator
    of that double over [2^s]: [x] itself when it fits the 53 bits of a
    mantissa, and otherwise [x] rounded to its 53 leading bits. *)
Definition round_double (x : Z) : Z :=
  let t := (Z.log2 x + 1 - 53)%Z in
  if (t <=? 0)%Z then x else (round_half_even x t * 2 ^ t)%Z.

(** [Math.floor(d * n)] for a length [n]: a length is below [2^32] and so
    is a double as it stands. *)
Definition floor_mul (d : RandomDraw) (n : nat) : nat :=
  Z.to_nat (round_double (draw_num d * Z.of_nat n) / 2 ^ draw_exp d).

(** The least double [m / 2^53] that is not below [i / n]. *)
Definition draw_for (i n : nat) : RandomDraw :=
  mkDraw (Z.to_N ((Z.of_nat i * 2 ^ 53 + Z.of_nat n - 1) / Z.of_nat n)) 0.

(** The refs and the state cell of one [TalkPanel] instance.
    [debounceTimer] is the state of the lodash [debounce] wrapper: the
    deadline and the argument of the call it is holding back, if any.
    [mounted] tells whether the mount effect is currently in place, and
    [effectRuns] how many times it has run on this instance. *)
Record Panel := mkPanel {
  searchQuery : string;
  isStrictMode : bool;
  mountCounter : nat;
  abortControllerRef : option nat;
  isSearchInProgress : bool;
  sentMessagesRef : gset string;
  debounceTimer : option (nat * string);
  mounted : bool;
  effectRuns : nat;
}.

(** What the browser holds.  [controllers !! c] is the [aborted] flag of the
    signal of abort controller [c]; [requests] lists every request ever
    issued, [pending] the continuations whose request has not settled yet;
    [lastSearchData] is the local storage entry of that name. *)
Record Browser := mkBrowser {
  controllers : list bool;
  requests : list Request;
  pending : list Pending;
  spans : list Span;
  lastSearchData : option (list Talk);
}.

Record State := mkState {
  panel : Panel;
  store : Store;
  browser : Browser;
  dispatched : list Action;
}.

(** ** State updates *)

Definition with_panel (f : Panel → Panel) (st : State) : State :=
  mkState (f (panel st)) (store st) (browser st) (dispatched st).

Definition with_browser (f : Browser → Browser) (st : State) : State :=
  mkState (panel st) (store st) (f (browser st)) (dispatched st).

(** [dispatch(a)]: the store takes the action; the action is also recorded. *)
Definition dispatch (a : Action) (st : State) : State :=
  mkState (panel st) (reducer a (store st)) (browser st) (dispatched st ++ [a]).

Definition set_searchQuery (q : string) (p : Panel) : Panel :=
  mkPanel q (isStrictMode p) (mountCounter p) (abortControllerRef p)
    (isSearchInProgress p) (sentMessagesRef p) (debounceTimer p) (mounted p) (effectRuns p).

Definition set_isStrictMode (b : bool) (p : Panel) : Panel :=
  mkPanel (searchQuery p) b (mountCounter p) (abortControllerRef p)
    (isSearchInProgress p) (sentMessagesRef p) (debounceTimer p) (mounted p) (effectRuns p).

Definition set_mountCounter (n : nat) (p : Panel) : Panel :=
  mkPanel (searchQuery p) (isStrictMode p) n (abortControllerRef p)
    (isSearchInProgress p) (sentMessagesRef p) (debounceTimer p) (mounted p) (effectRuns p).

Definition set_abortControllerRef (c : option nat) (p : Panel) : Panel :=
  mkPanel (searchQuery p) (isStrictMode p) (mountCounter p) c
    (isSearchInProgress p) (sentMessagesRef p) (debounceTimer p) (mounted p) (effectRuns p).

Definition set_isSearchInProgress (b : bool) (p : Panel) : Panel :=
  mkPanel (searchQuery p) (isStrictMode p) (mountCounter p) (abortControllerRef p)
    b (sentMessagesRef p) (debounceTimer p) (mounted p) (effectRuns p).

Definition set_sentMessagesRef (s : gset string) (p : Panel) : Panel :=
  mkPanel (searchQuery p) (isStrictMode p) (mountCounter p) (abortControllerRef p)
    (isSearchInProgress p) s (debounceTimer p) (mounted p) (effectRuns p).

Definition set_debounceTimer (d : option (nat * string)) (p : Panel) : Panel :=
  mkPanel (searchQuery p) (isStrictMode p) (mountCounter p) (abortControllerRef p)
    (isSearchInProgress p) (sentMessagesRef p) d (mounted p) (effectRuns p).

Definition set_mounted (b : bool) (p : Panel) : Panel :=
  mkPanel (searchQuery p) (isStrictMode p) (mountCounter p) (abortControllerRef p)
    (isSearchInProgress p) (sentMessagesRef p) (debounceTimer p) b (effectRuns p).

Definition set_effectRuns (n : nat) (p : Panel) : Panel :=
  mkPanel (searchQuery p) (isStrictMode p) (mountCounter p) (abortControllerRef p)
    (isSearchInProgress p) (sentMessagesRef p) (debounceTimer p) (mounted p) n.

Definition set_controllers (cs : list bool) (b : Browser) : Browser :=
  mkBrowser cs (requests b) (pending b) (spans b) (lastSearchData b).

Definition set_requests (rs : list Request) (b : Browser) : Browser :=
  mkBrowser (controllers b) rs (pending b) (spans b) (lastSearchData b).

Definition set_pending (ps : list Pending) (b : Browser) : Browser :=
  mkBrowser (controllers b) (requests b) ps (spans b) (lastSearchData b).

Definition set_spans (ss : list Span) (b : Browser) : Browser :=
  mkBrowser (controllers b) (requests b) (pending b) ss (lastSearchData b).

Definition set_lastSearchData (d : option (list Talk)) (b : Browser) : Browser :=
  mkBrowser (controllers b) (requests b) (pending b) (spans b) d.

(** ** What the component takes from its surroundings *)

(** The build mode, the constants of modules that are not part of the
    component, and the string built-ins of the JavaScript runtime. *)
Record Runtime := mkRuntime {
  isDevelopment : bool;                    (* process.env.NODE_ENV === 'development' *)
  sdgTitleMap : gmap string string;        (* components/constants/sdgTitles *)
  determineInitialKeyword : string;        (* components/utils/talkPanelUtils *)
  str_trim : string → string;              (* String.prototype.trim *)
  str_toLowerCase : string → string;       (* String.prototype.toLowerCase *)
  encodeURIComponent : string → string;
}.

(** The line feed of the template literal in [sendTranscriptAsMessage]. *)
Definition LF : string := String "010"%char EmptyString.

(** [slug.replace(/_/g, ' ')]. *)
Fixpoint replace_underscores (s : string) : string :=
  match s with
  | EmptyString => EmptyString
  | String c s' =>
      String (if Ascii.eqb c "_"%char then " "%char else c) (replace_underscores s')
  end.

(** The callback of [response.data.results.map]; reading [slug] off a
    document that has none throws. *)
Definition toTalk (d : Document) : option Talk :=
  match doc_slug d with
  | None => None
  | Some slug =>
      Some {| presenterDisplayName := default "" (doc_presenterDisplayName d);
              title := replace_underscores slug;
              url := "https://www.ted.com/talks/" +:+ slug;
              sdg_tags := default [] (doc_sdg_tags d);
              transcript := default "" (doc_transcript d) |}
  end.

(** ** Spans, abort controllers and the network *)

Definition startSpan (name : string) (st : State) : State :=
  with_browser (λ b, set_spans (spans b ++ [mkSpan name [] [] 0]) b) st.

Definition on_span (sp : nat) (f : Span → Span) (st : State) : State :=
  with_browser (λ b, set_spans (alter f sp (spans b)) b) st.

Definition setAttribute (sp : nat) (k : string) (v : AttrValue) : State → State :=
  on_span sp (λ s, mkSpan (span_name s) (attributes s ++ [(k, v)]) (exceptions s) (ended s)).

Definition recordException (sp : nat) (e : JsError) : State → State :=
  on_span sp (λ s, mkSpan (span_name s) (attributes s) (exceptions s ++ [e]) (ended s)).

Definition endSpan (sp : nat) : State → State :=
  on_span sp (λ s, mkSpan (span_name s) (attributes s) (exceptions s) (S (ended s))).

(** [abortControllerRef.current?.abort()]. *)
Definition abortCurrent (st : State) : State :=
  match abortControllerRef (panel st) with
  | Some c => with_browser (λ b, set_controllers (<[c := true]> (controllers b)) b) st
  | None => st
  end.

(** [abortControllerRef.current = new AbortController()]. *)
Definition newAbortController (st : State) : State :=
  let c := length (controllers (browser st)) in
  with_panel (set_abortControllerRef (Some c))
    (with_browser (λ b, set_controllers (controllers b ++ [false]) b) st).

(** [await axios.get(url, { signal })]: the request goes out and the caller
    is parked until it settles. *)
Definition axios_get (u : string) (c sp : nat) (st : State) : State :=
  let r := mkRequest u c in
  with_browser (λ b, set_pending (pending b ++ [mkPending sp r])
                       (set_requests (requests b ++ [r]) b)) st.

(** Whether the signal of controller [c] has been aborted. *)
Definition aborted (c : nat) (st : State) : bool :=
  default false (controllers (browser st) !! c).

(** ** The talk panel *)

Section TalkPanel.
Variable rt : Runtime.

(** [sdgTitleMap[tag] || tag]: the title of the tag, or the tag itself
    when the map has no title for it or an empty one. *)
Definition sdgTitle (tag : string) : string :=
  match sdgTitleMap rt !! tag with
  | Some t => if decide (t = "") then tag else t
  | None => tag
  end.

(** [getSdgTitles]. *)
Definition getSdgTitles (sdgTags : list string) : list string :=
  sdgTitle <$> sdgTags.

(** The text built by the template literal of [sendTranscriptAsMessage]. *)
Definition message_text (talk : Talk) : string :=
  transcript talk +:+ " —— " +:+ title talk +:+ LF +:+ LF
    +:+ String.concat ", " (getSdgTitles (sdg_tags talk)).

Definition transcript_message (talk : Talk) : Message :=
  {| persona := presenterDisplayName talk;
     role := "bot";
     sender := "bot";
     text := message_text talk;
     hidden := false |}.

Definition sendTranscriptAsMessage (talk : Talk) (st : State) : State :=
  if decide (title talk ∈ sentMessagesRef (panel st)) then st
  else
    let st := with_panel (λ p, set_sentMessagesRef ({[title talk]} ∪ sentMessagesRef p) p) st in
    dispatch (SendMessage (PayloadMessage (transcript_message talk))) st.

(** The list stored by the second [setTalks] of [handleSearchResults]. *)
Definition reorderedTalks (randomTalk : Talk) (data : list Talk) : list Talk :=
  randomTalk :: filter (λ talk, title talk ≠ title randomTalk) data.

(** [data[Math.floor(Math.random() * data.length)]] for a list that starts
    with [first]. *)
Definition randomTalk_of (d : RandomDraw) (first : Talk) (data : list Talk) : Talk :=
  default first (data !! floor_mul d (length data)).

Definition handleSearchResults (d : RandomDraw) (data : list Talk) (st : State) : State :=
  let st := dispatch (SetTalks data) st in
  let st :=
    match data with
    | [] => st
    | first :: _ =>
        let randomTalk := randomTalk_of d first data in
        let st := dispatch (SetTalks (reorderedTalks randomTalk data)) st in
        let st := dispatch (SetSelectedTalk randomTalk) st in
        sendTranscriptAsMessage randomTalk st
    end in
  with_browser (set_lastSearchData (Some data)) st.

Definition search_url (trimmedQuery : string) : string :=
  "https://tedxsdg-search-backend.vercel.app/api/search?query="
    +:+ encodeURIComponent rt trimmedQuery.

(** [performSearch] up to its [await]. *)
Definition performSearch (query : string) (st : State) : State :=
  let sp := length (spans (browser st)) in
  let st := startSpan "search_talks" st in
  let trimmedQuery := str_toLowerCase rt (str_trim rt query) in
  let st := setAttribute sp "search.query" (AStr trimmedQuery) st in
  if isSearchInProgress (panel st) then
    endSpan sp (setAttribute sp "search.skipped" (ABool true) st)
  else
    let st := abortCurrent st in
    let c := length (controllers (browser st)) in
    let st := newAbortController st in
    let st := with_panel (set_isSearchInProgress true) st in
    let st := dispatch (SetLoading true) st in
    let st := dispatch (SetApiError None) st in
    axios_get (search_url trimmedQuery) c sp st.

(** The [try] block after the [await]: the state it leaves and the value
    it throws, if it throws. *)
Definition performSearch_try (sp : nat) (o : Outcome) (d : RandomDraw) (st : State)
  : State * option JsError :=
  match o with
  | Rejected e => (st, Some e)
  | Resolved response =>
      if decide (status response ≠ 200) then (st, Some (ErrorMsg (statusText response)))
      else
        match results response ≫= mapM toTalk with
        | None => (st, Some TypeError)
        | Some data =>
            let st := setAttribute sp "search.results_count" (ANum (length data)) st in
            (if negb (isStrictMode (panel st)) then handleSearchResults d data st else st,
             None)
        end
  end.

Definition performSearch_catch (sp : nat) (e : JsError) (st : State) : State :=
  if negb (isCancel e) then
    dispatch (SetApiError (Some "Error fetching talks.")) (recordException sp e st)
  else setAttribute sp "search.cancelled" (ABool true) st.

Definition performSearch_finally (sp : nat) (st : State) : State :=
  let st := dispatch (SetLoading false) st in
  let st := with_panel (set_isSearchInProgress false) st in
  endSpan sp st.

(** [performSearch] from the moment its request settles with [o]. *)
Definition performSearch_resume (sp : nat) (o : Outcome) (d : RandomDraw) (st : State) : State :=
  let '(st, thrown) := performSearch_try sp o d st in
  let st := match thrown with
            | Some e => performSearch_catch sp e st
            | None => st
            end in
  performSearch_finally sp st.

(** The lodash wrapper [debouncedPerformSearch], called at time [now]:
    the call is held back for 500 ms, replacing any call already held. *)
Definition debouncedPerformSearch (now : nat) (query : string) (st : State) : State :=
  with_panel (set_debounceTimer (Some (now + 500, query))) st.

(** [debouncedPerformSearch.cancel()]. *)
Definition debouncedPerformSearch_cancel (st : State) : State :=
  with_panel (set_debounceTimer None) st.

(** The timer of the wrapper runs out: the held call is made. *)
Definition debounceTimerFires (st : State) : State :=
  match debounceTimer (panel st) with
  | Some (_, query) => performSearch query (with_panel (set_debounceTimer None) st)
  | None => st
  end.

(** The body of the mount effect.  Its closure is the one of the first
    render, in which [searchQuery] is the initial keyword. *)
Definition mountEffect (st : State) : State :=
  let st := with_panel (λ p, set_effectRuns (effectRuns p + 1) (set_mounted true p)) st in
  if isDevelopment rt then
    let st := with_panel (λ p, set_mountCounter (mountCounter p + 1) p) st in
    if decide (mountCounter (panel st) = 1) then
      with_panel (set_isStrictMode true) st
    else
      performSearch (determineInitialKeyword rt) (with_panel (set_isStrictMode false) st)
  else performSearch (determineInitialKeyword rt) st.

(** The cleanup returned by the mount effect. *)
Definition cleanupEffect (st : State) : State :=
  let st := with_panel (set_mounted false) st in
  let st := if isDevelopment rt && negb (isStrictMode (panel st))
            then abortCurrent st else st in
  debouncedPerformSearch_cancel st.

(** [onKeyDown] of the search input. *)
Definition onKeyDown (key : string) (st : State) : State :=
  if decide (key = "Enter") then performSearch (searchQuery (panel st)) st else st.

(** [onClick] of the Search button. *)
Definition onClickSearch (st : State) : State :=
  performSearch (searchQuery (panel st)) st.

(** ** The chat panel *)

Definition handleClearChat (st : State) : State := dispatch ClearMessages st.

Definition handleSpeechResult (finalResult : string) (st : State) : State :=
  let trimmedResult := str_trim rt finalResult in
  if decide (trimmedResult = "") then st
  else dispatch (SendMessage (PayloadSpeech trimmedResult false)) st.

(** ** The transition system *)

Inductive Event :=
| Mount                                          (* the mount effect runs *)
| Cleanup                                        (* its cleanup runs *)
| ChangeQuery (q : string)                       (* onChange of the input *)
| KeyDown (key : string)
| ClickSearch
| TimerFires                                     (* the debounce timer *)
| Settle (k : nat) (o : Outcome) (d : RandomDraw) (* pending request [k] settles *)
| SpeechResult (finalResult : string)
| ClearChat.

Definition step (ev : Event) (st : State) : State :=
  match ev with
  | Mount => mountEffect st
  | Cleanup => cleanupEffect st
  | ChangeQuery q => with_panel (set_searchQuery q) st
  | KeyDown key => onKeyDown key st
  | ClickSearch => onClickSearch st
  | TimerFires => debounceTimerFires st
  | Settle k o d =>
      match pending (browser st) !! k with
      | Some p =>
          performSearch_resume (p_span p) o d
            (with_browser (λ b, set_pending (delete k (pending b)) b) st)
      | None => st
      end
  | SpeechResult r => handleSpeechResult r st
  | ClearChat => handleClearChat st
  end.

(** The outcome of a request is a cancellation exactly when its signal
    was aborted while it was in flight. *)
Definition settles (p : Pending) (o : Outcome) (st : State) : bool :=
  bool_decide (match o with Rejected e => isCancel e | Resolved _ => false end
               = aborted (req_signal (p_request p)) st).

(** When an event can happen: the handlers of the rendered elements only
    while the component is mounted, the Search button only while it is
    not disabled, a request settles only while it is pending.  The mount
    effect has no dependencies: it runs when the instance is mounted, and
    React's StrictMode, in development only, runs its cleanup and the
    effect once more on the same instance.  After any other cleanup the
    instance is gone: what is mounted next is another instance, with refs
    and state of its own (see [App] below).  Whether StrictMode is on is
    not in the sources: in development both lives are possible, one run of
    the effect or two. *)
Definition enabled (ev : Event) (st : State) : bool :=
  match ev with
  | Mount =>
      negb (mounted (panel st))
      && (bool_decide (effectRuns (panel st) = 0)
          || isDevelopment rt && bool_decide (effectRuns (panel st) = 1))
  | Cleanup => mounted (panel st)
  | ChangeQuery _ | KeyDown _ => mounted (panel st)
  | ClickSearch => mounted (panel st) && negb (isLoading (store st))
  | TimerFires => bool_decide (is_Some (debounceTimer (panel st)))
  | Settle k o _ =>
      match pending (browser st) !! k with
      | Some p => settles p o st
      | None => false
      end
  | SpeechResult _ | ClearChat => true
  end.

(** The state before the first render is committed. *)
Definition initial : State :=
  {| panel := {| searchQuery := determineInitialKeyword rt;
                 isStrictMode := false;
                 mountCounter := 0;
                 abortControllerRef := None;
                 isSearchInProgress := false;
                 sentMessagesRef := ∅;
                 debounceTimer := None;
                 mounted := false;
                 effectRuns := 0 |};
     store := mkStore [] None false None [];
     browser := mkBrowser [] [] [] [] None;
     dispatched := [] |}.

Inductive reachable : State → Prop :=
| reachable_initial : reachable initial
| reachable_step ev st :
    reachable st → enabled ev st = true → reachable (step ev st).

(** Running a list of events, in order. *)
Definition run (evs : list Event) (st : State) : State :=
  foldl (λ s ev, step ev s) st evs.

End TalkPanel.

(** ** Vocabulary of the properties *)

(** The [ended] counters of all spans, in the order the spans were started. *)
Definition ended_counts (st : State) : list nat := ended <$> spans (browser st).

(** What holds of the controller ref, the in-progress flag, the abort
    flags of the controllers, the parked searches and the [ended] counters
    of the spans: at most one search is parked, and the flag is up exactly
    when one is; the span of a parked search is open and every other span
    has been ended once; the ref points to a controller, every other
    controller is aborted, and a parked request has the signal of the
    controller in the ref. *)
Record search_ok (ref : option nat) (busy : bool) (cs : list bool)
    (ps : list Pending) (es : list nat) : Prop := {
  ok_pending_le : length ps ≤ 1;
  ok_busy : busy = bool_decide (ps ≠ []);
  ok_ended : ∀ i n, es !! i = Some n →
      n = if bool_decide (i ∈ p_span <$> ps) then 0 else 1;
  ok_pending_span : ∀ p, p ∈ ps → p_span p < length es;
  ok_ref : ∀ c, ref = Some c → c < length cs;
  ok_old : ∀ c b, cs !! c = Some b → ref ≠ Some c → b = true;
  ok_signal : ∀ p, p ∈ ps → ref = Some (req_signal (p_request p));
}.

Arguments ok_pending_le {_ _ _ _ _} _.
Arguments ok_busy {_ _ _ _ _} _.
Arguments ok_ended {_ _ _ _ _} _.
Arguments ok_pending_span {_ _ _ _ _} _.
Arguments ok_ref {_ _ _ _ _} _.
Arguments ok_old {_ _ _ _ _} _.
Arguments ok_signal {_ _ _ _ _} _.

Definition search_inv (st : State) : Prop :=
  search_ok (abortControllerRef (panel st)) (isSearchInProgress (panel st))
    (controllers (browser st)) (pending (browser st)) (ended_counts st).

Section Vocabulary.
Variable rt : Runtime.

Definition skipped_span (query : string) : Span :=
  mkSpan "search_talks"
    [("search.query", AStr (str_toLowerCase rt (str_trim rt query)));
     ("search.skipped", ABool true)] [] 1.

Definition opened_span (query : string) : Span :=
  mkSpan "search_talks"
    [("search.query", AStr (str_toLowerCase rt (str_trim rt query)))] [] 0.

(** The request a call of [performSearch] in state [st] sends. *)
Definition search_request (query : string) (st : State) : Request :=
  mkRequest (search_url rt (str_toLowerCase rt (str_trim rt query)))
    (length (controllers (browser st))).

(** What the [try] block comes to: the value it throws, or the talks it
    has read from the response. *)
Definition try_result (o : Outcome) : JsError + list Talk :=
  match o with
  | Rejected e => inl e
  | Resolved response =>
      if decide (status response ≠ 200) then inl (ErrorMsg (statusText response))
      else match results response ≫= mapM toTalk with
           | None => inl TypeError
           | Some data => inr data
           end
  end.

(** The search ends in the [catch] block with something other than a
    cancellation: the promise was rejected for another reason, the status
    is not 200, or the body could not be read. *)
Definition fails_uncancelled (o : Outcome) : bool :=
  match try_result o with
  | inl e => negb (isCancel e)
  | inr _ => false
  end.

End Vocabulary.

(** The message of an action by which the talk panel forwards a transcript. *)
Definition transcript_of (a : Action) : option Message :=
  match a with
  | SendMessage (PayloadMessage m) => Some m
  | _ => None
  end.

(** The transcript messages among a list of dispatched actions, in order. *)
Definition transcript_messages (acts : list Action) : list Message :=
  omap transcript_of acts.

(** The part of the state [sendTranscriptAsMessage] works on: the titles
    it has marked as sent and the transcript messages dispatched so far. *)
Definition sent_view (st : State) : gset string * list Message :=
  (sentMessagesRef (panel st), transcript_messages (dispatched st)).

(** The transcript messages dispatched so far are those of talks with
    pairwise different titles, and the sent set holds exactly these titles. *)
Definition sent_ok (rt : Runtime) (st : State) : Prop :=
  ∃ ts : list Talk,
    NoDup (title <$> ts)
    ∧ transcript_messages (dispatched st) = transcript_message rt <$> ts
    ∧ sentMessagesRef (panel st) = list_to_set (title <$> ts).

(** In development the strict-mode flag is up exactly during the first
    mount, a mounted panel has counted a mount, and nothing is pending
    before the first mount. *)
Definition dev_inv (st : State) : Prop :=
  isStrictMode (panel st) = bool_decide (mountCounter (panel st) = 1)
  ∧ (mounted (panel st) = true → 1 ≤ mountCounter (panel st))
  ∧ (mountCounter (panel st) = 0 → pending (browser st) = []).

(** The parked searches whose request has not been aborted. *)
Definition in_flight_live (st : State) : list Pending :=
  filter (λ p, aborted (req_signal (p_request p)) st = false) (pending (browser st)).

(** [s] occurs in [t]. *)
Definition contains (s t : string) : Prop := ∃ pre post, t = pre +:+ s +:+ post.

(** ** Timed traces *)

Section Timed.
Variable rt : Runtime.

(** The user actions that ask for a search: Enter in the input and a
    click on the Search button. *)
Definition is_trigger (ev : Event) : bool :=
  match ev with
  | KeyDown key => bool_decide (key = "Enter")
  | ClickSearch => true
  | _ => false
  end.

(** The events through which a search asked for by the user can start:
    the triggers themselves and the debounce timer. *)
Definition user_search (ev : Event) : bool :=
  match ev with
  | TimerFires => true
  | _ => is_trigger ev
  end.

(** An event that can happen at time [t]: the debounce timer fires only
    once its deadline has come. *)
Definition enabled_at (t : nat) (ev : Event) (st : State) : bool :=
  enabled rt ev st
  && match ev with
     | TimerFires =>
         match debounceTimer (panel st) with
         | Some (deadline, _) => bool_decide (deadline ≤ t)
         | None => false
         end
     | _ => true
     end.

(** A list of events each of which can happen when its turn comes. *)
Fixpoint possible (evs : list Event) (st : State) : bool :=
  match evs with
  | [] => true
  | ev :: evs' => enabled rt ev st && possible evs' (step rt ev st)
  end.

(** A trace of events with their times in milliseconds, none earlier
    than [now] and in order, each possible when it happens. *)
Fixpoint valid_trace (tr : list (nat * Event)) (now : nat) (st : State) : bool :=
  match tr with
  | [] => true
  | (t, ev) :: tr' =>
      bool_decide (now ≤ t) && enabled_at t ev st && valid_trace tr' t (step rt ev st)
  end.

(** The state in which event number [i] of the trace happens. *)
Definition state_at (tr : list (nat * Event)) (i : nat) : State :=
  run rt ((take i tr).*2) (initial rt).

(** The requests sent in the step of event number [i]. *)
Definition issues_at (tr : list (nat * Event)) (i : nat) (ev : Event) : list Request :=
  drop (length (requests (browser (state_at tr i))))
    (requests (browser (step rt ev (state_at tr i)))).

(** A search of the user sends its request only when 500 ms have passed
    since the last trigger. *)
Definition debounced (tr : list (nat * Event)) : Prop :=
  ∀ i t ev, tr !! i = Some (t, ev) → user_search ev = true → issues_at tr i ev ≠ [] →
    ∀ j t0 ev0, j ≤ i → tr !! j = Some (t0, ev0) → is_trigger ev0 = true → t0 + 500 ≤ t.

(** Two requests of user searches are at least 500 ms apart. *)
Definition one_request_per_window (tr : list (nat * Event)) : Prop :=
  ∀ i1 t1 ev1 i2 t2 ev2,
    i1 < i2 → tr !! i1 = Some (t1, ev1) → tr !! i2 = Some (t2, ev2) →
    user_search ev1 = true → user_search ev2 = true →
    issues_at tr i1 ev1 ≠ [] → issues_at tr i2 ev2 ≠ [] → t1 + 500 ≤ t2.

(** Searches go through a 500 ms debounce. *)
Definition debounce_claim : Prop :=
  ∀ tr, valid_trace tr 0 (initial rt) = true → debounced tr ∧ one_request_per_window tr.

End Timed.

(** ** A runtime and data for examples *)

Definition is_space (c : ascii) : bool :=
  let n := nat_of_ascii c in
  bool_decide (n = 32) || bool_decide (9 ≤ n ≤ 13).

Fixpoint trim_start (s : string) : string :=
  match s with
  | EmptyString => EmptyString
  | String c s' => if is_space c then trim_start s' else s
  end.

Definition string_rev (s : string) : string :=
  string_of_list_ascii (rev (list_ascii_of_string s)).

(** [trim] on ASCII white space. *)
Definition ascii_trim (s : string) : string :=
  string_rev (trim_start (string_rev (trim_start s))).

(** [toLowerCase] on ASCII letters. *)
Fixpoint ascii_toLowerCase (s : string) : string :=
  match s with
  | EmptyString => EmptyString
  | String c s' =>
      let n := nat_of_ascii c in
      String (if bool_decide (65 ≤ n ≤ 90) then ascii_of_nat (n + 32) else c)
        (ascii_toLowerCase s')
  end.

Definition hex_digit (n : nat) : ascii :=
  ascii_of_nat (if bool_decide (n < 10) then 48 + n else 55 + n).

Definition unreserved (c : ascii) : bool :=
  let n := nat_of_ascii c in
  bool_decide (48 ≤ n ≤ 57) || bool_decide (65 ≤ n ≤ 90) || bool_decide (97 ≤ n ≤ 122)
  || bool_decide (c ∈ ["-"; "_"; "."; "!"; "~"; "*"; "'"; "("; ")"]%char).

(** [encodeURIComponent] on the bytes of a UTF-8 string. *)
Fixpoint percent_encode (s : string) : string :=
  match s with
  | EmptyString => EmptyString
  | String c s' =>
      if unreserved c then String c (percent_encode s')
      else String "%" (String (hex_digit (nat_of_ascii c `div` 16))
                         (String (hex_digit (nat_of_ascii c `mod` 16)) (percent_encode s')))
  end.

Definition sample_runtime (development : bool) : Runtime :=
  {| isDevelopment := development;
     sdgTitleMap := {[ "sdg13" := "SDG 13 - Climate Action" ]};
     determineInitialKeyword := "TED";
     str_trim := ascii_trim;
     str_toLowerCase := ascii_toLowerCase;
     encodeURIComponent := percent_encode |}.

Definition sample_document (name slug : string) : Document :=
  {| doc_presenterDisplayName := Some name;
     doc_slug := Some slug;
     doc_sdg_tags := Some ["sdg13"];
     doc_transcript := Some "Hello." |}.

(** A response with status 200 and one hit per presenter and slug. *)
Definition sample_response (hits : list (string * string)) : Outcome :=
  Resolved {| status := 200; statusText := "OK";
              results := Some ((λ h, sample_document h.1 h.2) <$> hits) |}.

Definition sample_talk (name slug : string) : Talk :=
  {| presenterDisplayName := name;
     title := replace_underscores slug;
     url := "https://www.ted.com/talks/" +:+ slug;
     sdg_tags := ["sdg13"];
     transcript := "Hello." |}.

(** In production: the panel mounts and its first search returns one talk;
    the user presses Enter a second after the mount, gets the same talk
    again, and clicks Search 200 ms after having pressed Enter. *)
Definition sample_trace : list (nat * Event) :=
  [(0, Mount);
   (120, Settle 0 (sample_response [("Ada", "a_b")]) (mkDraw 0 0));
   (1000, KeyDown "Enter");
   (1150, Settle 0 (sample_response [("Ada", "a_b")]) (mkDraw 0 0));
   (1200, ClickSearch)].

Definition production : Runtime := sample_runtime false.
Definition development : Runtime := sample_runtime true.

(** In production, right after the mount: the first search is parked. *)
Definition after_mount : State := step production Mount (initial production).

(** Three hits, of which the first two have the same slug, and the talks
    read from them. *)
Definition sample_hits : list (string * string) :=
  [("Ada", "a_b"); ("Bob", "a_b"); ("Cy", "c_d")].

Definition sample_data : list Talk :=
  [sample_talk "Ada" "a_b"; sample_talk "Bob" "a_b"; sample_talk "Cy" "c_d"].

(** The state of the sample trace in which the second search gets its
    response. *)
Definition before_second_result : State := state_at production sample_trace 3.

(** In development: a search started by the second mount and aborted by
    the cleanup that follows, its request not yet settled. *)
Definition aborted_search : State :=
  run development [Mount; Cleanup; Mount; Cleanup] (initial development).

(** Whether the character [c] occurs in [s]. *)
Fixpoint occurs (c : ascii) (s : string) : bool :=
  match s with
  | EmptyString => false
  | String x s' => Ascii.eqb x c || occurs c s'
  end.


(** Every request has a controller of its own: request number [i] has the
    signal of controller number [i], there are as many controllers as
    requests, and the ref holds the controller of the last request. *)
Definition controllers_inv (st : State) : Prop :=
  length (controllers (browser st)) = length (requests (browser st))
  ∧ (∀ i r, requests (browser st) !! i = Some r → req_signal r = i)
  ∧ abortControllerRef (panel st)
    = match length (requests (browser st)) with
      | 0 => None
      | S n => Some n
      end.


(** ** The rest of the talk panel *)

(** *** The span of the video being watched *)

(** Attribute values of a [watch_video] span: strings and, for
    [video.sdg_tags], an array of strings. *)
Inductive WatchAttr :=
| WStr (s : string)
| WTags (tags : list string).

Record WatchSpan := mkWatchSpan {
  watch_name : string;
  watch_attributes : list (string * WatchAttr);
  watch_ended : nat;
}.

(** The [watch_video] spans started so far and [activeWatchSpanRef]. *)
Record Watch := mkWatch {
  watch_spans : list WatchSpan;
  activeWatchSpanRef : option nat;
}.

(** [if (activeWatchSpanRef.current) { activeWatchSpanRef.current.end();
    activeWatchSpanRef.current = null; }], which both the effect and its
    cleanup run. *)
Definition endActiveWatchSpan (w : Watch) : Watch :=
  match activeWatchSpanRef w with
  | Some i =>
      mkWatch (alter (λ s, mkWatchSpan (watch_name s) (watch_attributes s)
                             (S (watch_ended s))) i (watch_spans w))
        None
  | None => w
  end.

(** The body of the effect on [selectedTalk]. *)
Definition watchEffect (selectedTalk : option Talk) (w : Watch) : Watch :=
  let w := endActiveWatchSpan w in
  match selectedTalk with
  | Some talk =>
      mkWatch
        (watch_spans w
           ++ [mkWatchSpan "watch_video"
                 [("video.title", WStr (title talk));
                  ("video.presenter", WStr (presenterDisplayName talk));
                  ("video.url", WStr (url talk));
                  ("video.sdg_tags", WTags (sdg_tags talk))] 0])
        (Some (length (watch_spans w)))
  | None => w
  end.

(** The effect runs for a value of [selectedTalk], or its cleanup runs. *)
Inductive WatchEvent :=
| WatchRun (selectedTalk : option Talk)
| WatchCleanup.

Definition watch_step (ev : WatchEvent) (w : Watch) : Watch :=
  match ev with
  | WatchRun sel => watchEffect sel w
  | WatchCleanup => endActiveWatchSpan w
  end.

Definition watch_run (evs : list WatchEvent) (w : Watch) : Watch :=
  foldl (λ w ev, watch_step ev w) w evs.

(** *** The embedded player *)

(** [\w]. *)
Definition is_word_char (c : ascii) : bool :=
  let n := nat_of_ascii c in
  bool_decide (48 ≤ n ≤ 57) || bool_decide (65 ≤ n ≤ 90) || bool_decide (97 ≤ n ≤ 122)
  || bool_decide (n = 95).

(** The longest run of word characters at the start of [s]. *)
Fixpoint word_prefix (s : string) : string :=
  match s with
  | EmptyString => EmptyString
  | String c s' => if is_word_char c then String c (word_prefix s') else EmptyString
  end.

(** [s] without its prefix [p], when it starts with [p]. *)
Fixpoint strip_prefix (p s : string) : option string :=
  match p with
  | EmptyString => Some s
  | String a p' =>
      match s with
      | EmptyString => None
      | String b s' => if Ascii.eqb a b then strip_prefix p' s' else None
      end
  end.

(** A match of [/talks\/([\w_]+)/] that starts at the start of [s]: its
    group. *)
Definition match_talks_here (s : string) : option string :=
  match strip_prefix "talks/" s with
  | Some rest =>
      if decide (word_prefix rest = "") then None else Some (word_prefix rest)
  | None => None
  end.

(** [s.match(/talks\/([\w_]+)/)?.[1]]: the group of the leftmost match. *)
Fixpoint match_talks (s : string) : option string :=
  match match_talks_here s with
  | Some w => Some w
  | None =>
      match s with
      | EmptyString => None
      | String _ s' => match_talks s'
      end
  end.

(** The [src] of the iframe; a missing group is printed as [undefined]. *)
Definition iframe_src (talk : Talk) : string :=
  "https://embed.ted.com/talks/" +:+ default "undefined" (match_talks (url talk)).

(** *** What the panel renders *)

(** The props of one [TalkItem] and its [key]. *)
Record TalkItemProps := mkTalkItem {
  item_key : string;
  item_talk : Talk;
  item_selected : bool;
}.

Record View := mkView {
  view_spinner : bool;                 (* both loading spinners *)
  view_nowPlaying : option string;     (* the [src] of the iframe, if shown *)
  view_inputValue : string;
  view_searchDisabled : bool;
  view_transcriptButton : bool;
  view_error : option string;          (* the error container, if shown *)
  view_items : list TalkItemProps;
}.

(** [selectedTalk?.title === talk.title]. *)
Definition is_selected (selected : option Talk) (talk : Talk) : bool :=
  match selected with
  | Some s => bool_decide (title s = title talk)
  | None => false
  end.

Definition render (st : State) : View :=
  {| view_spinner := isLoading (store st);
     view_nowPlaying :=
       if isStrictMode (panel st) then None
       else iframe_src <$> selectedTalk (store st);
     view_inputValue := searchQuery (panel st);
     view_searchDisabled := isLoading (store st);
     view_transcriptButton := bool_decide (is_Some (selectedTalk (store st)));
     view_error :=
       match error (store st) with
       | Some e => if decide (e = "") then None else Some e
       | None => None
       end;
     view_items :=
       imap (λ index talk,
               mkTalkItem (url talk +:+ "-" +:+ pretty index) talk
                 (is_selected (selectedTalk (store st)) talk))
         (talks (store st)) |}.

(** *** The Transcript button *)

(** [openTranscriptInNewTab]: the state it leaves and the URL it opens in
    a new tab, if it opens one. *)
Definition openTranscriptInNewTab (st : State) : State * option string :=
  match selectedTalk (store st) with
  | Some selected =>
      let sp := length (spans (browser st)) in
      let st := startSpan "open_transcript" st in
      let st := setAttribute sp "video.title" (AStr (title selected)) st in
      let st := setAttribute sp "video.url" (AStr (url selected)) st in
      (endSpan sp st, Some (url selected +:+ "/transcript?subtitle=en"))
  | None => (st, None)
  end.

(** A talk read from a document of a response. *)
Definition from_document (talk : Talk) : Prop := ∃ doc, toTalk doc = Some talk.

(** Every character of [s] is a word character. *)
Definition all_word (s : string) : bool :=
  forallb is_word_char (list_ascii_of_string s).


(** In a [Watch], the span in the ref is open, every other span has been
    ended once, and the ref points into the list of spans. *)
Definition watch_inv (w : Watch) : Prop :=
  (∀ i s, watch_spans w !! i = Some s →
          watch_ended s = if decide (activeWatchSpanRef w = Some i) then 0 else 1)
  ∧ (∀ i, activeWatchSpanRef w = Some i → i < length (watch_spans w)).

(** The store holds talks read from documents only. *)
Definition talks_inv (st : State) : Prop :=
  Forall from_document (talks (store st))
  ∧ ∀ talk, selectedTalk (store st) = Some talk → from_document talk.


(** The span of every parked search is the open [search_talks] span that
    carries the query of the request, and nothing else; the request is the
    last one sent. *)
Definition parked_ok (rt : Runtime) (st : State) : Prop :=
  ∀ p, p ∈ pending (browser st) →
       last (requests (browser st)) = Some (p_request p)
       ∧ ∃ trimmedQuery,
           spans (browser st) !! p_span p
           = Some (mkSpan "search_talks" [("search.query", AStr trimmedQuery)] [] 0)
           ∧ req_url (p_request p) = search_url rt trimmedQuery.

(** The request of the search that the mount effect starts. *)
Definition initial_request (rt : Runtime) : Request :=
  mkRequest (search_url rt (str_toLowerCase rt (str_trim rt (determineInitialKeyword rt)))) 0.

(** Before the first request the panel is not mounted and no search is in
    progress, and the first request is the one of the mount effect. *)
Definition first_request_inv (rt : Runtime) (st : State) : Prop :=
  (requests (browser st) = [] →
   mounted (panel st) = false
   ∧ isSearchInProgress (panel st) = false
   ∧ controllers (browser st) = [])
  ∧ ∀ r, requests (browser st) !! 0 = Some r → r = initial_request rt.

(** ** Instances of the panel on a page *)

(** The transition system above is one instance of the panel, from its
    first render on, with a store that no other component writes.  Over
    the life of a page instances follow one another: when the panel is
    unmounted and mounted again, React builds a new instance, with refs
    and a state cell of its own.  The abort controllers, the requests, the
    parked continuations and the spans of an instance belong to it alone;
    a continuation parked by an instance stays parked when the instance is
    unmounted and, when its request settles, runs on the refs of that
    instance.  The store and local storage are shared by all instances. *)
Record Instance := mkInstance {
  inst_panel : Panel;
  inst_browser : Browser;       (* its [lastSearchData] is not read *)
}.

Record App := mkApp {
  app_instances : list Instance;
  app_store : Store;
  app_lastSearchData : option (list Talk);
  app_dispatched : list Action;
}.

(** An instance with the shared store, as a state of the transition system
    of one instance. *)
Definition instance_state (a : App) (inst : Instance) : State :=
  mkState (inst_panel inst) (app_store a)
    (set_lastSearchData (app_lastSearchData a) (inst_browser inst))
    (app_dispatched a).

Definition instance (i : nat) (a : App) : option State :=
  instance_state a <$> app_instances a !! i.

Definition put_instance (i : nat) (st : State) (a : App) : App :=
  mkApp (<[i := mkInstance (panel st) (browser st)]> (app_instances a))
    (store st) (lastSearchData (browser st)) (dispatched st).

Inductive AppEvent :=
| Render                          (* a new instance of the panel is rendered *)
| At (i : nat) (ev : Event).      (* event [ev] happens to instance [i] *)

(** An instance that has been mounted and is not mounted any more. *)
Definition unmounted (inst : Instance) : bool :=
  negb (mounted (inst_panel inst))
  && negb (bool_decide (effectRuns (inst_panel inst) = 0)).

Section App.
Variable rt : Runtime.

Definition app_initial : App := mkApp [] (store (initial rt)) None [].

Definition app_step (e : AppEvent) (a : App) : App :=
  match e with
  | Render =>
      mkApp (app_instances a ++ [mkInstance (panel (initial rt)) (browser (initial rt))])
        (app_store a) (app_lastSearchData a) (app_dispatched a)
  | At i ev =>
      match instance i a with
      | Some st => put_instance i (step rt ev st) a
      | None => a
      end
  end.

(** The page shows one panel: an instance is rendered only when every
    instance before it has been unmounted. *)
Definition app_enabled (e : AppEvent) (a : App) : bool :=
  match e with
  | Render => forallb unmounted (app_instances a)
  | At i ev =>
      match instance i a with
      | Some st => enabled rt ev st
      | None => false
      end
  end.

Inductive app_reachable : App → Prop :=
| app_reachable_initial : app_reachable app_initial
| app_reachable_step e a :
    app_reachable a → app_enabled e a = true → app_reachable (app_step e a).

Definition app_run (es : list AppEvent) (a : App) : App :=
  foldl (λ a e, app_step e a) a es.

Fixpoint app_possible (es : list AppEvent) (a : App) : bool :=
  match es with
  | [] => true
  | e :: es' => app_enabled e a && app_possible es' (app_step e a)
  end.

End App.

(** The parked searches of all instances whose request has not been
    aborted, each with the number of its instance. *)
Definition app_in_flight_live (a : App) : list (nat * Pending) :=
  concat (imap (λ i inst, (λ p, (i, p)) <$> in_flight_live (instance_state a inst))
            (app_instances a)).

(** In production: the panel is unmounted while its first search is
    parked, and the instance rendered next is mounted. *)
Definition remount_trace : list AppEvent :=
  [Render; At 0 Mount; At 0 Cleanup; Render; At 1 Mount].

Definition remounted : App := app_run production remount_trace (app_initial production).

(** In production: the first search of the panel has returned Ada's talk,
    and its transcript has been sent to the chat. *)
Definition first_talk_sent : App :=
  app_run production
    [Render; At 0 Mount; At 0 (Settle 0 (sample_response [("Ada", "a_b")]) (mkDraw 0 0))]
    (app_initial production).

(** In development: the first mount has raised the strict-mode flag and the
    user has asked for a search with Enter; the search is parked. *)
Definition guarded_search : State :=
  run development [Mount; KeyDown "Enter"] (initial development).

(** In development: the search started by the second mount is parked. *)
Definition second_mount : State :=
  run development [Mount; Cleanup; Mount] (initial development).


(** * Properties *)

(** ** Lists and spans *)

Lemma alter_snoc {A} (f : A → A) (l : list A) (x : A) :
  alter f (length l) (l ++ [x]) = l ++ [f x].
Proof. induction l as [|y l IH]; [done |]. simpl. f_equal. exact IH. Qed.

Lemma fmap_alter_same {A B} (f : A → B) (g : A → A) (i : nat) (l : list A) :
  (∀ x, f (g x) = f x) → f <$> alter g i l = f <$> l.
Proof.
  intros Hfg. revert i. induction l as [|y l IH]; intros [|i]; simpl; try done.
  - f_equal. apply Hfg.
  - f_equal. apply IH.
Qed.

Lemma fmap_alter_commute {A B} (f : A → B) (g : A → A) (h : B → B) (i : nat) (l : list A) :
  (∀ x, f (g x) = h (f x)) → f <$> alter g i l = alter h i (f <$> l).
Proof.
  intros Hfg. revert i. induction l as [|y l IH]; intros [|i]; simpl; try done.
  - f_equal. apply Hfg.
  - f_equal. apply IH.
Qed.

Ltac destruct_state st :=
  destruct st as [[?q ?strict ?mc ?ref ?busy ?sent ?timer ?mnt ?runs]
                  [?tks ?sel ?load ?err ?msgs]
                  [?cs ?rs ?ps ?ss ?lsd] ?acts].

Ltac unfold_ops :=
  cbv [endSpan setAttribute recordException on_span startSpan axios_get
       newAbortController with_browser with_panel dispatch
       set_spans set_pending set_requests set_controllers set_lastSearchData
       set_searchQuery set_isStrictMode set_mountCounter set_abortControllerRef
       set_isSearchInProgress set_sentMessagesRef set_debounceTimer set_mounted
       set_effectRuns
       panel store browser dispatched
       searchQuery isStrictMode mountCounter abortControllerRef isSearchInProgress
       sentMessagesRef debounceTimer mounted effectRuns
       controllers requests pending spans lastSearchData].

Ltac red_ops :=
  cbn [endSpan setAttribute recordException on_span startSpan axios_get
       newAbortController with_browser with_panel dispatch
       set_spans set_pending set_requests set_controllers set_lastSearchData
       set_searchQuery set_isStrictMode set_mountCounter set_abortControllerRef
       set_isSearchInProgress set_sentMessagesRef set_debounceTimer set_mounted
       set_effectRuns
       panel store browser dispatched
       searchQuery isStrictMode mountCounter abortControllerRef isSearchInProgress
       sentMessagesRef debounceTimer mounted effectRuns
       controllers requests pending spans lastSearchData].

Lemma ended_counts_setAttribute sp k v st :
  ended_counts (setAttribute sp k v st) = ended_counts st.
Proof. destruct_state st. unfold ended_counts. unfold_ops. by apply fmap_alter_same. Qed.

Lemma ended_counts_recordException sp e st :
  ended_counts (recordException sp e st) = ended_counts st.
Proof. destruct_state st. unfold ended_counts. unfold_ops. by apply fmap_alter_same. Qed.

Lemma ended_counts_endSpan sp st :
  ended_counts (endSpan sp st) = alter S sp (ended_counts st).
Proof. destruct_state st. unfold ended_counts. unfold_ops. by apply fmap_alter_commute. Qed.

Section Facts.
Variable rt : Runtime.

(** *** [performSearch] up to the request *)

Lemma performSearch_busy query st :
  isSearchInProgress (panel st) = true →
  performSearch rt query st
  = with_browser (λ b, set_spans (spans b ++ [skipped_span rt query]) b) st.
Proof.
  destruct_state st. simpl. intros ->.
  unfold performSearch. unfold_ops.
  by rewrite !alter_snoc.
Qed.

Lemma performSearch_idle query st :
  isSearchInProgress (panel st) = false →
  performSearch rt query st
  = mkState
      (set_isSearchInProgress true
         (set_abortControllerRef (Some (length (controllers (browser st)))) (panel st)))
      (reducer (SetApiError None) (reducer (SetLoading true) (store st)))
      (mkBrowser
         (controllers (browser (abortCurrent st)) ++ [false])
         (requests (browser st) ++ [search_request rt query st])
         (pending (browser st)
            ++ [mkPending (length (spans (browser st))) (search_request rt query st)])
         (spans (browser st) ++ [opened_span rt query])
         (lastSearchData (browser st)))
      (dispatched st ++ [SetLoading true; SetApiError None]).
Proof.
  destruct_state st. simpl. intros ->.
  unfold performSearch, search_request, abortCurrent. unfold_ops.
  rewrite !alter_snoc. destruct ref; unfold_ops;
    rewrite ?length_insert, <- ?app_assoc; reflexivity.
Qed.

Lemma controllers_abortCurrent st :
  controllers (browser (abortCurrent st))
  = match abortControllerRef (panel st) with
    | Some c => <[c := true]> (controllers (browser st))
    | None => controllers (browser st)
    end.
Proof. unfold abortCurrent. by destruct (abortControllerRef (panel st)). Qed.

(** *** [sendTranscriptAsMessage] and [handleSearchResults] *)

Lemma sendTranscriptAsMessage_sent talk st :
  title talk ∈ sentMessagesRef (panel st) →
  sendTranscriptAsMessage rt talk st = st.
Proof. intros Hin. unfold sendTranscriptAsMessage. by rewrite decide_True. Qed.

Lemma panel_sendTranscriptAsMessage talk st :
  panel (sendTranscriptAsMessage rt talk st)
  = set_sentMessagesRef (sentMessagesRef (panel (sendTranscriptAsMessage rt talk st)))
      (panel st).
Proof.
  unfold sendTranscriptAsMessage. case_decide; [by destruct_state st |].
  by destruct_state st.
Qed.

Lemma browser_sendTranscriptAsMessage talk st :
  browser (sendTranscriptAsMessage rt talk st) = browser st.
Proof. unfold sendTranscriptAsMessage. by case_decide. Qed.

Lemma panel_handleSearchResults d data st :
  panel (handleSearchResults rt d data st)
  = set_sentMessagesRef (sentMessagesRef (panel (handleSearchResults rt d data st)))
      (panel st).
Proof.
  unfold handleSearchResults. destruct data as [|first data'].
  - by destruct_state st.
  - cbv [with_browser]. cbn [panel]. rewrite panel_sendTranscriptAsMessage.
    by destruct_state st.
Qed.

Lemma browser_handleSearchResults d data st :
  browser (handleSearchResults rt d data st)
  = set_lastSearchData (Some data) (browser st).
Proof.
  unfold handleSearchResults. destruct data as [|first data'].
  - reflexivity.
  - cbv [with_browser]. cbn [browser]. by rewrite browser_sendTranscriptAsMessage.
Qed.

(** *** [performSearch] after the request *)

Lemma performSearch_resume_eq sp o d st :
  performSearch_resume rt sp o d st
  = performSearch_finally sp
      match try_result o with
      | inl e => performSearch_catch sp e st
      | inr data =>
          let st1 := setAttribute sp "search.results_count" (ANum (length data)) st in
          if isStrictMode (panel st) then st1 else handleSearchResults rt d data st1
      end.
Proof.
  unfold performSearch_resume, performSearch_try, try_result.
  destruct o as [response|e]; [|done].
  case_decide; [done|].
  destruct (results response ≫= mapM toTalk) as [data|]; [|done].
  cbn [panel setAttribute on_span with_browser]. by destruct (isStrictMode (panel st)).
Qed.

Lemma panel_resume sp o d st :
  panel (performSearch_resume rt sp o d st)
  = set_isSearchInProgress false
      (set_sentMessagesRef (sentMessagesRef (panel (performSearch_resume rt sp o d st)))
         (panel st)).
Proof.
  rewrite performSearch_resume_eq. unfold performSearch_finally.
  destruct (try_result o) as [e|data].
  - unfold performSearch_catch. destruct (negb (isCancel e)); by destruct_state st.
  - cbv zeta. destruct (isStrictMode (panel st)) eqn:Hs; [by destruct_state st|].
    cbv [endSpan on_span with_browser with_panel dispatch]. cbn [panel].
    rewrite panel_handleSearchResults. by destruct_state st.
Qed.

Lemma browser_resume sp o d st :
  let b' := browser (performSearch_resume rt sp o d st) in
  controllers b' = controllers (browser st)
  ∧ requests b' = requests (browser st)
  ∧ pending b' = pending (browser st)
  ∧ length (spans b') = length (spans (browser st)).
Proof.
  rewrite performSearch_resume_eq. unfold performSearch_finally.
  destruct (try_result o) as [e|data].
  - unfold performSearch_catch. destruct (negb (isCancel e)); red_ops;
      by rewrite !length_alter.
  - cbv zeta. destruct (isStrictMode (panel st)); red_ops.
    + by rewrite !length_alter.
    + rewrite browser_handleSearchResults. red_ops. by rewrite !length_alter.
Qed.

Lemma ended_counts_resume sp o d st :
  ended_counts (performSearch_resume rt sp o d st) = alter S sp (ended_counts st).
Proof.
  rewrite performSearch_resume_eq. unfold performSearch_finally.
  rewrite ended_counts_endSpan. f_equal.
  destruct (try_result o) as [e|data].
  - unfold performSearch_catch. destruct (negb (isCancel e)).
    + apply (ended_counts_recordException sp e st).
    + apply (ended_counts_setAttribute sp _ _ st).
  - cbv zeta. destruct (isStrictMode (panel st)).
    + apply (ended_counts_setAttribute sp _ _ st).
    + unfold ended_counts. cbv [with_panel dispatch]. cbn [browser].
      rewrite browser_handleSearchResults.
      apply (ended_counts_setAttribute sp _ _ st).
Qed.

End Facts.

(** ** One search at a time *)

Section OneSearch.
Variable rt : Runtime.

Lemma search_inv_initial : search_inv (initial rt).
Proof.
  split; simpl; try done.
  - lia.
  - intros p Hp. by apply elem_of_nil in Hp.
  - intros p Hp. by apply elem_of_nil in Hp.
Qed.

Lemma search_inv_idle st :
  search_inv st → isSearchInProgress (panel st) = false → pending (browser st) = [].
Proof.
  intros [_ Hbusy _ _ _ _ _] Hidle. simpl in Hbusy. rewrite Hidle in Hbusy.
  symmetry in Hbusy. apply bool_decide_eq_false in Hbusy.
  destruct (pending (browser st)); [done | by destruct Hbusy].
Qed.

Lemma search_inv_abortCurrent st : search_inv st → search_inv (abortCurrent st).
Proof.
  intros Hinv. unfold abortCurrent.
  destruct (abortControllerRef (panel st)) as [c|] eqn:Href; [|exact Hinv].
  destruct Hinv as [H1 H2 H3 H4 H5 H6 H7].
  split; simpl in *; rewrite ?Href in *; try done.
  - intros c' Hc'. rewrite length_insert. by apply H5.
  - intros c' b Hlook Hne. apply list_lookup_insert_Some in Hlook.
    destruct Hlook as [(-> & <- & _)|(Hne' & Hlook)]; [done|]. by eapply H6.
Qed.

Lemma search_inv_performSearch query st :
  search_inv st → search_inv (performSearch rt query st).
Proof.
  intros Hinv. destruct (isSearchInProgress (panel st)) eqn:Hbusy.
  - rewrite performSearch_busy by done.
    destruct Hinv as [H1 H2 H3 H4 H5 H6 H7].
    split; simpl in *; try done.
    + intros i n. unfold ended_counts. simpl. rewrite fmap_app. simpl.
      intros Hlook. apply lookup_app_Some in Hlook.
      destruct Hlook as [Hlook|[Hge Hlook]]; [by apply H3|].
      rewrite length_fmap in Hge, Hlook.
      destruct (i - length (spans (browser st))) eqn:Hi; [|done].
      simpl in Hlook. injection Hlook as <-.
      rewrite bool_decide_eq_false_2; [done|].
      intros Hin. apply list_elem_of_fmap in Hin as (p & -> & Hp).
      apply H4 in Hp. unfold ended_counts in Hp. rewrite length_fmap in Hp. lia.
    + intros p Hp. apply H4 in Hp. unfold ended_counts in *. simpl.
      rewrite length_fmap, length_app in *. lia.
  - pose proof (search_inv_idle st Hinv Hbusy) as Hnil.
    rewrite performSearch_idle by done.
    destruct Hinv as [H1 H2 H3 H4 H5 H6 H7].
    split; simpl in *; rewrite ?Hnil in *; simpl in *.
    + lia.
    + done.
    + intros i n. unfold ended_counts. simpl. rewrite fmap_app. simpl.
      intros Hlook. apply lookup_app_Some in Hlook.
      rewrite length_fmap in Hlook.
      destruct Hlook as [Hlook|[Hge Hlook]].
      * rewrite bool_decide_eq_false_2.
        { apply H3 in Hlook. by rewrite ?bool_decide_eq_false_2 in Hlook by apply not_elem_of_nil. }
        intros Hin. apply list_elem_of_singleton in Hin.
        apply lookup_lt_Some in Hlook. rewrite length_fmap in Hlook. lia.
      * destruct (i - length (spans (browser st))) eqn:Hi; [|done].
        simpl in Hlook. injection Hlook as <-.
        rewrite bool_decide_eq_true_2; [done|].
        apply list_elem_of_singleton. lia.
    + intros p Hp. apply list_elem_of_singleton in Hp as ->. simpl.
      unfold ended_counts. simpl. rewrite length_fmap, length_app. simpl. lia.
    + intros c [= <-]. rewrite length_app, controllers_abortCurrent.
      destruct (abortControllerRef (panel st)); rewrite ?length_insert; simpl; lia.
    + intros c b Hlook Hne. apply lookup_app_Some in Hlook.
      assert (Hlen : length (controllers (browser (abortCurrent st)))
                     = length (controllers (browser st))).
      { rewrite controllers_abortCurrent.
        destruct (abortControllerRef (panel st)); by rewrite ?length_insert. }
      rewrite Hlen in Hlook.
      destruct Hlook as [Hlook|[Hge Hlook]].
      * rewrite controllers_abortCurrent in Hlook.
        destruct (abortControllerRef (panel st)) as [c0|] eqn:Href.
        -- apply list_lookup_insert_Some in Hlook.
           destruct Hlook as [(-> & <- & _)|(Hne' & Hlook)]; [done|].
           eapply H6; [done|]. congruence.
        -- by eapply H6.
      * destruct (c - length (controllers (browser st))) eqn:Hc; [|done].
        destruct Hne. f_equal. lia.
    + intros p Hp. by apply list_elem_of_singleton in Hp as ->.
Qed.
Lemma pending_single (ps : list Pending) k p :
  length ps ≤ 1 → ps !! k = Some p → ps = [p] ∧ k = 0.
Proof.
  destruct ps as [|p0 [|p1 ps]]; simpl; intros Hlen Hlook; try done; [|lia].
  destruct k; simpl in Hlook; [|done]. by injection Hlook as ->.
Qed.

Lemma search_inv_settle k o d st :
  search_inv st → search_inv (step rt (Settle k o d) st).
Proof.
  intros Hinv. cbn [step]. destruct (pending (browser st) !! k) as [p|] eqn:Hk; [|done].
  unfold search_inv. rewrite ended_counts_resume, panel_resume.
  destruct (browser_resume rt (p_span p) o d
              (with_browser (λ b, set_pending (delete k (pending b)) b) st))
    as (-> & _ & -> & _).
  red_ops.
  destruct Hinv as [H1 H2 H3 H4 H5 H6 H7]. simpl in *.
  destruct (pending_single _ _ _ H1 Hk) as [Hps ->]. rewrite Hps in *.
  split; simpl; try done.
  - lia.
  - intros i n Hlook. rewrite ?bool_decide_eq_false_2 by apply not_elem_of_nil.
    unfold ended_counts in *. simpl in *.
    rewrite list_lookup_alter in Hlook. case_decide as Hi.
    + subst i. destruct (_ !! p_span p) as [n0|] eqn:Hn0; [|done].
      injection Hlook as <-. apply H3 in Hn0.
      rewrite bool_decide_eq_true_2 in Hn0 by apply list_elem_of_here.
      by subst.
    + apply H3 in Hlook. rewrite bool_decide_eq_false_2 in Hlook; [done|].
      intros Hin. apply list_elem_of_singleton in Hin. done.
  - intros p' Hp'. by apply elem_of_nil in Hp'.
  - intros p' Hp'. by apply elem_of_nil in Hp'.
Qed.

Lemma search_inv_step ev st : search_inv st → search_inv (step rt ev st).
Proof.
  intros Hinv. destruct ev as [| |q|key| | |k o d|r|].
  - (* Mount *)
    cbn [step]. unfold mountEffect. destruct (isDevelopment rt); cbv beta iota zeta.
    + cbn [panel with_panel mountCounter set_mountCounter set_mounted].
      case_decide; [exact Hinv|]. apply search_inv_performSearch; exact Hinv.
    + apply search_inv_performSearch; exact Hinv.
  - (* Cleanup *)
    cbn [step]. unfold cleanupEffect.
    cbn [panel with_panel isStrictMode set_mounted].
    destruct (isDevelopment rt && negb (isStrictMode (panel st))); [|exact Hinv].
    apply (search_inv_abortCurrent (with_panel (set_mounted false) st)); exact Hinv.
  - exact Hinv.
  - cbn [step]. unfold onKeyDown. case_decide; [|done]. apply search_inv_performSearch; exact Hinv.
  - cbn [step]. unfold onClickSearch. apply search_inv_performSearch; exact Hinv.
  - cbn [step]. unfold debounceTimerFires.
    destruct (debounceTimer (panel st)) as [[? query]|]; [|done].
    apply search_inv_performSearch; exact Hinv.
  - apply search_inv_settle; exact Hinv.
  - cbn [step]. unfold handleSpeechResult. case_decide; exact Hinv.
  - exact Hinv.
Qed.

Lemma reachable_search_inv st : reachable rt st → search_inv st.
Proof.
  induction 1 as [|ev st _ IH _]; [apply search_inv_initial | by apply search_inv_step].
Qed.

(** The invariant holds of every instance on the page: it speaks of the
    refs and the objects of the instance only, which no other instance
    touches. *)
Lemma app_search_inv a :
  app_reachable rt a → ∀ i st, instance i a = Some st → search_inv st.
Proof.
  induction 1 as [|e a _ IH _]; intros i st Hi; [done|].
  destruct e as [|j ev]; cbn [app_step] in Hi.
  - unfold instance in Hi. cbn [app_instances] in Hi.
    apply fmap_Some in Hi as (inst & Hl & ->).
    apply lookup_app_Some in Hl as [Hl|[_ Hl]].
    + apply (IH i (instance_state a inst)). unfold instance. by rewrite Hl.
    + destruct (i - length (app_instances a)); [|done].
      injection Hl as <-. exact search_inv_initial.
  - destruct (instance j a) as [stj|] eqn:Hj; [|by eapply IH].
    unfold instance, put_instance in Hi. cbn [app_instances] in Hi.
    apply fmap_Some in Hi as (inst & Hl & ->).
    destruct (decide (i = j)) as [->|Hne].
    + rewrite list_lookup_insert_eq in Hl.
      * injection Hl as <-. exact (search_inv_step ev stj (IH j stj Hj)).
      * unfold instance in Hj. apply fmap_Some in Hj as (? & Hj & _).
        by eapply lookup_lt_Some.
    + rewrite list_lookup_insert_ne in Hl by done.
      apply (IH i (instance_state a inst)). unfold instance. by rewrite Hl.
Qed.

End OneSearch.

(** ** What a step leaves alone *)

Section Frames.
Variable rt : Runtime.

Lemma panel_performSearch query st :
  panel (performSearch rt query st)
  = if isSearchInProgress (panel st) then panel st
    else set_isSearchInProgress true
           (set_abortControllerRef (Some (length (controllers (browser st)))) (panel st)).
Proof.
  destruct (isSearchInProgress (panel st)) eqn:Hbusy.
  - by rewrite performSearch_busy.
  - by rewrite performSearch_idle.
Qed.

Lemma store_performSearch query st :
  store (performSearch rt query st)
  = if isSearchInProgress (panel st) then store st
    else reducer (SetApiError None) (reducer (SetLoading true) (store st)).
Proof.
  destruct (isSearchInProgress (panel st)) eqn:Hbusy.
  - by rewrite performSearch_busy.
  - by rewrite performSearch_idle.
Qed.

Lemma dispatched_performSearch query st :
  dispatched (performSearch rt query st)
  = if isSearchInProgress (panel st) then dispatched st
    else dispatched st ++ [SetLoading true; SetApiError None].
Proof.
  destruct (isSearchInProgress (panel st)) eqn:Hbusy.
  - by rewrite performSearch_busy.
  - by rewrite performSearch_idle.
Qed.

Lemma requests_performSearch query st :
  requests (browser (performSearch rt query st))
  = if isSearchInProgress (panel st) then requests (browser st)
    else requests (browser st) ++ [search_request rt query st].
Proof.
  destruct (isSearchInProgress (panel st)) eqn:Hbusy.
  - by rewrite performSearch_busy.
  - by rewrite performSearch_idle.
Qed.

(** The step in which pending request [k] settles, spelled out. *)
Lemma step_settle k o d st p :
  pending (browser st) !! k = Some p →
  step rt (Settle k o d) st
  = performSearch_resume rt (p_span p) o d
      (with_browser (λ b, set_pending (delete k (pending b)) b) st).
Proof. intros Hk. cbn [step]. by rewrite Hk. Qed.

Lemma step_settle_none k o d st :
  pending (browser st) !! k = None → step rt (Settle k o d) st = st.
Proof. intros Hk. cbn [step]. by rewrite Hk. Qed.

(** *** The debounce timer is never armed *)

Lemma timer_step ev st :
  debounceTimer (panel st) = None → debounceTimer (panel (step rt ev st)) = None.
Proof.
  intros Hnone. destruct ev as [| |q|key| | |k o d|r|]; cbn [step].
  - unfold mountEffect. destruct (isDevelopment rt); cbv beta iota zeta.
    + case_decide; [exact Hnone|].
      rewrite panel_performSearch. red_ops.
      by destruct (isSearchInProgress (panel st)).
    + rewrite panel_performSearch. red_ops.
      by destruct (isSearchInProgress (panel st)).
  - unfold cleanupEffect, debouncedPerformSearch_cancel. reflexivity.
  - exact Hnone.
  - unfold onKeyDown. case_decide; [|exact Hnone].
    rewrite panel_performSearch. by destruct (isSearchInProgress (panel st)).
  - unfold onClickSearch.
    rewrite panel_performSearch. by destruct (isSearchInProgress (panel st)).
  - unfold debounceTimerFires. by rewrite Hnone.
  - destruct (pending (browser st) !! k) as [p|]; [|exact Hnone].
    rewrite panel_resume. exact Hnone.
  - unfold handleSpeechResult. case_decide; exact Hnone.
  - exact Hnone.
Qed.

Lemma reachable_timer st : reachable rt st → debounceTimer (panel st) = None.
Proof. induction 1 as [|ev st _ IH _]; [done | by apply timer_step]. Qed.

(** *** The flags of the store while a search is in progress *)

Lemma api_step ev st :
  (isSearchInProgress (panel st) = true →
   isLoading (store st) = true ∧ error (store st) = None) →
  isSearchInProgress (panel (step rt ev st)) = true →
  isLoading (store (step rt ev st)) = true ∧ error (store (step rt ev st)) = None.
Proof.
  intros Hst.
  assert (Hps : ∀ query st0,
    panel st0 = panel st ∨ isSearchInProgress (panel st0) = isSearchInProgress (panel st) →
    store st0 = store st →
    isSearchInProgress (panel (performSearch rt query st0)) = true →
    isLoading (store (performSearch rt query st0)) = true
    ∧ error (store (performSearch rt query st0)) = None).
  { intros query st0 Hp Hs. rewrite panel_performSearch, store_performSearch.
    assert (Hb : isSearchInProgress (panel st0) = isSearchInProgress (panel st))
      by (destruct Hp as [-> | ->]; done).
    rewrite Hb, Hs. destruct (isSearchInProgress (panel st)); [|done].
    intros _. by apply Hst. }
  destruct ev as [| |q|key| | |k o d|r|]; cbn [step].
  - unfold mountEffect. destruct (isDevelopment rt); cbv beta iota zeta.
    + case_decide; [exact Hst|]. apply Hps; [by right | done].
    + apply Hps; [by right | done].
  - unfold cleanupEffect, debouncedPerformSearch_cancel. red_ops.
    destruct (isDevelopment rt && negb (isStrictMode (panel st))); [|exact Hst].
    unfold abortCurrent. red_ops.
    destruct (abortControllerRef (panel st)); exact Hst.
  - exact Hst.
  - unfold onKeyDown. case_decide; [|exact Hst]. apply Hps; [by left | done].
  - unfold onClickSearch. apply Hps; [by left | done].
  - unfold debounceTimerFires.
    destruct (debounceTimer (panel st)) as [[? query]|]; [|exact Hst].
    apply Hps; [by right | done].
  - destruct (pending (browser st) !! k) as [p|]; [|exact Hst].
    rewrite panel_resume. done.
  - unfold handleSpeechResult. case_decide; exact Hst.
  - exact Hst.
Qed.

Lemma reachable_api st :
  reachable rt st →
  isSearchInProgress (panel st) = true →
  isLoading (store st) = true ∧ error (store st) = None.
Proof.
  induction 1 as [|ev st Hr IH _]; [done|].
  apply api_step; exact IH.
Qed.

End Frames.

(** ** The strict-mode guard in development *)

Section Development.
Variable rt : Runtime.
Hypothesis dev : isDevelopment rt = true.

Lemma dev_inv_performSearch query st :
  1 ≤ mountCounter (panel st) → 
  isStrictMode (panel st) = bool_decide (mountCounter (panel st) = 1) →
  dev_inv (performSearch rt query st).
Proof.
  intros Hmc Hs. unfold dev_inv. rewrite panel_performSearch.
  destruct (isSearchInProgress (panel st)); red_ops; (split; [done|split; [done|lia]]).
Qed.

Lemma dev_inv_step ev st :
  debounceTimer (panel st) = None → enabled rt ev st = true →
  dev_inv st → dev_inv (step rt ev st).
Proof.
  intros Htimer Hen (Hs & Hm & Hp).
  destruct ev as [| |q|key| | |k o d|r|]; cbn [step enabled] in *.
  - unfold mountEffect. rewrite dev. cbv beta iota zeta. red_ops.
    destruct (decide (mountCounter (panel st) + 1 = 1)) as [Hone|Hone].
    + unfold dev_inv. red_ops. rewrite Hone. split; [done|]. split; [lia|lia].
    + apply dev_inv_performSearch; red_ops; [lia|].
      by rewrite bool_decide_eq_false_2.
  - unfold cleanupEffect, debouncedPerformSearch_cancel, dev_inv, abortCurrent. red_ops.
    destruct (isDevelopment rt && negb (isStrictMode (panel st)));
      [destruct (abortControllerRef (panel st))|]; red_ops; done.
  - unfold dev_inv. red_ops. auto.
  - unfold onKeyDown. destruct (decide (key = "Enter")); [|unfold dev_inv; auto].
    apply dev_inv_performSearch; auto.
  - apply andb_true_iff in Hen as [Hen _]. unfold onClickSearch.
    apply dev_inv_performSearch; auto.
  - rewrite Htimer in Hen. apply bool_decide_eq_true in Hen. by destruct Hen.
  - destruct (pending (browser st) !! k) as [p|] eqn:Hk; [|done].
    unfold dev_inv. rewrite panel_resume. red_ops.
    destruct (browser_resume rt (p_span p) o d
                (with_browser (λ b, set_pending (delete k (pending b)) b) st))
      as (_ & _ & -> & _).
    red_ops. split; [done|]. split; [done|].
    intros Hz. rewrite (Hp Hz) in Hk. done.
  - unfold handleSpeechResult. destruct (decide (str_trim rt r = ""));
      unfold dev_inv; red_ops; auto.
  - unfold dev_inv. red_ops. auto.
Qed.

Lemma reachable_dev_inv st : reachable rt st → dev_inv st.
Proof.
  induction 1 as [|ev st Hr IH Hen].
  - unfold dev_inv. simpl. split; [done|]. split; [done|done].
  - apply dev_inv_step; [by apply (reachable_timer rt) | done | done].
Qed.

End Development.

(** ** One transcript message per title *)

Section SentOnce.
Variable rt : Runtime.

Lemma transcript_messages_snoc acts a :
  transcript_messages (acts ++ [a])
  = transcript_messages acts ++ option_list (transcript_of a).
Proof.
  unfold transcript_messages. rewrite omap_app. f_equal.
Qed.

Lemma sent_ok_view st st' : sent_view st' = sent_view st → sent_ok rt st → sent_ok rt st'.
Proof.
  unfold sent_view, sent_ok. intros [= Hs Hm] (ts & ? & ? & ?).
  exists ts. rewrite Hs, Hm. done.
Qed.

Lemma sent_view_dispatch a st :
  transcript_of a = None → sent_view (dispatch a st) = sent_view st.
Proof.
  intros Ha. unfold sent_view. red_ops.
  rewrite transcript_messages_snoc, Ha. simpl. by rewrite app_nil_r.
Qed.

Lemma sent_view_performSearch query st :
  sent_view (performSearch rt query st) = sent_view st.
Proof.
  unfold sent_view. rewrite panel_performSearch, dispatched_performSearch.
  destruct (isSearchInProgress (panel st)); [done|]. red_ops. f_equal.
  unfold transcript_messages. rewrite omap_app. simpl. by rewrite app_nil_r.
Qed.

Lemma sent_ok_sendTranscriptAsMessage talk st :
  sent_ok rt st → sent_ok rt (sendTranscriptAsMessage rt talk st).
Proof.
  intros Hok. unfold sendTranscriptAsMessage.
  destruct (decide (title talk ∈ sentMessagesRef (panel st))) as [Hin|Hin]; [done|].
  destruct Hok as (ts & Hnd & Hm & Hs).
  exists (ts ++ [talk]). red_ops.
  rewrite transcript_messages_snoc, !fmap_app, Hm, Hs. simpl.
  split; [|split; [done|]].
  - apply NoDup_app. split; [done|]. split; [|apply NoDup_singleton].
    intros x Hx Hx'. apply list_elem_of_singleton in Hx' as ->.
    apply Hin. rewrite Hs. by apply elem_of_list_to_set.
  - rewrite list_to_set_app_L. simpl.
    rewrite (right_id_L ∅ (∪)). apply (comm_L (∪)).
Qed.

Lemma sent_ok_handleSearchResults d data st :
  sent_ok rt st → sent_ok rt (handleSearchResults rt d data st).
Proof.
  intros Hok. unfold handleSearchResults.
  apply (sent_ok_view (match data with
                       | [] => dispatch (SetTalks data) st
                       | first :: _ =>
                           sendTranscriptAsMessage rt (randomTalk_of d first data)
                             (dispatch (SetSelectedTalk (randomTalk_of d first data))
                                (dispatch (SetTalks (reorderedTalks (randomTalk_of d first data) data))
                                   (dispatch (SetTalks data) st)))
                       end)); [done|].
  destruct data as [|first data'].
  - apply (sent_ok_view st); [|done]. by apply sent_view_dispatch.
  - apply sent_ok_sendTranscriptAsMessage.
    apply (sent_ok_view st); [|done].
    by rewrite !sent_view_dispatch.
Qed.

Lemma sent_ok_resume sp o d st :
  sent_ok rt st → sent_ok rt (performSearch_resume rt sp o d st).
Proof.
  intros Hok. rewrite performSearch_resume_eq. unfold performSearch_finally.
  match goal with
  | |- sent_ok _ (endSpan _ (with_panel _ (dispatch _ ?inner))) =>
      apply (sent_ok_view inner); [by apply (sent_view_dispatch _ inner)|]
  end.
  destruct (try_result o) as [e|data].
  - unfold performSearch_catch. destruct (negb (isCancel e)).
    + apply (sent_ok_view st); [|done].
      by apply (sent_view_dispatch _ (recordException sp e st)).
    + exact Hok.
  - cbv zeta. destruct (isStrictMode (panel st)); [exact Hok|].
    apply sent_ok_handleSearchResults. exact Hok.
Qed.

Lemma sent_ok_step ev st : sent_ok rt st → sent_ok rt (step rt ev st).
Proof.
  intros Hok.
  assert (Hps : ∀ query st0, sent_view st0 = sent_view st →
                sent_ok rt (performSearch rt query st0)).
  { intros query st0 Hv. apply (sent_ok_view st); [|done].
    by rewrite sent_view_performSearch. }
  destruct ev as [| |q|key| | |k o d|r|]; cbn [step].
  - unfold mountEffect. destruct (isDevelopment rt); cbv beta iota zeta.
    + destruct (decide _); [exact Hok|]. by apply Hps.
    + by apply Hps.
  - unfold cleanupEffect, debouncedPerformSearch_cancel, abortCurrent. red_ops.
    destruct (isDevelopment rt && negb (isStrictMode (panel st)));
      [destruct (abortControllerRef (panel st))|]; exact Hok.
  - exact Hok.
  - unfold onKeyDown. destruct (decide _); [|exact Hok]. by apply Hps.
  - unfold onClickSearch. by apply Hps.
  - unfold debounceTimerFires.
    destruct (debounceTimer (panel st)) as [[? query]|]; [|exact Hok]. by apply Hps.
  - destruct (pending (browser st) !! k) as [p|]; [|exact Hok].
    apply sent_ok_resume. exact Hok.
  - unfold handleSpeechResult. destruct (decide _); [exact Hok|].
    apply (sent_ok_view st); [|done]. by apply sent_view_dispatch.
  - apply (sent_ok_view st); [|done]. by apply sent_view_dispatch.
Qed.

Lemma reachable_sent_ok st : reachable rt st → sent_ok rt st.
Proof.
  induction 1 as [|ev st _ IH _]; [|by apply sent_ok_step].
  exists []. split; [apply NoDup_nil_2|]. split; [done|]. simpl. set_solver.
Qed.

End SentOnce.

(** * The claims *)

Section Claims.
Variable rt : Runtime.

(** C1, as the code has it.  One search request at a time for each
    instance of the panel.  In every state of the page and for every
    instance, at most one search of the instance is parked on its request,
    so at most one request of the instance that has not been aborted is in
    flight.  A call of [performSearch] made while a search of the instance
    is in progress sends no request and leaves the parked search and the
    abort controllers as they are; a call made otherwise leaves every abort
    controller created before aborted, creates a controller that is not
    aborted and puts it in the ref, then sends exactly one request, on the
    signal of that controller, and this request is the only one of the
    instance in flight. *)
Theorem performSearch_one_in_flight a i st query :
  app_reachable rt a →
  instance i a = Some st →
  let st' := performSearch rt query st in
  length (pending (browser st)) ≤ 1
  ∧ length (in_flight_live st) ≤ 1
  ∧ if isSearchInProgress (panel st)
    then requests (browser st') = requests (browser st)
         ∧ pending (browser st') = pending (browser st)
         ∧ controllers (browser st') = controllers (browser st)
    else (∀ c, c < length (controllers (browser st)) → aborted c st' = true)
         ∧ controllers (browser st') !! length (controllers (browser st)) = Some false
         ∧ length (controllers (browser st')) = S (length (controllers (browser st)))
         ∧ abortControllerRef (panel st') = Some (length (controllers (browser st)))
         ∧ req_signal (search_request rt query st) = length (controllers (browser st))
         ∧ requests (browser st') = requests (browser st) ++ [search_request rt query st]
         ∧ pending (browser st')
           = [mkPending (length (spans (browser st))) (search_request rt query st)]
         ∧ in_flight_live st'
           = [mkPending (length (spans (browser st))) (search_request rt query st)].
Proof.
  intros Hr Hi. pose proof (app_search_inv rt a Hr i st Hi) as Hinv.
  cbv zeta. split; [apply Hinv|]. split.
  { unfold in_flight_live. etrans; [apply length_filter|]. apply Hinv. }
  destruct (isSearchInProgress (panel st)) eqn:Hbusy.
  - by rewrite performSearch_busy.
  - unfold in_flight_live. rewrite performSearch_idle by done. red_ops.
    rewrite (search_inv_idle st Hinv Hbusy). unfold aborted. red_ops.
    assert (Hlen : length (controllers (browser (abortCurrent st)))
                   = length (controllers (browser st))).
    { rewrite controllers_abortCurrent.
      destruct (abortControllerRef (panel st)); by rewrite ?length_insert. }
    assert (Hnew : (controllers (browser (abortCurrent st)) ++ [false])
                     !! length (controllers (browser st)) = Some false).
    { rewrite lookup_app_r by lia. by rewrite Hlen, Nat.sub_diag. }
    split; [|split; [exact Hnew|split; [|split; [done|split; [done|split; [done|split; [done|]]]]]]].
    + intros c Hc. rewrite lookup_app_l by lia.
      destruct (lookup_lt_is_Some_2 (controllers (browser st)) c Hc) as [b Hb].
      rewrite controllers_abortCurrent.
      destruct (abortControllerRef (panel st)) as [c0|] eqn:Href.
      * destruct (decide (c0 = c)) as [->|Hne].
        -- by rewrite list_lookup_insert_eq.
        -- rewrite list_lookup_insert_ne, Hb by done. simpl.
           eapply (ok_old Hinv); [exact Hb|]. simpl. congruence.
      * rewrite Hb. simpl. eapply (ok_old Hinv); [exact Hb|]. simpl. congruence.
    + rewrite length_app, Hlen. simpl. lia.
    + cbn [app]. rewrite filter_cons_True; [done|].
      cbn [p_request req_signal search_request]. by rewrite Hnew.
Qed.

(** C9.  A search span is ended exactly once.  In every reachable state
    the span of a parked search has not been ended and every other span
    has been ended exactly once.  The span a call of [performSearch]
    starts is ended once when the call returns because a search is in
    progress, and is otherwise open, its search parked.  When the request
    of a parked search settles, however it settles, the span of that
    search goes from not ended to ended once and no search stays parked. *)
Theorem search_span_ended_once st :
  reachable rt st →
  (∀ i s, spans (browser st) !! i = Some s →
     ended s = if bool_decide (i ∈ p_span <$> pending (browser st)) then 0 else 1)
  ∧ (∀ query,
       let sp := length (spans (browser st)) in
       let st' := performSearch rt query st in
       if isSearchInProgress (panel st)
       then spans (browser st') = spans (browser st) ++ [skipped_span rt query]
            ∧ ended (skipped_span rt query) = 1
            ∧ pending (browser st') = pending (browser st)
       else spans (browser st') = spans (browser st) ++ [opened_span rt query]
            ∧ ended (opened_span rt query) = 0
            ∧ p_span <$> pending (browser st') = [sp])
  ∧ (∀ k p o d, pending (browser st) !! k = Some p →
       let st' := step rt (Settle k o d) st in
       ended <$> spans (browser st) !! p_span p = Some 0
       ∧ ended <$> spans (browser st') !! p_span p = Some 1
       ∧ length (spans (browser st')) = length (spans (browser st))
       ∧ pending (browser st') = []).
Proof.
  intros Hr. pose proof (reachable_search_inv rt st Hr) as Hinv.
  split; [|split].
  - intros i s Hs. apply (ok_ended Hinv). simpl. unfold ended_counts.
    by rewrite list_lookup_fmap, Hs.
  - intros query. cbv zeta. destruct (isSearchInProgress (panel st)) eqn:Hbusy.
    + by rewrite performSearch_busy.
    + rewrite performSearch_idle by done. red_ops.
      by rewrite (search_inv_idle st Hinv Hbusy).
  - intros k p o d Hk. cbv zeta.
    destruct (pending_single (pending (browser st)) _ _ (ok_pending_le Hinv) Hk) as [Hps ->].
    pose proof (ok_pending_span Hinv p) as Hlt. simpl in Hlt. rewrite Hps in Hlt.
    specialize (Hlt (list_elem_of_here _ _)).
    unfold ended_counts in Hlt. rewrite length_fmap in Hlt.
    destruct (lookup_lt_is_Some_2 _ _ Hlt) as [s Hs].
    assert (Hs0 : ended s = 0).
    { pose proof (ok_ended Hinv (p_span p) (ended s)) as He. simpl in He.
      unfold ended_counts in He. rewrite list_lookup_fmap, Hs, Hps in He.
      specialize (He eq_refl). simpl in He.
      by rewrite bool_decide_eq_true_2 in He by apply list_elem_of_here. }
    rewrite (step_settle rt 0 o d st p Hk).
    set (st0 := with_browser (λ b, set_pending (delete 0 (pending b)) b) st).
    pose proof (ended_counts_resume rt (p_span p) o d st0) as He.
    destruct (browser_resume rt (p_span p) o d st0) as (_ & _ & Hp' & Hl').
    split; [by rewrite Hs; simpl; rewrite Hs0|]. split; [|split].
    + rewrite <- list_lookup_fmap. fold (ended_counts (performSearch_resume rt (p_span p) o d st0)).
      rewrite He, list_lookup_alter_eq. unfold ended_counts, st0. red_ops.
      rewrite list_lookup_fmap, Hs. simpl. by rewrite Hs0.
    + rewrite Hl'. done.
    + rewrite Hp'. unfold st0. red_ops. by rewrite Hps.
Qed.

End Claims.

(** ** What a finished search does to the store *)

Section StoreFacts.
Variable rt : Runtime.

(** What the invariant says about a parked search. *)
Lemma search_inv_parked st k p :
  search_inv st → pending (browser st) !! k = Some p →
  pending (browser st) = [p] ∧ k = 0
  ∧ isSearchInProgress (panel st) = true
  ∧ ∃ s, spans (browser st) !! p_span p = Some s ∧ ended s = 0.
Proof.
  intros Hinv Hk.
  destruct (pending_single (pending (browser st)) _ _ (ok_pending_le Hinv) Hk)
    as [Hps ->].
  split; [done|]. split; [done|]. split.
  { pose proof (ok_busy Hinv) as Hb. simpl in Hb. rewrite Hb, Hps.
    by apply bool_decide_eq_true_2. }
  pose proof (ok_pending_span Hinv p) as Hlt. simpl in Hlt. rewrite Hps in Hlt.
  specialize (Hlt (list_elem_of_here _ _)).
  unfold ended_counts in Hlt. rewrite length_fmap in Hlt.
  destruct (lookup_lt_is_Some_2 _ _ Hlt) as [s Hs].
  exists s. split; [done|].
  pose proof (ok_ended Hinv (p_span p) (ended s)) as He. simpl in He.
  unfold ended_counts in He. rewrite list_lookup_fmap, Hs, Hps in He.
  specialize (He eq_refl). simpl in He.
  by rewrite bool_decide_eq_true_2 in He by apply list_elem_of_here.
Qed.

Lemma store_sendTranscriptAsMessage talk st :
  let s' := store (sendTranscriptAsMessage rt talk st) in
  talks s' = talks (store st) ∧ selectedTalk s' = selectedTalk (store st)
  ∧ isLoading s' = isLoading (store st) ∧ error s' = error (store st).
Proof. unfold sendTranscriptAsMessage. by destruct (decide _). Qed.

Lemma store_handleSearchResults d data st :
  let s' := store (handleSearchResults rt d data st) in
  talks s' = match data with
             | [] => []
             | first :: _ => reorderedTalks (randomTalk_of d first data) data
             end
  ∧ selectedTalk s' = match data with
                      | [] => selectedTalk (store st)
                      | first :: _ => Some (randomTalk_of d first data)
                      end
  ∧ isLoading s' = isLoading (store st) ∧ error s' = error (store st).
Proof.
  unfold handleSearchResults. destruct data as [|first data']; [done|].
  cbv zeta. cbn [store with_browser].
  destruct (store_sendTranscriptAsMessage (randomTalk_of d first (first :: data'))
              (dispatch (SetSelectedTalk (randomTalk_of d first (first :: data')))
                 (dispatch (SetTalks (reorderedTalks (randomTalk_of d first (first :: data'))
                                        (first :: data')))
                    (dispatch (SetTalks (first :: data')) st))))
    as (-> & -> & -> & ->).
  done.
Qed.

Lemma store_finally sp st :
  store (performSearch_finally sp st) = reducer (SetLoading false) (store st).
Proof. reflexivity. Qed.

Lemma store_catch sp e st :
  store (performSearch_catch sp e st)
  = if isCancel e then store st
    else reducer (SetApiError (Some "Error fetching talks.")) (store st).
Proof. unfold performSearch_catch. by destruct (isCancel e). Qed.

(** The loading flag is down after the search, and the error is the
    message of [performSearch] exactly when the search failed without
    having been cancelled. *)
Lemma api_resume sp o d st :
  let s' := store (performSearch_resume rt sp o d st) in
  isLoading s' = false
  ∧ error s' = if fails_uncancelled o then Some "Error fetching talks."
               else error (store st).
Proof.
  cbv zeta. rewrite performSearch_resume_eq, store_finally. split; [done|].
  cbn [error reducer]. unfold fails_uncancelled.
  destruct (try_result o) as [e|data].
  - rewrite store_catch. by destruct (isCancel e).
  - cbv zeta. destruct (isStrictMode (panel st)); [done|].
    by destruct (store_handleSearchResults d data
                   (setAttribute sp "search.results_count" (ANum (length data)) st))
      as (_ & _ & _ & ->).
Qed.

(** A search that ends in the [catch] block, or that ends while the
    strict-mode flag is up, commits nothing. *)
Lemma resume_commits_nothing sp o d st :
  isStrictMode (panel st) = true ∨ (∃ e, try_result o = inl e) →
  let st' := performSearch_resume rt sp o d st in
  talks (store st') = talks (store st)
  ∧ selectedTalk (store st') = selectedTalk (store st)
  ∧ messages (store st') = messages (store st)
  ∧ sentMessagesRef (panel st') = sentMessagesRef (panel st)
  ∧ lastSearchData (browser st') = lastSearchData (browser st).
Proof.
  intros Hcase. cbv zeta. rewrite performSearch_resume_eq.
  destruct (try_result o) as [e|data].
  - unfold performSearch_catch. by destruct (negb (isCancel e)).
  - destruct Hcase as [Hs|[e He]]; [|done]. cbv zeta. by rewrite Hs.
Qed.

End StoreFacts.

Section ClaimsOnOutcomes.
Variable rt : Runtime.

(** C5.  A cancelled search is ignored.  When the request of a parked
    search settles with a cancellation, the step dispatches nothing but
    [setLoading(false)]: no API error is dispatched and the error of the
    store stays cleared; the talk list, the selected talk, the chat
    message history, the sent set and the stored search data are left as
    they were; and the span of the search carries the attribute
    [search.cancelled] with value [true] and no recorded exception more
    than before. *)
Theorem cancelled_search_is_ignored st k p e d :
  reachable rt st →
  pending (browser st) !! k = Some p →
  isCancel e = true →
  let st' := step rt (Settle k (Rejected e) d) st in
  dispatched st' = dispatched st ++ [SetLoading false]
  ∧ error (store st') = None
  ∧ talks (store st') = talks (store st)
  ∧ selectedTalk (store st') = selectedTalk (store st)
  ∧ messages (store st') = messages (store st)
  ∧ sentMessagesRef (panel st') = sentMessagesRef (panel st)
  ∧ lastSearchData (browser st') = lastSearchData (browser st)
  ∧ ∃ s0, spans (browser st) !! p_span p = Some s0
          ∧ spans (browser st') !! p_span p
            = Some (mkSpan (span_name s0)
                      (attributes s0 ++ [("search.cancelled", ABool true)])
                      (exceptions s0) (S (ended s0))).
Proof.
  intros Hr Hk He. cbv zeta.
  pose proof (reachable_search_inv rt st Hr) as Hinv.
  destruct (search_inv_parked st k p Hinv Hk) as (Hps & -> & Hbusy & s0 & Hs0 & _).
  destruct (reachable_api rt st Hr Hbusy) as [_ Herr].
  rewrite (step_settle rt 0 (Rejected e) d st p Hk).
  unfold performSearch_resume, performSearch_try, performSearch_catch,
    performSearch_finally.
  rewrite He. cbn [negb]. red_ops. cbn [reducer error talks selectedTalk messages].
  repeat (split; [done|]).
  exists s0. split; [done|].
  rewrite list_lookup_alter_eq, list_lookup_alter_eq, Hs0. done.
Qed.

(** C6.  The loading and error flags across a search.  A call of
    [performSearch] that starts a search dispatches [setLoading(true)] and
    [setApiError(null)] and sends the request with the store loading and
    its error cleared; the store stays so while the search is in
    progress; and when the request settles, however it settles, the
    store is left not loading, its error being ['Error fetching talks.']
    if the search failed for another reason than a cancellation (the
    promise was rejected with something else, the status was not 200 or
    the body could not be read) and cleared otherwise. *)
Theorem performSearch_maintains_flags st :
  reachable rt st →
  (∀ query, isSearchInProgress (panel st) = false →
     let st' := performSearch rt query st in
     dispatched st' = dispatched st ++ [SetLoading true; SetApiError None]
     ∧ requests (browser st') = requests (browser st) ++ [search_request rt query st]
     ∧ isLoading (store st') = true ∧ error (store st') = None)
  ∧ (isSearchInProgress (panel st) = true →
     isLoading (store st) = true ∧ error (store st) = None)
  ∧ (∀ k p o d, pending (browser st) !! k = Some p →
       let st' := step rt (Settle k o d) st in
       isLoading (store st') = false
       ∧ error (store st')
         = if fails_uncancelled o then Some "Error fetching talks." else None).
Proof.
  intros Hr. split; [|split].
  - intros query Hidle. cbv zeta. by rewrite performSearch_idle.
  - by apply (reachable_api rt).
  - intros k p o d Hk. cbv zeta.
    pose proof (reachable_search_inv rt st Hr) as Hinv.
    destruct (search_inv_parked st k p Hinv Hk) as (Hps & -> & Hbusy & _).
    destruct (reachable_api rt st Hr Hbusy) as [_ Herr].
    rewrite (step_settle rt 0 o d st p Hk).
    destruct (api_resume rt (p_span p) o d
                (with_browser (λ b, set_pending (delete 0 (pending b)) b) st))
      as [-> ->].
    red_ops. by rewrite Herr.
Qed.

(** C7.  The strict-mode guard in development.  The first mount raises the
    strict-mode flag and starts no search.  In every reachable state the
    flag is up exactly when one mount has been counted.  While at most
    one mount has been counted, a request that settles leaves the talk
    list, the selected talk and the chat message history as they were.
    Once a later mount has been counted, a search that ends with results
    commits them: the talk list becomes the reordered results and the
    selected talk the talk drawn from them. *)
Theorem strict_mode_guard st :
  isDevelopment rt = true →
  reachable rt st →
  (isStrictMode (panel (step rt Mount (initial rt))) = true
   ∧ mountCounter (panel (step rt Mount (initial rt))) = 1
   ∧ requests (browser (step rt Mount (initial rt))) = [])
  ∧ (isStrictMode (panel st) = true ↔ mountCounter (panel st) = 1)
  ∧ (∀ k o d, mountCounter (panel st) ≤ 1 →
       let st' := step rt (Settle k o d) st in
       talks (store st') = talks (store st)
       ∧ selectedTalk (store st') = selectedTalk (store st)
       ∧ messages (store st') = messages (store st))
  ∧ (∀ k p o d first data, 2 ≤ mountCounter (panel st) →
       pending (browser st) !! k = Some p →
       try_result o = inr (first :: data) →
       let st' := step rt (Settle k o d) st in
       let randomTalk := randomTalk_of d first (first :: data) in
       talks (store st') = reorderedTalks randomTalk (first :: data)
       ∧ selectedTalk (store st') = Some randomTalk).
Proof.
  intros Hdev Hr. destruct (reachable_dev_inv rt Hdev st Hr) as (Hs & Hm & Hp).
  split; [|split; [|split]].
  - cbn [step]. unfold mountEffect. rewrite Hdev. done.
  - rewrite Hs. split; [apply bool_decide_eq_true_1 | apply bool_decide_eq_true_2].
  - intros k o d Hle. cbv zeta.
    destruct (pending (browser st) !! k) as [p|] eqn:Hk;
      [|by rewrite step_settle_none].
    rewrite (step_settle rt k o d st p Hk).
    destruct (decide (mountCounter (panel st) = 0)) as [Hz|Hnz].
    { rewrite (Hp Hz) in Hk. done. }
    assert (Hstrict : isStrictMode (panel st) = true).
    { rewrite Hs. apply bool_decide_eq_true_2. lia. }
    destruct (resume_commits_nothing rt (p_span p) o d
                (with_browser (λ b, set_pending (delete k (pending b)) b) st))
      as (-> & -> & -> & _); [by left|done].
  - intros k p o d first data Hge Hk Htry. cbv zeta.
    assert (Hstrict : isStrictMode (panel st) = false).
    { rewrite Hs. apply bool_decide_eq_false_2. lia. }
    rewrite (step_settle rt k o d st p Hk), performSearch_resume_eq, Htry.
    cbv zeta. red_ops. rewrite Hstrict, store_finally. cbn [talks selectedTalk reducer].
    by destruct (store_handleSearchResults rt d (first :: data)
                   (setAttribute (p_span p) "search.results_count"
                      (ANum (length (first :: data)))
                      (with_browser (λ b, set_pending (delete k (pending b)) b) st)))
      as (-> & -> & _).
Qed.

End ClaimsOnOutcomes.

(** C8.  Clearing the chat.  [handleClearChat] dispatches [clearMessages]
    and nothing else; afterwards the chat message history of the store is
    empty, while the talk list, the selected talk, the loading flag and the
    error of the store, and everything outside the store, are as before. *)
Theorem handleClearChat_clears_history (st : State) :
  dispatched (handleClearChat st) = dispatched st ++ [ClearMessages]
  ∧ messages (store (handleClearChat st)) = []
  ∧ talks (store (handleClearChat st)) = talks (store st)
  ∧ selectedTalk (store (handleClearChat st)) = selectedTalk (store st)
  ∧ isLoading (store (handleClearChat st)) = isLoading (store st)
  ∧ error (store (handleClearChat st)) = error (store st)
  ∧ panel (handleClearChat st) = panel st
  ∧ browser (handleClearChat st) = browser st.
Proof. unfold handleClearChat. red_ops. done. Qed.

(** ** Strings *)

Lemma string_app_assoc (a b c : string) : (a +:+ b) +:+ c = a +:+ (b +:+ c).
Proof.
  induction a as [|x a IH]; [done|].
  change (String x ((a +:+ b) +:+ c) = String x (a +:+ (b +:+ c))). by rewrite IH.
Qed.

Lemma string_app_empty_r (a : string) : a +:+ "" = a.
Proof.
  induction a as [|x a IH]; [done|].
  change (String x (a +:+ "") = String x a). by rewrite IH.
Qed.

Lemma contains_prefix (s post : string) : contains s (s +:+ post).
Proof. by exists "", post. Qed.

Lemma contains_app_r (s pre t : string) : contains s t → contains s (pre +:+ t).
Proof.
  intros (a & b & ->). exists (pre +:+ a), b. by rewrite string_app_assoc.
Qed.

Lemma contains_concat (sep x : string) (l : list string) :
  x ∈ l → contains x (String.concat sep l).
Proof.
  induction l as [|y l IH]; intros Hin; [by apply elem_of_nil in Hin|].
  destruct l as [|z l].
  - apply list_elem_of_singleton in Hin as ->. simpl.
    exists "", "". by rewrite string_app_empty_r.
  - apply elem_of_cons in Hin as [->|Hin].
    + apply contains_prefix.
    + change (String.concat sep (y :: z :: l))
        with (y +:+ sep +:+ String.concat sep (z :: l)).
      apply contains_app_r, contains_app_r. by apply IH.
Qed.

Lemma filter_all {A} (P : A → Prop) `{∀ x, Decision (P x)} (l : list A) :
  Forall P l → filter P l = l.
Proof.
  induction 1 as [|x l Hx _ IH]; [done|].
  rewrite filter_cons_True by done. by rewrite IH.
Qed.

(** ** Forwarding the selected talk to the chat *)

Section Forwarding.
Variable rt : Runtime.

Lemma randomTalk_of_elem d first data' :
  randomTalk_of d first (first :: data') ∈ first :: data'.
Proof.
  unfold randomTalk_of.
  destruct ((first :: data') !! floor_mul d (length (first :: data'))) as [x|] eqn:Hx.
  - simpl. by eapply list_elem_of_lookup_2.
  - apply list_elem_of_here.
Qed.

Lemma dispatched_sendTranscriptAsMessage talk st :
  dispatched (sendTranscriptAsMessage rt talk st)
  = dispatched st
    ++ if decide (title talk ∈ sentMessagesRef (panel st)) then []
       else [SendMessage (PayloadMessage (transcript_message rt talk))].
Proof.
  unfold sendTranscriptAsMessage. destruct (decide _); [by rewrite app_nil_r | done].
Qed.

Lemma dispatched_handleSearchResults d first data' st :
  let data := first :: data' in
  let talk := randomTalk_of d first data in
  dispatched (handleSearchResults rt d data st)
  = dispatched st
    ++ [SetTalks data; SetTalks (reorderedTalks talk data); SetSelectedTalk talk]
    ++ if decide (title talk ∈ sentMessagesRef (panel st)) then []
       else [SendMessage (PayloadMessage (transcript_message rt talk))].
Proof.
  cbv zeta. unfold handleSearchResults. cbn [dispatched with_browser].
  rewrite dispatched_sendTranscriptAsMessage. red_ops.
  by rewrite <- !app_assoc.
Qed.

(** C10.  One transcript message per title.  After
    [sendTranscriptAsMessage] has run for a talk, its title is in the sent
    set and a further call for a talk of the same title changes nothing;
    the call itself dispatches one message if the title was not in the
    sent set and nothing if it was.  In every reachable state the
    transcript messages dispatched so far are those of talks with
    pairwise different titles, exactly the titles in the sent set. *)
Theorem transcript_sent_once_per_title st talk talk' :
  reachable rt st →
  title talk' = title talk →
  let st1 := sendTranscriptAsMessage rt talk st in
  sendTranscriptAsMessage rt talk' st1 = st1
  ∧ title talk ∈ sentMessagesRef (panel st1)
  ∧ dispatched st1
    = dispatched st
      ++ (if decide (title talk ∈ sentMessagesRef (panel st)) then []
          else [SendMessage (PayloadMessage (transcript_message rt talk))])
  ∧ messages (store st1)
    = messages (store st)
      ++ (if decide (title talk ∈ sentMessagesRef (panel st)) then []
          else [PayloadMessage (transcript_message rt talk)])
  ∧ ∃ ts : list Talk,
      NoDup (title <$> ts)
      ∧ transcript_messages (dispatched st) = transcript_message rt <$> ts
      ∧ sentMessagesRef (panel st) = list_to_set (title <$> ts).
Proof.
  intros Hr Ht. cbv zeta.
  assert (Hin : title talk ∈ sentMessagesRef (panel (sendTranscriptAsMessage rt talk st))).
  { unfold sendTranscriptAsMessage. destruct (decide _) as [Hin|Hin]; [done|].
    red_ops. apply elem_of_union_l. by apply elem_of_singleton. }
  split; [|split; [done|split; [|split]]].
  - apply sendTranscriptAsMessage_sent. by rewrite Ht.
  - apply dispatched_sendTranscriptAsMessage.
  - unfold sendTranscriptAsMessage. destruct (decide _); [by rewrite app_nil_r | done].
  - by apply reachable_sent_ok.
Qed.

(** C4, as the code has it.  For a result list that is not empty,
    [handleSearchResults] draws a talk of the list and dispatches, in this
    order, the list, the reordered list and the selected talk, followed by
    one bot message when the title of the drawn talk is not in the sent
    set, and by nothing when it is.  The persona of the message is the
    display name of the presenter, its role and sender are ['bot'], it is
    not hidden, and its text contains the transcript of the talk, its
    title and the title of each of its SDG tags. *)
Theorem handleSearchResults_forwards_unsent st d first data' :
  let data := first :: data' in
  let talk := randomTalk_of d first data in
  let m := transcript_message rt talk in
  talk ∈ data
  ∧ drop (length (dispatched st)) (dispatched (handleSearchResults rt d data st))
    = [SetTalks data; SetTalks (reorderedTalks talk data); SetSelectedTalk talk]
      ++ (if decide (title talk ∈ sentMessagesRef (panel st)) then []
          else [SendMessage (PayloadMessage m)])
  ∧ persona m = presenterDisplayName talk
  ∧ role m = "bot" ∧ sender m = "bot" ∧ hidden m = false
  ∧ text m = transcript talk +:+ " —— " +:+ title talk +:+ LF +:+ LF
             +:+ String.concat ", " (sdgTitle rt <$> sdg_tags talk)
  ∧ contains (transcript talk) (text m)
  ∧ contains (title talk) (text m)
  ∧ ∀ tag, tag ∈ sdg_tags talk → contains (sdgTitle rt tag) (text m).
Proof.
  cbv zeta. split; [apply randomTalk_of_elem|]. split.
  { rewrite dispatched_handleSearchResults. by rewrite drop_app_length. }
  repeat (split; [done|]). cbn [text transcript_message]. unfold message_text.
  split; [apply contains_prefix|]. split.
  - apply contains_app_r, contains_app_r, contains_prefix.
  - intros tag Htag. do 5 apply contains_app_r.
    apply contains_concat. unfold getSdgTitles. by apply list_elem_of_fmap_2.
Qed.

(** Moving the selected talk to the top keeps every talk when no other
    talk of the list has the title of the selected one. *)
Lemma reorderedTalks_permutation (talk : Talk) (data : list Talk) :
  NoDup (title <$> data) → talk ∈ data → reorderedTalks talk data ≡ₚ data.
Proof.
  unfold reorderedTalks. induction data as [|x data IH]; intros Hnd Hin.
  { by apply elem_of_nil in Hin. }
  rewrite fmap_cons in Hnd. apply NoDup_cons in Hnd as [Hx Hnd].
  apply elem_of_cons in Hin as [->|Hin].
  - rewrite filter_cons_False by (intros H; by apply H).
    f_equiv. rewrite filter_all; [done|].
    apply Forall_forall. intros y Hy Heq. apply Hx. rewrite <- Heq.
    by apply list_elem_of_fmap_2.
  - rewrite filter_cons_True.
    + rewrite Permutation_swap. f_equiv. by apply IH.
    + intros Heq. apply Hx. rewrite Heq. by apply list_elem_of_fmap_2.
Qed.

End Forwarding.

(** ** Searches and the clock *)

Section Clock.
Variable rt : Runtime.

Lemma run_cons ev evs st : run rt (ev :: evs) st = run rt evs (step rt ev st).
Proof. reflexivity. Qed.

Lemma possible_reachable evs st :
  reachable rt st → possible rt evs st = true → reachable rt (run rt evs st).
Proof.
  revert st. induction evs as [|ev evs IH]; intros st Hr Hp; [done|].
  simpl in Hp. apply andb_true_iff in Hp as [Hen Hp].
  rewrite run_cons. apply IH; [by apply reachable_step | done].
Qed.

Lemma valid_trace_possible tr now st :
  valid_trace rt tr now st = true → possible rt (tr.*2) st = true.
Proof.
  revert now st. induction tr as [|[t ev] tr IH]; intros now st Hv; [done|].
  simpl in Hv. apply andb_true_iff in Hv as [Hv Hrest].
  apply andb_true_iff in Hv as [_ Hen].
  unfold enabled_at in Hen. apply andb_true_iff in Hen as [Hen _].
  simpl. rewrite Hen. simpl. by eapply IH.
Qed.

Lemma possible_lookup evs st i ev :
  possible rt evs st = true → evs !! i = Some ev →
  possible rt (take i evs) st = true ∧ enabled rt ev (run rt (take i evs) st) = true.
Proof.
  revert st i. induction evs as [|ev0 evs IH]; intros st i Hp Hi; [done|].
  simpl in Hp. apply andb_true_iff in Hp as [Hen Hp].
  destruct i as [|i]; simpl in Hi.
  - injection Hi as ->. done.
  - destruct (IH _ _ Hp Hi) as [Hp' Hen']. simpl. rewrite Hen. done.
Qed.

(** Every state a valid trace goes through is reachable, and the event
    that happens in it is enabled. *)
Lemma valid_trace_state_at tr i t ev :
  valid_trace rt tr 0 (initial rt) = true → tr !! i = Some (t, ev) →
  reachable rt (state_at rt tr i) ∧ enabled rt ev (state_at rt tr i) = true.
Proof.
  intros Hv Hi. apply valid_trace_possible in Hv.
  assert (Hi' : tr.*2 !! i = Some ev) by (by rewrite list_lookup_fmap, Hi).
  destruct (possible_lookup _ _ _ _ Hv Hi') as [Hp Hen].
  unfold state_at. rewrite fmap_take. split; [|done].
  apply possible_reachable; [apply reachable_initial | done].
Qed.

(** X22.  No handler calls the debounce wrapper.  In a valid trace the
    wrapper built around [performSearch] is never holding a call, so its
    timer never fires; a trigger (Enter in the input, a click on Search)
    calls [performSearch] in its own step: the request goes out at the time
    of the trigger when no search is in progress, and no request goes out
    when one is; changing the text of the input sends no request. *)
Theorem searches_start_at_once tr i t ev :
  valid_trace rt tr 0 (initial rt) = true →
  tr !! i = Some (t, ev) →
  let st := state_at rt tr i in
  debounceTimer (panel st) = None
  ∧ ev ≠ TimerFires
  ∧ (is_trigger ev = true →
     step rt ev st = performSearch rt (searchQuery (panel st)) st
     ∧ issues_at rt tr i ev
       = if isSearchInProgress (panel st) then []
         else [search_request rt (searchQuery (panel st)) st])
  ∧ (∀ q, ev = ChangeQuery q → issues_at rt tr i ev = []).
Proof.
  intros Hv Hi. cbv zeta.
  destruct (valid_trace_state_at tr i t ev Hv Hi) as [Hr Hen].
  pose proof (reachable_timer rt _ Hr) as Htimer.
  split; [done|]. split; [|split].
  - intros ->. cbn [enabled] in Hen. rewrite Htimer in Hen.
    apply bool_decide_eq_true in Hen. by destruct Hen.
  - intros Htrig.
    assert (Hstep : step rt ev (state_at rt tr i)
                    = performSearch rt (searchQuery (panel (state_at rt tr i)))
                        (state_at rt tr i)).
    { destruct ev; try done. cbn [step is_trigger] in *. unfold onKeyDown.
      apply bool_decide_eq_true in Htrig. by rewrite decide_True. }
    split; [done|]. unfold issues_at. rewrite Hstep, requests_performSearch.
    destruct (isSearchInProgress (panel (state_at rt tr i))).
    + by rewrite drop_all.
    + by rewrite drop_app_length.
  - intros q ->. unfold issues_at. cbn [step]. red_ops. by rewrite drop_all.
Qed.

End Clock.

(** ** Examples *)

Lemma sample_trace_valid : valid_trace production sample_trace 0 (initial production) = true.
Proof. vm_compute. reflexivity. Qed.

Lemma after_mount_reachable : reachable production after_mount.
Proof. apply reachable_step; [apply reachable_initial | reflexivity]. Qed.

Lemma before_second_result_reachable : reachable production before_second_result.
Proof.
  eapply (valid_trace_state_at production sample_trace 3);
    [exact sample_trace_valid | reflexivity].
Qed.

Lemma aborted_search_reachable : reachable development aborted_search.
Proof. apply possible_reachable; [apply reachable_initial | vm_compute; reflexivity]. Qed.

Lemma guarded_search_reachable : reachable development guarded_search.
Proof. apply possible_reachable; [apply reachable_initial | vm_compute; reflexivity]. Qed.

Lemma second_mount_reachable : reachable development second_mount.
Proof. apply possible_reachable; [apply reachable_initial | vm_compute; reflexivity]. Qed.

Lemma app_possible_reachable rt es a :
  app_reachable rt a → app_possible rt es a = true → app_reachable rt (app_run rt es a).
Proof.
  revert a. induction es as [|e es IH]; intros a Hr Hp; [done|].
  simpl in Hp. apply andb_true_iff in Hp as [Hen Hp].
  apply (IH (app_step rt e a)); [by apply app_reachable_step | done].
Qed.

Lemma remounted_reachable : app_reachable production remounted.
Proof.
  apply app_possible_reachable; [apply app_reachable_initial | vm_compute; reflexivity].
Qed.

Lemma first_talk_sent_reachable : app_reachable production first_talk_sent.
Proof.
  apply app_possible_reachable; [apply app_reachable_initial | vm_compute; reflexivity].
Qed.

(** C1 as stated fails.  In production the cleanup of the mount effect
    does not abort the request.  When the panel is unmounted while its
    first search is parked and the panel is mounted again, the new instance
    has refs of its own and starts its first search: two requests are in
    flight, neither of them aborted. *)
Lemma unmounted_search_stays_in_flight :
  app_possible production remount_trace (app_initial production) = true
  ∧ app_reachable production remounted
  ∧ app_in_flight_live remounted
    = [(0, mkPending 0 (search_request production "TED" (initial production)));
       (1, mkPending 0 (search_request production "TED" (initial production)))]
  ∧ (∀ inst, inst ∈ app_instances remounted →
             controllers (inst_browser inst) = [false])
  ∧ ¬ (∀ a, app_reachable production a → length (app_in_flight_live a) ≤ 1).
Proof.
  assert (Hlive : app_in_flight_live remounted
    = [(0, mkPending 0 (search_request production "TED" (initial production)));
       (1, mkPending 0 (search_request production "TED" (initial production)))])
    by (vm_compute; reflexivity).
  split; [vm_compute; reflexivity|]. split; [exact remounted_reachable|].
  split; [exact Hlive|]. split.
  - intros inst Hin.
    repeat (apply elem_of_cons in Hin as [->|Hin]; [vm_compute; reflexivity|]).
    by apply elem_of_nil in Hin.
  - intros Hall. specialize (Hall remounted remounted_reachable).
    rewrite Hlive in Hall. simpl in Hall. lia.
Qed.

(** C3.  The searches of the user are not debounced.  The component
    builds a 500 ms debounce wrapper around [performSearch] and cancels it
    in the cleanup of the mount effect, but its handlers call
    [performSearch] itself.  In the sample trace, which is valid, the
    request of the search asked for by Enter at 1000 ms goes out at 1000 ms,
    and the click at 1200 ms sends a second request 200 ms after the
    first. *)
Lemma searches_are_not_debounced :
  valid_trace production sample_trace 0 (initial production) = true
  ∧ ¬ debounced production sample_trace
  ∧ ¬ one_request_per_window production sample_trace
  ∧ ¬ debounce_claim production.
Proof.
  assert (H2 : issues_at production sample_trace 2 (KeyDown "Enter") ≠ [])
    by (vm_compute; discriminate).
  assert (H4 : issues_at production sample_trace 4 ClickSearch ≠ [])
    by (vm_compute; discriminate).
  assert (Hd : ¬ debounced production sample_trace).
  { intros H.
    specialize (H 2 1000 (KeyDown "Enter") eq_refl eq_refl H2
                  2 1000 (KeyDown "Enter") (le_n 2) eq_refl eq_refl). lia. }
  assert (Ho : ¬ one_request_per_window production sample_trace).
  { intros H.
    specialize (H 2 1000 (KeyDown "Enter") 4 1200 ClickSearch).
    assert (Hlt : 2 < 4) by lia.
    specialize (H Hlt eq_refl eq_refl eq_refl eq_refl H2 H4). lia. }
  split; [exact sample_trace_valid|]. split; [exact Hd|]. split; [exact Ho|].
  intros H. destruct (H sample_trace sample_trace_valid) as [Hd' _]. exact (Hd Hd').
Qed.

(** C2 fails on a result list in which two talks have the same title.  In
    production the first search returns three talks, of which the first two
    have the title "a b"; the first is drawn.  The stored list has two
    talks: the second talk of the results is gone, so the stored list is
    not a permutation of the results. *)
Lemma same_title_talk_is_dropped :
  try_result (sample_response sample_hits) = inr sample_data
  ∧ talks (store (step production (Settle 0 (sample_response sample_hits) (mkDraw 0 0))
                    after_mount))
    = [sample_talk "Ada" "a_b"; sample_talk "Cy" "c_d"]
  ∧ talks (store (handleSearchResults production (mkDraw 0 0) sample_data after_mount))
    = [sample_talk "Ada" "a_b"; sample_talk "Cy" "c_d"]
  ∧ selectedTalk (store (step production (Settle 0 (sample_response sample_hits) (mkDraw 0 0))
                           after_mount))
    = Some (sample_talk "Ada" "a_b")
  ∧ ¬ talks (store (step production (Settle 0 (sample_response sample_hits) (mkDraw 0 0))
                      after_mount))
      ≡ₚ sample_data.
Proof.
  assert (Htalks :
    talks (store (step production (Settle 0 (sample_response sample_hits) (mkDraw 0 0))
                    after_mount))
    = [sample_talk "Ada" "a_b"; sample_talk "Cy" "c_d"]) by (vm_compute; reflexivity).
  split; [vm_compute; reflexivity|]. split; [exact Htalks|].
  split; [vm_compute; reflexivity|]. split; [vm_compute; reflexivity|].
  rewrite Htalks. intros Hperm. apply Permutation_length in Hperm. discriminate Hperm.
Qed.

(** C4 as stated fails.  In the sample trace the second search returns the
    talk the first search returned.  The state in which its request settles
    is reachable and the strict-mode flag is down; [handleSearchResults]
    runs on a list of one talk, and neither it nor the whole step
    dispatches a message: the chat message history stays as it was. *)
Lemma repeated_talk_is_not_forwarded :
  reachable production before_second_result
  ∧ try_result (sample_response [("Ada", "a_b")]) = inr [sample_talk "Ada" "a_b"]
  ∧ isStrictMode (panel before_second_result) = false
  ∧ drop (length (dispatched before_second_result))
      (dispatched (step production (Settle 0 (sample_response [("Ada", "a_b")]) (mkDraw 0 0))
                     before_second_result))
    = [SetTalks [sample_talk "Ada" "a_b"]; SetTalks [sample_talk "Ada" "a_b"];
       SetSelectedTalk (sample_talk "Ada" "a_b"); SetLoading false]
  ∧ messages (store (step production
                       (Settle 0 (sample_response [("Ada", "a_b")]) (mkDraw 0 0))
                       before_second_result))
    = messages (store before_second_result)
  ∧ ¬ (∃ m, SendMessage (PayloadMessage m)
            ∈ drop (length (dispatched before_second_result))
                (dispatched (step production
                               (Settle 0 (sample_response [("Ada", "a_b")]) (mkDraw 0 0))
                               before_second_result)))
  ∧ ¬ (∃ m, SendMessage (PayloadMessage m)
            ∈ drop (length (dispatched before_second_result))
                (dispatched (handleSearchResults production (mkDraw 0 0)
                               [sample_talk "Ada" "a_b"] before_second_result))).
Proof.
  assert (Hnew :
    drop (length (dispatched before_second_result))
      (dispatched (step production (Settle 0 (sample_response [("Ada", "a_b")]) (mkDraw 0 0))
                     before_second_result))
    = [SetTalks [sample_talk "Ada" "a_b"]; SetTalks [sample_talk "Ada" "a_b"];
       SetSelectedTalk (sample_talk "Ada" "a_b"); SetLoading false])
    by (vm_compute; reflexivity).
  assert (Hfun :
    drop (length (dispatched before_second_result))
      (dispatched (handleSearchResults production (mkDraw 0 0)
                     [sample_talk "Ada" "a_b"] before_second_result))
    = [SetTalks [sample_talk "Ada" "a_b"]; SetTalks [sample_talk "Ada" "a_b"];
       SetSelectedTalk (sample_talk "Ada" "a_b")])
    by (vm_compute; reflexivity).
  split; [exact before_second_result_reachable|].
  split; [vm_compute; reflexivity|]. split; [vm_compute; reflexivity|].
  split; [exact Hnew|]. split; [vm_compute; reflexivity|]. split.
  - rewrite Hnew. intros [m Hm].
    repeat (apply elem_of_cons in Hm as [Hm|Hm]; [discriminate Hm|]).
    by apply elem_of_nil in Hm.
  - rewrite Hfun. intros [m Hm].
    repeat (apply elem_of_cons in Hm as [Hm|Hm]; [discriminate Hm|]).
    by apply elem_of_nil in Hm.
Qed.

(** ** The theorems at work *)

(** The page after the panel has been mounted again: the search of the
    first instance is still parked, and a call of [performSearch] on that
    instance sends nothing.  The page after the first search has ended: a
    call of [performSearch] aborts the controller of the first search and
    sends a request on the signal of a new one. *)
Lemma performSearch_one_in_flight_witness :
  (app_reachable production remounted
   ∧ ∃ st, instance 0 remounted = Some st
           ∧ isSearchInProgress (panel st) = true
           ∧ length (pending (browser st)) ≤ 1
           ∧ requests (browser (performSearch production "ted" st)) = requests (browser st))
  ∧ (app_reachable production first_talk_sent
     ∧ ∃ st, instance 0 first_talk_sent = Some st
             ∧ isSearchInProgress (panel st) = false
             ∧ controllers (browser st) = [false]
             ∧ (∀ c, c < 1 → aborted c (performSearch production "sdg" st) = true)
             ∧ controllers (browser (performSearch production "sdg" st)) !! 1 = Some false
             ∧ abortControllerRef (panel (performSearch production "sdg" st)) = Some 1
             ∧ in_flight_live (performSearch production "sdg" st)
               = [mkPending 1 (search_request production "sdg" st)]).
Proof.
  split.
  - split; [exact remounted_reachable|].
    eexists. split; [reflexivity|]. split; [vm_compute; reflexivity|].
    pose proof (performSearch_one_in_flight production remounted 0 _ "ted"
                  remounted_reachable eq_refl) as H.
    split; [exact (proj1 H)|]. exact (proj1 (proj2 (proj2 H))).
  - split; [exact first_talk_sent_reachable|].
    eexists. split; [reflexivity|]. split; [vm_compute; reflexivity|].
    split; [vm_compute; reflexivity|].
    pose proof (proj2 (proj2 (performSearch_one_in_flight production first_talk_sent 0 _
                                "sdg" first_talk_sent_reachable eq_refl))) as H.
    split; [exact (proj1 H)|]. split; [exact (proj1 (proj2 H))|].
    split; [exact (proj1 (proj2 (proj2 (proj2 H))))|].
    exact (proj2 (proj2 (proj2 (proj2 (proj2 (proj2 (proj2 H))))))).
Defined.

Lemma search_span_ended_once_witness :
  reachable production after_mount
  ∧ ∀ i s, spans (browser after_mount) !! i = Some s →
           ended s = if bool_decide (i ∈ p_span <$> pending (browser after_mount))
                     then 0 else 1.
Proof.
  split; [exact after_mount_reachable|].
  exact (proj1 (search_span_ended_once production after_mount after_mount_reachable)).
Defined.

Lemma cancelled_search_is_ignored_witness :
  reachable development aborted_search
  ∧ pending (browser aborted_search) !! 0
    = Some (mkPending 0 (search_request development "TED" (initial development)))
  ∧ aborted 0 aborted_search = true
  ∧ enabled development (Settle 0 (Rejected CanceledError) (mkDraw 0 0)) aborted_search = true
  ∧ isCancel CanceledError = true
  ∧ dispatched (step development (Settle 0 (Rejected CanceledError) (mkDraw 0 0))
                  aborted_search)
    = dispatched aborted_search ++ [SetLoading false].
Proof.
  assert (Hk : pending (browser aborted_search) !! 0
               = Some (mkPending 0 (search_request development "TED" (initial development))))
    by (vm_compute; reflexivity).
  split; [exact aborted_search_reachable|]. split; [exact Hk|].
  split; [vm_compute; reflexivity|]. split; [vm_compute; reflexivity|].
  split; [reflexivity|].
  exact (proj1 (cancelled_search_is_ignored development aborted_search 0 _ CanceledError
                  (mkDraw 0 0) aborted_search_reachable Hk eq_refl)).
Defined.

Lemma performSearch_maintains_flags_witness :
  reachable production after_mount
  ∧ isSearchInProgress (panel after_mount) = true
  ∧ isLoading (store after_mount) = true ∧ error (store after_mount) = None.
Proof.
  split; [exact after_mount_reachable|]. split; [vm_compute; reflexivity|].
  apply (proj1 (proj2 (performSearch_maintains_flags production after_mount
                         after_mount_reachable))).
  vm_compute; reflexivity.
Defined.

(** The guard at work: a search asked for during the first mount gets its
    talk and commits nothing; the search of the second mount gets the same
    talk and commits it. *)
Lemma strict_mode_guard_witness :
  isDevelopment development = true
  ∧ (reachable development guarded_search
     ∧ mountCounter (panel guarded_search) = 1
     ∧ pending (browser guarded_search) !! 0
       = Some (mkPending 0 (search_request development "TED" (initial development)))
     ∧ enabled development (Settle 0 (sample_response [("Ada", "a_b")]) (mkDraw 0 0))
         guarded_search = true
     ∧ talks (store (step development
                       (Settle 0 (sample_response [("Ada", "a_b")]) (mkDraw 0 0))
                       guarded_search)) = talks (store guarded_search)
     ∧ selectedTalk (store (step development
                              (Settle 0 (sample_response [("Ada", "a_b")]) (mkDraw 0 0))
                              guarded_search)) = selectedTalk (store guarded_search)
     ∧ messages (store (step development
                          (Settle 0 (sample_response [("Ada", "a_b")]) (mkDraw 0 0))
                          guarded_search)) = messages (store guarded_search))
  ∧ (reachable development second_mount
     ∧ mountCounter (panel second_mount) = 2
     ∧ pending (browser second_mount) !! 0
       = Some (mkPending 0 (search_request development "TED" (initial development)))
     ∧ try_result (sample_response [("Ada", "a_b")]) = inr [sample_talk "Ada" "a_b"]
     ∧ talks (store (step development
                       (Settle 0 (sample_response [("Ada", "a_b")]) (mkDraw 0 0))
                       second_mount)) = [sample_talk "Ada" "a_b"]
     ∧ selectedTalk (store (step development
                              (Settle 0 (sample_response [("Ada", "a_b")]) (mkDraw 0 0))
                              second_mount)) = Some (sample_talk "Ada" "a_b")).
Proof.
  assert (Hc1 : mountCounter (panel guarded_search) = 1) by (vm_compute; reflexivity).
  assert (Hc2 : mountCounter (panel second_mount) = 2) by (vm_compute; reflexivity).
  assert (Hk : pending (browser second_mount) !! 0
               = Some (mkPending 0 (search_request development "TED" (initial development))))
    by (vm_compute; reflexivity).
  assert (Hge : 2 ≤ mountCounter (panel second_mount)) by (rewrite Hc2; lia).
  assert (Hle : mountCounter (panel guarded_search) ≤ 1) by (rewrite Hc1; lia).
  split; [reflexivity|]. split.
  - split; [exact guarded_search_reachable|]. split; [exact Hc1|].
    split; [vm_compute; reflexivity|]. split; [vm_compute; reflexivity|].
    exact (proj1 (proj2 (proj2 (strict_mode_guard development guarded_search eq_refl
                                  guarded_search_reachable)))
             0 (sample_response [("Ada", "a_b")]) (mkDraw 0 0) Hle).
  - split; [exact second_mount_reachable|]. split; [exact Hc2|]. split; [exact Hk|].
    split; [reflexivity|].
    exact (proj2 (proj2 (proj2 (strict_mode_guard development second_mount eq_refl
                                  second_mount_reachable)))
             0 _ (sample_response [("Ada", "a_b")]) (mkDraw 0 0)
             (sample_talk "Ada" "a_b") [] Hge Hk eq_refl).
Defined.

Lemma transcript_sent_once_per_title_witness :
  reachable production (initial production)
  ∧ title (sample_talk "Bob" "a_b") = title (sample_talk "Ada" "a_b")
  ∧ sendTranscriptAsMessage production (sample_talk "Bob" "a_b")
      (sendTranscriptAsMessage production (sample_talk "Ada" "a_b") (initial production))
    = sendTranscriptAsMessage production (sample_talk "Ada" "a_b") (initial production).
Proof.
  split; [apply reachable_initial|]. split; [reflexivity|].
  exact (proj1 (transcript_sent_once_per_title production (initial production)
                  (sample_talk "Ada" "a_b") (sample_talk "Bob" "a_b")
                  (reachable_initial production) eq_refl)).
Defined.

(** The Enter of the sample trace: its request goes out in its own step. *)
Lemma searches_start_at_once_witness :
  valid_trace production sample_trace 0 (initial production) = true
  ∧ sample_trace !! 2 = Some (1000, KeyDown "Enter")
  ∧ is_trigger (KeyDown "Enter") = true
  ∧ issues_at production sample_trace 2 (KeyDown "Enter")
    = if isSearchInProgress (panel (state_at production sample_trace 2)) then []
      else [search_request production (searchQuery (panel (state_at production sample_trace 2)))
              (state_at production sample_trace 2)].
Proof.
  split; [exact sample_trace_valid|]. split; [reflexivity|]. split; [reflexivity|].
  exact (proj2 (proj1 (proj2 (proj2 (searches_start_at_once production
                                       sample_trace 2 1000 (KeyDown "Enter")
                                       sample_trace_valid eq_refl))) eq_refl)).
Defined.


(** * Further properties *)

(** ** Slugs, titles and the talks read from a response *)

(** X1.  [slug.replace(/_/g, ' ')] replaces every underscore: the result
    has the length of the slug and no underscore, a position holds a space
    where the slug has an underscore and the character of the slug
    everywhere else, and replacing again changes nothing. *)
Theorem replace_underscores_all (s : string) :
  String.length (replace_underscores s) = String.length s
  ∧ occurs "_" (replace_underscores s) = false
  ∧ (∀ i c, String.get i s = Some c →
       String.get i (replace_underscores s)
       = Some (if Ascii.eqb c "_" then " "%char else c))
  ∧ replace_underscores (replace_underscores s) = replace_underscores s.
Proof.
  induction s as [|x s (IHlen & IHocc & IHget & IHidem)].
  { by repeat split. }
  simpl. split; [by rewrite IHlen|]. split; [|split].
  - rewrite IHocc, orb_false_r. by destruct (Ascii.eqb x "_") eqn:E.
  - intros [|i] c; simpl; [by intros [= ->] | apply IHget].
  - rewrite IHidem. f_equal. destruct (Ascii.eqb x "_") eqn:E; [done|]. by rewrite E.
Qed.

Lemma replace_underscores_inj (s1 s2 : string) :
  occurs " " s1 = false → occurs " " s2 = false →
  replace_underscores s1 = replace_underscores s2 → s1 = s2.
Proof.
  revert s2. induction s1 as [|x s1 IH]; intros [|y s2]; simpl; try done.
  rewrite !orb_false_iff. intros [Hx H1] [Hy H2] [= Hc Hs].
  f_equal; [|by apply IH].
  destruct (Ascii.eqb_spec x "_") as [->|], (Ascii.eqb_spec y "_") as [->|];
    try done; subst.
  - by rewrite Ascii.eqb_refl in Hy.
  - by rewrite Ascii.eqb_refl in Hx.
Qed.

(** X2.  The title identifies the talk when slugs have no space: two
    documents whose slugs are free of spaces and that are read as talks of
    the same title have the same slug, so the talks have the same URL. *)
Theorem same_title_same_talk (d1 d2 : Document) (slug1 slug2 : string) (t1 t2 : Talk) :
  doc_slug d1 = Some slug1 → doc_slug d2 = Some slug2 →
  occurs " " slug1 = false → occurs " " slug2 = false →
  toTalk d1 = Some t1 → toTalk d2 = Some t2 →
  title t1 = title t2 →
  slug1 = slug2 ∧ url t1 = url t2.
Proof.
  unfold toTalk. intros -> -> H1 H2 [= <-] [= <-]. simpl. intros Ht.
  apply replace_underscores_inj in Ht; [|done..]. by subst.
Qed.

(** X3.  The response is read all or nothing.  The [try] block gets a list
    of talks exactly when the status is 200, the body has results and every
    document has a slug; the talks are then the documents read one by one,
    in the order of the results, so there are as many talks as results.
    With status 200, one document without a slug (or a body without
    results) makes the block throw a [TypeError], whatever the other
    documents hold. *)
Theorem response_read_all_or_nothing (r : Response) :
  ((∃ data, try_result (Resolved r) = inr data)
   ↔ status r = 200
     ∧ ∃ docs, results r = Some docs ∧ Forall (λ d, is_Some (doc_slug d)) docs)
  ∧ (∀ data, try_result (Resolved r) = inr data →
       ∃ docs, results r = Some docs
               ∧ Forall2 (λ d t, toTalk d = Some t) docs data
               ∧ length data = length docs)
  ∧ (status r = 200 →
     (try_result (Resolved r) = inl TypeError
      ↔ results r = None
        ∨ ∃ docs, results r = Some docs ∧ Exists (λ d, doc_slug d = None) docs)).
Proof.
  assert (HtoTalk : ∀ d, is_Some (toTalk d) ↔ is_Some (doc_slug d)).
  { intros d. unfold toTalk. destruct (doc_slug d); split; intros [? ?]; by eauto. }
  assert (Hall : ∀ docs, is_Some (mapM toTalk docs)
                         ↔ Forall (λ d, is_Some (doc_slug d)) docs).
  { intros docs. rewrite mapM_is_Some. apply Forall_proper; [|done]. intros d. apply HtoTalk. }
  unfold try_result. split; [|split].
  - split.
    + intros [data Hd]. destruct (decide (status r ≠ 200)) as [|Hs]; [done|].
      split; [by apply dec_stable|].
      destruct (results r) as [docs|]; [|done]. simpl in Hd.
      exists docs. split; [done|]. apply Hall.
      destruct (mapM toTalk docs); [by eauto | done].
    + intros (Hs & docs & Hr & Hf). rewrite decide_False by (by intros ?). rewrite Hr. simpl.
      apply Hall in Hf as [data ->]. by eauto.
  - intros data Hd. destruct (decide (status r ≠ 200)); [done|].
    destruct (results r) as [docs|]; [|done]. simpl in Hd.
    destruct (mapM toTalk docs) as [data'|] eqn:Hm; [|done]. injection Hd as <-.
    apply mapM_Some in Hm. exists docs. split; [done|]. split; [done|].
    symmetry. by eapply Forall2_length.
  - intros Hs. rewrite decide_False by (by intros ?).
    destruct (results r) as [docs|]; simpl; [|by split; [left|]].
    split.
    + intros Hm. right. exists docs. split; [done|].
      destruct (mapM toTalk docs) as [data|] eqn:Hd; [done|].
      apply eq_None_not_Some in Hd. rewrite Hall in Hd.
      apply not_Forall_Exists in Hd; [|apply _].
      eapply Exists_impl; [exact Hd|]. intros d Hn. simpl in Hn.
      by apply eq_None_not_Some.
    + intros [|(docs' & [= <-] & Hex)]; [done|].
      destruct (mapM toTalk docs) as [data|] eqn:Hd; [|done].
      assert (Hf : Forall (λ d, is_Some (doc_slug d)) docs) by (apply Hall; eauto).
      apply Exists_exists in Hex as (d & Hin & Hnone).
      rewrite Forall_forall in Hf. destruct (Hf d Hin) as [? Hsome]. congruence.
Qed.

(** ** Selecting and storing a talk *)

Lemma round_half_even_bounds (x t : Z) :
  (0 ≤ x)%Z → (1 ≤ t)%Z →
  (x / 2 ^ t * 2 ^ t ≤ round_half_even x t * 2 ^ t ≤ x + 2 ^ (t - 1))%Z.
Proof.
  intros Hx Ht. unfold round_half_even.
  assert (Hp : (2 ^ t = 2 * 2 ^ (t - 1))%Z).
  { rewrite <- Z.pow_succ_r by lia. f_equal. lia. }
  assert (Hh : (0 < 2 ^ (t - 1))%Z) by (apply Z.pow_pos_nonneg; lia).
  pose proof (Z.div_mod x (2 ^ t) ltac:(lia)) as Hdm.
  pose proof (Z.mod_pos_bound x (2 ^ t) ltac:(lia)) as Hm.
  set (q := (x / 2 ^ t)%Z) in *. set (r := (x mod 2 ^ t)%Z) in *.
  set (h := (2 ^ (t - 1))%Z) in *. 
  destruct (Z.ltb_spec r h); [nia|].
  destruct (Z.ltb_spec h r); [nia|].
  destruct (Z.even q); nia.
Qed.

Lemma round_double_upper (x : Z) :
  (0 ≤ x)%Z → (2 ^ 53 * round_double x ≤ (2 ^ 53 + 1) * x)%Z.
Proof.
  intros Hx. unfold round_double.
  destruct (Z.leb_spec (Z.log2 x + 1 - 53) 0) as [Ht|Ht]; [lia|].
  set (t := (Z.log2 x + 1 - 53)%Z) in *.
  destruct (round_half_even_bounds x t Hx ltac:(lia)) as [_ Hu].
  assert (Hx0 : (0 < x)%Z).
  { destruct (Z.eq_dec x 0%Z) as [->|]; [|lia]. unfold t in Ht. simpl in Ht. lia. }
  destruct (Z.log2_spec x Hx0) as [Hlo _].
  assert (Hl : (Z.log2 x = (t - 1) + 53)%Z) by lia.
  rewrite Hl, Z.pow_add_r in Hlo by lia.
  nia.
Qed.

Lemma floor_mul_lt (d : RandomDraw) (n : nat) : 0 < n → floor_mul d n < n.
Proof.
  intros Hn. unfold floor_mul.
  assert (Hm : (0 ≤ draw_num d < 2 ^ 53)%Z) by (apply Z.mod_pos_bound; lia).
  assert (He : (53 ≤ draw_exp d)%Z) by (unfold draw_exp; lia).
  set (m := draw_num d) in *. set (s := draw_exp d) in *.
  pose proof (round_double_upper (m * Z.of_nat n) ltac:(nia)) as Hu.
  assert (Hs : (2 ^ 53 ≤ 2 ^ s)%Z) by (apply Z.pow_le_mono_r; lia).
  assert (Hlt : (round_double (m * Z.of_nat n) < Z.of_nat n * 2 ^ s)%Z) by nia.
  apply Nat2Z.inj_lt. 
  assert (H0 : (0 ≤ round_double (m * Z.of_nat n) / 2 ^ s)%Z).
  { apply Z.div_pos; [|lia]. unfold round_double.
    destruct (Z.leb_spec (Z.log2 (m * Z.of_nat n) + 1 - 53) 0); [nia|].
    destruct (round_half_even_bounds (m * Z.of_nat n) (Z.log2 (m * Z.of_nat n) + 1 - 53)
                ltac:(nia) ltac:(lia)) as [Hl _].
    etrans; [|exact Hl]. apply Z.mul_nonneg_nonneg; [apply Z.div_pos; nia|lia]. }
  rewrite Z2Nat.id by exact H0.
  apply Z.div_lt_upper_bound; lia.
Qed.

Lemma floor_mul_hits (i n : nat) :
  i < n → (Z.of_nat n ≤ 2 ^ 32)%Z → floor_mul (draw_for i n) n = i.
Proof.
  intros Hi Hn. unfold floor_mul, draw_for, draw_num, draw_exp.
  cbn [draw_mantissa draw_scale].
  set (zi := Z.of_nat i). set (zn := Z.of_nat n) in *.
  assert (Hzi : (0 ≤ zi < zn)%Z) by lia.
  set (m := ((zi * 2 ^ 53 + zn - 1) / zn)%Z).
  assert (Hlo : (zi * 2 ^ 53 ≤ m * zn)%Z).
  { unfold m. pose proof (Z.div_mod (zi * 2 ^ 53 + zn - 1) zn ltac:(lia)) as Hdm.
    pose proof (Z.mod_pos_bound (zi * 2 ^ 53 + zn - 1) zn ltac:(lia)). nia. }
  assert (Hhi : (m * zn ≤ zi * 2 ^ 53 + zn - 1)%Z).
  { unfold m. pose proof (Z.div_mod (zi * 2 ^ 53 + zn - 1) zn ltac:(lia)) as Hdm.
    pose proof (Z.mod_pos_bound (zi * 2 ^ 53 + zn - 1) zn ltac:(lia)). nia. }
  assert (Hm : (0 ≤ m < 2 ^ 53)%Z).
  { split; [apply Z.div_pos; nia|]. apply Z.div_lt_upper_bound; nia. }
  rewrite Z2N.id by lia. rewrite Z.mod_small by exact Hm.
  replace (53 + Z.min (Z.of_N 0) 1021)%Z with 53%Z by reflexivity.
  set (x := (m * zn)%Z) in *.
  assert (Hrd : (zi * 2 ^ 53 ≤ round_double x < (zi + 1) * 2 ^ 53)%Z).
  { unfold round_double.
    destruct (Z.leb_spec (Z.log2 x + 1 - 53) 0) as [Ht|Ht]; [lia|].
    set (t := (Z.log2 x + 1 - 53)%Z) in *.
    assert (Hx0 : (0 < x)%Z).
    { destruct (Z.eq_dec x 0%Z) as [Hz|]; [|lia]. unfold t in Ht. rewrite Hz in Ht.
      simpl in Ht. lia. }
    assert (Ht32 : (t ≤ 32)%Z).
    { assert (Z.log2 x < 85)%Z; [|lia]. apply Z.log2_lt_pow2; [lia|].
      replace (2 ^ 85)%Z with (2 ^ 32 * 2 ^ 53)%Z by reflexivity. nia. }
    destruct (round_half_even_bounds x t ltac:(lia) ltac:(lia)) as [Hl Hu].
    split.
    - etrans; [|exact Hl].
      assert (Hsplit : (2 ^ 53 = 2 ^ (53 - t) * 2 ^ t)%Z).
      { rewrite <- Z.pow_add_r by lia. f_equal. lia. }
      assert (Hpt : (0 < 2 ^ t)%Z) by (apply Z.pow_pos_nonneg; lia).
      assert (Hq : (zi * 2 ^ (53 - t) ≤ x / 2 ^ t)%Z).
      { apply Z.div_le_lower_bound; [lia|]. rewrite Hsplit in Hlo. lia. }
      rewrite Hsplit. nia.
    - assert (H31 : (2 ^ (t - 1) ≤ 2 ^ 31)%Z) by (apply Z.pow_le_mono_r; lia).
      assert (H32 : (2 ^ 32 = 4294967296)%Z) by reflexivity.
      assert (H31' : (2 ^ 31 = 2147483648)%Z) by reflexivity.
      assert (H53 : (2 ^ 53 = 9007199254740992)%Z) by reflexivity.
      lia. }
  assert (Hdiv : (round_double x / 2 ^ 53 = zi)%Z).
  { symmetry. apply Z.div_unique with (r := (round_double x - zi * 2 ^ 53)%Z); lia. }
  rewrite Hdiv. apply Nat2Z.id.
Qed.

Lemma floor_mul_near_exact (d : RandomDraw) (n : nat) :
  (Z.of_nat n ≤ 2 ^ 32)%Z →
  let exact := (draw_num d * Z.of_nat n / 2 ^ draw_exp d)%Z in
  (exact ≤ Z.of_nat (floor_mul d n) ≤ exact + 1)%Z.
Proof.
  intros Hn. cbv zeta. unfold floor_mul.
  assert (Hm : (0 ≤ draw_num d < 2 ^ 53)%Z) by (apply Z.mod_pos_bound; lia).
  assert (He : (53 ≤ draw_exp d)%Z) by (unfold draw_exp; lia).
  set (m := draw_num d) in *. set (s := draw_exp d) in *. set (zn := Z.of_nat n) in *.
  assert (Hzn : (0 ≤ zn)%Z) by lia.
  set (x := (m * zn)%Z). assert (Hx : (0 ≤ x)%Z) by (unfold x; nia).
  assert (Hps : (0 < 2 ^ s)%Z) by (apply Z.pow_pos_nonneg; lia).
  pose proof (Z.div_mod x (2 ^ s) ltac:(lia)) as Hdm.
  pose proof (Z.mod_pos_bound x (2 ^ s) ltac:(lia)) as Hmod.
  set (e := (x / 2 ^ s)%Z) in *.
  assert (He0 : (0 ≤ e)%Z) by (apply Z.div_pos; lia).
  assert (Hrd : (e * 2 ^ s ≤ round_double x < (e + 2) * 2 ^ s)%Z).
  { unfold round_double.
    destruct (Z.leb_spec (Z.log2 x + 1 - 53) 0) as [Ht|Ht]; [nia|].
    set (t := (Z.log2 x + 1 - 53)%Z) in *.
    assert (Hx0 : (0 < x)%Z).
    { destruct (Z.eq_dec x 0%Z) as [Hz|]; [|lia]. unfold t in Ht. rewrite Hz in Ht.
      simpl in Ht. lia. }
    assert (Ht32 : (t ≤ 32)%Z).
    { assert (Z.log2 x < 85)%Z; [|lia]. apply Z.log2_lt_pow2; [lia|].
      replace (2 ^ 85)%Z with (2 ^ 32 * 2 ^ 53)%Z by reflexivity. unfold x. nia. }
    destruct (round_half_even_bounds x t ltac:(lia) ltac:(lia)) as [Hl Hu].
    assert (Hsplit : (2 ^ s = 2 ^ (s - t) * 2 ^ t)%Z).
    { rewrite <- Z.pow_add_r by lia. f_equal. lia. }
    assert (Hpt : (0 < 2 ^ t)%Z) by (apply Z.pow_pos_nonneg; lia).
    split.
    - etrans; [|exact Hl].
      assert (Hq : (e * 2 ^ (s - t) ≤ x / 2 ^ t)%Z).
      { apply Z.div_le_lower_bound; [lia|].
        assert (Hex : (e * 2 ^ s ≤ x)%Z) by lia.
        rewrite Hsplit in Hex. lia. }
      rewrite Hsplit, Z.mul_assoc. apply Z.mul_le_mono_nonneg_r; lia.
    - assert (Hh : (2 ^ (t - 1) < 2 ^ s)%Z) by (apply Z.pow_lt_mono_r; lia).
      lia. }
  rewrite Z2Nat.id by (apply Z.div_pos; lia).
  split.
  - apply Z.div_le_lower_bound; lia.
  - assert (round_double x / 2 ^ s < e + 2)%Z; [|lia].
    apply Z.div_lt_upper_bound; lia.
Qed.

Section Selection.
Variable rt : Runtime.

(** X4.  The index drawn is always an index of the list.  The product
    [Math.random() * data.length] is a product of doubles, rounded to the
    nearest double; its floor is the floor of the exact product or the next
    integer (the double nearest to a third, times three, is rounded to one),
    and it is always below the length.  So the talk selected from a list
    that is not empty is the element at that index, and every talk of the
    list is selected by some value of [Math.random()]. *)
Theorem random_talk_in_range (first : Talk) (rest : list Talk) :
  (Z.of_nat (length (first :: rest)) ≤ 2 ^ 32)%Z →
  let data := first :: rest in
  (∀ d, floor_mul d (length data) < length data
        ∧ data !! floor_mul d (length data) = Some (randomTalk_of d first data)
        ∧ (draw_num d * Z.of_nat (length data) / 2 ^ draw_exp d
           ≤ Z.of_nat (floor_mul d (length data))
           ≤ draw_num d * Z.of_nat (length data) / 2 ^ draw_exp d + 1)%Z)
  ∧ (∀ talk, talk ∈ data → ∃ d, randomTalk_of d first data = talk)
  ∧ (draw_num (mkDraw 6004799503160661 1) * 3 / 2 ^ draw_exp (mkDraw 6004799503160661 1)
     = 0)%Z
  ∧ floor_mul (mkDraw 6004799503160661 1) 3 = 1.
Proof.
  intros Hlen. cbv zeta. split; [|split; [|split; reflexivity]].
  - intros d.
    assert (Hlt : floor_mul d (length (first :: rest)) < length (first :: rest))
      by (apply floor_mul_lt; simpl; lia).
    split; [done|]. split; [|by apply floor_mul_near_exact].
    unfold randomTalk_of. by destruct (lookup_lt_is_Some_2 _ _ Hlt) as [x ->].
  - intros talk Hin. apply list_elem_of_lookup in Hin as [i Hi].
    pose proof (lookup_lt_Some _ _ _ Hi) as Hlt.
    exists (draw_for i (length (first :: rest))).
    unfold randomTalk_of. by rewrite floor_mul_hits, Hi.
Qed.

(** X5.  What [handleSearchResults] stores for a list that is not empty.
    The stored list starts with the selected talk; the talks after it are
    talks of the results, in the order of the results; every talk of the
    results with another title than the selected talk is in the stored
    list, and no talk after the first has the title of the selected talk;
    the stored list is never longer than the results. *)
Theorem stored_talks_after_selection (d : RandomDraw) (first : Talk) (rest : list Talk)
    (st : State) :
  let data := first :: rest in
  let talk := randomTalk_of d first data in
  let stored := talks (store (handleSearchResults rt d data st)) in
  head stored = Some talk
  ∧ tail stored `sublist_of` data
  ∧ (∀ t, t ∈ data → title t ≠ title talk → t ∈ tail stored)
  ∧ (∀ t, t ∈ tail stored → title t ≠ title talk)
  ∧ length stored ≤ length data.
Proof.
  cbv zeta.
  destruct (store_handleSearchResults rt d (first :: rest) st) as (-> & _).
  unfold reorderedTalks. cbn [head tail].
  split; [done|]. split; [apply sublist_filter|]. split; [|split].
  - intros t Hin Ht. by apply list_elem_of_filter.
  - intros t Hin. by apply list_elem_of_filter in Hin as [? _].
  - cbn [length].
    apply (length_filter_lt (λ t, title t ≠ title (randomTalk_of d first (first :: rest)))
             (first :: rest) (randomTalk_of d first (first :: rest))).
    + apply randomTalk_of_elem.
    + intros H. by apply H.
Qed.

(** The span of a search after its request has settled. *)
Lemma spans_resume sp o d st :
  spans (browser (performSearch_resume rt sp o d st))
  = alter (λ s,
      match try_result o with
      | inl e =>
          if isCancel e
          then mkSpan (span_name s) (attributes s ++ [("search.cancelled", ABool true)])
                 (exceptions s) (S (ended s))
          else mkSpan (span_name s) (attributes s) (exceptions s ++ [e]) (S (ended s))
      | inr data =>
          mkSpan (span_name s)
            (attributes s ++ [("search.results_count", ANum (length data))])
            (exceptions s) (S (ended s))
      end) sp (spans (browser st)).
Proof.
  rewrite performSearch_resume_eq. unfold performSearch_finally.
  destruct (try_result o) as [e|data].
  - unfold performSearch_catch. destruct (isCancel e); cbn [negb]; red_ops;
      by rewrite list_alter_alter_eq.
  - cbv zeta. destruct (isStrictMode (panel st)); red_ops.
    + by rewrite list_alter_alter_eq.
    + rewrite browser_handleSearchResults. red_ops. by rewrite list_alter_alter_eq.
Qed.

(** X6.  What a settled search writes on its span.  The span of a parked
    search receives, when the request settles, exactly one of: the
    attribute [search.results_count] with the number of talks read, when
    the [try] block got its talks; the attribute [search.cancelled], when
    it was cancelled; the thrown value as a recorded exception, when it
    failed otherwise.  Nothing else on the span changes but its end. *)
Theorem settled_search_span st k p o d :
  reachable rt st →
  pending (browser st) !! k = Some p →
  ∃ s0, spans (browser st) !! p_span p = Some s0
        ∧ spans (browser (step rt (Settle k o d) st)) !! p_span p
          = Some match try_result o with
                 | inl e =>
                     if isCancel e
                     then mkSpan (span_name s0)
                            (attributes s0 ++ [("search.cancelled", ABool true)])
                            (exceptions s0) 1
                     else mkSpan (span_name s0) (attributes s0) (exceptions s0 ++ [e]) 1
                 | inr data =>
                     mkSpan (span_name s0)
                       (attributes s0 ++ [("search.results_count", ANum (length data))])
                       (exceptions s0) 1
                 end.
Proof.
  intros Hr Hk.
  destruct (search_inv_parked st k p (reachable_search_inv rt st Hr) Hk)
    as (_ & _ & _ & s0 & Hs0 & Hended).
  exists s0. split; [done|].
  rewrite (step_settle rt k o d st p Hk), spans_resume. red_ops.
  rewrite list_lookup_alter_eq, Hs0. simpl. rewrite Hended.
  destruct (try_result o) as [e|data]; [by destruct (isCancel e) | done].
Qed.

(** X7.  A search without results.  When a search ends with an empty list
    of talks while the strict-mode flag is down, the talk list of the store
    becomes empty, but the selected talk stays the one selected before, no
    message goes to the chat and the sent set is unchanged; the stored
    search data become the empty list. *)
Theorem empty_results_keep_selection st k p o d :
  pending (browser st) !! k = Some p →
  isStrictMode (panel st) = false →
  try_result o = inr [] →
  let st' := step rt (Settle k o d) st in
  talks (store st') = []
  ∧ selectedTalk (store st') = selectedTalk (store st)
  ∧ messages (store st') = messages (store st)
  ∧ sentMessagesRef (panel st') = sentMessagesRef (panel st)
  ∧ lastSearchData (browser st') = Some []
  ∧ dispatched st' = dispatched st ++ [SetTalks []; SetLoading false].
Proof.
  intros Hk Hs Htry. cbv zeta.
  rewrite (step_settle rt k o d st p Hk), performSearch_resume_eq, Htry.
  cbv zeta. red_ops. rewrite Hs. unfold performSearch_finally, handleSearchResults.
  red_ops. by rewrite <- app_assoc.
Qed.

End Selection.

(** ** Abort controllers over the life of the panel *)

Section Controllers.
Variable rt : Runtime.

Lemma length_controllers_abortCurrent st :
  length (controllers (browser (abortCurrent st))) = length (controllers (browser st)).
Proof.
  rewrite controllers_abortCurrent.
  destruct (abortControllerRef (panel st)); by rewrite ?length_insert.
Qed.

Lemma panel_abortCurrent st : panel (abortCurrent st) = panel st.
Proof. unfold abortCurrent. by destruct (abortControllerRef (panel st)). Qed.

Lemma requests_abortCurrent st :
  requests (browser (abortCurrent st)) = requests (browser st).
Proof. unfold abortCurrent. by destruct (abortControllerRef (panel st)). Qed.

Lemma controllers_inv_performSearch query st :
  controllers_inv st → controllers_inv (performSearch rt query st).
Proof.
  intros (Hlen & Hsig & Href). destruct (isSearchInProgress (panel st)) eqn:Hbusy.
  - rewrite performSearch_busy by done. done.
  - rewrite performSearch_idle by done. unfold controllers_inv. red_ops.
    rewrite !length_app, length_controllers_abortCurrent, Hlen. simpl.
    split; [done|]. split.
    + intros i r Hr. apply lookup_app_Some in Hr as [Hr|[Hge Hr]]; [by apply Hsig|].
      destruct (i - length (requests (browser st))) eqn:Hi; [|done].
      simpl in Hr. injection Hr as <-. simpl. lia.
    + rewrite Nat.add_1_r. done.
Qed.

Lemma controllers_inv_step ev st : controllers_inv st → controllers_inv (step rt ev st).
Proof.
  intros Hinv. destruct ev as [| |q|key| | |k o d|r|]; cbn [step].
  - unfold mountEffect. destruct (isDevelopment rt); cbv beta iota zeta.
    + destruct (decide _); [exact Hinv|].
      apply controllers_inv_performSearch; exact Hinv.
    + apply controllers_inv_performSearch; exact Hinv.
  - unfold cleanupEffect, debouncedPerformSearch_cancel. cbv beta iota zeta.
    destruct (isDevelopment rt && negb _); [|exact Hinv].
    unfold controllers_inv. red_ops.
    rewrite (length_controllers_abortCurrent (with_panel (set_mounted false) st)),
      (requests_abortCurrent (with_panel (set_mounted false) st)),
      (panel_abortCurrent (with_panel (set_mounted false) st)).
    exact Hinv.
  - exact Hinv.
  - unfold onKeyDown. destruct (decide _); [|exact Hinv].
    apply controllers_inv_performSearch; exact Hinv.
  - unfold onClickSearch. apply controllers_inv_performSearch; exact Hinv.
  - unfold debounceTimerFires.
    destruct (debounceTimer (panel st)) as [[? query]|]; [|exact Hinv].
    apply controllers_inv_performSearch; exact Hinv.
  - destruct (pending (browser st) !! k) as [p|]; [|exact Hinv].
    unfold controllers_inv. rewrite panel_resume.
    destruct (browser_resume rt (p_span p) o d
                (with_browser (λ b, set_pending (delete k (pending b)) b) st))
      as (-> & -> & _).
    exact Hinv.
  - unfold handleSpeechResult. destruct (decide _); exact Hinv.
  - exact Hinv.
Qed.

Lemma aborted_performSearch query st c :
  aborted c st = true → aborted c (performSearch rt query st) = true.
Proof.
  unfold aborted. intros Hc. destruct (isSearchInProgress (panel st)) eqn:Hbusy.
  - by rewrite performSearch_busy.
  - rewrite performSearch_idle by done. red_ops.
    destruct (controllers (browser st) !! c) as [b|] eqn:Hb; [|done].
    simpl in Hc. subst b.
    rewrite lookup_app_l
      by (rewrite length_controllers_abortCurrent; by eapply lookup_lt_Some).
    rewrite controllers_abortCurrent.
    destruct (abortControllerRef (panel st)) as [c0|]; [|by rewrite Hb].
    destruct (decide (c0 = c)) as [->|Hne].
    + rewrite list_lookup_insert_eq; [done | by eapply lookup_lt_Some].
    + by rewrite list_lookup_insert_ne, Hb.
Qed.

Lemma aborted_step ev st c : aborted c st = true → aborted c (step rt ev st) = true.
Proof.
  intros Hc. destruct ev as [| |q|key| | |k o d|r|]; cbn [step].
  - unfold mountEffect. destruct (isDevelopment rt); cbv beta iota zeta.
    + destruct (decide _); [exact Hc|]. apply aborted_performSearch; exact Hc.
    + apply aborted_performSearch; exact Hc.
  - unfold cleanupEffect, debouncedPerformSearch_cancel. cbv beta iota zeta.
    destruct (isDevelopment rt && negb _); [|exact Hc].
    unfold aborted, abortCurrent in *. red_ops.
    destruct (abortControllerRef (panel st)) as [c0|]; [|exact Hc]. red_ops.
    destruct (controllers (browser st) !! c) as [b|] eqn:Hb; [|done].
    simpl in Hc. subst b. destruct (decide (c0 = c)) as [->|Hne].
    + rewrite list_lookup_insert_eq; [done | by eapply lookup_lt_Some].
    + by rewrite list_lookup_insert_ne, Hb.
  - exact Hc.
  - unfold onKeyDown. destruct (decide _); [|exact Hc].
    apply aborted_performSearch; exact Hc.
  - unfold onClickSearch. apply aborted_performSearch; exact Hc.
  - unfold debounceTimerFires.
    destruct (debounceTimer (panel st)) as [[? query]|]; [|exact Hc].
    apply aborted_performSearch; exact Hc.
  - destruct (pending (browser st) !! k) as [p|]; [|exact Hc].
    unfold aborted.
    destruct (browser_resume rt (p_span p) o d
                (with_browser (λ b, set_pending (delete k (pending b)) b) st))
      as (-> & _).
    exact Hc.
  - unfold handleSpeechResult. destruct (decide _); exact Hc.
  - exact Hc.
Qed.

(** X8.  One abort controller per request.  In every reachable state there
    are as many abort controllers as requests sent, request number [i]
    carries the signal of controller number [i] (so no two requests share a
    signal), and the ref holds the controller of the last request, or
    nothing before the first request.  A signal that has been aborted stays
    aborted whatever happens next. *)
Theorem one_controller_per_request st :
  reachable rt st →
  length (controllers (browser st)) = length (requests (browser st))
  ∧ (∀ i r, requests (browser st) !! i = Some r → req_signal r = i)
  ∧ NoDup (req_signal <$> requests (browser st))
  ∧ abortControllerRef (panel st)
    = match length (requests (browser st)) with
      | 0 => None
      | S n => Some n
      end
  ∧ (∀ ev c, aborted c st = true → aborted c (step rt ev st) = true).
Proof.
  intros Hr.
  assert (Hinv : controllers_inv st).
  { induction Hr as [|ev st _ IH _]; [|by apply controllers_inv_step].
    unfold controllers_inv. simpl. split; [done|]. split; [|done].
    intros i r Hi. done. }
  destruct Hinv as (Hlen & Hsig & Href).
  split; [done|]. split; [done|]. split; [|split; [done|]].
  - apply NoDup_alt. intros i j c Hi Hj.
    rewrite list_lookup_fmap in Hi, Hj.
    destruct (requests (browser st) !! i) as [ri|] eqn:Hri; [|done].
    destruct (requests (browser st) !! j) as [rj|] eqn:Hrj; [|done].
    simpl in Hi, Hj. apply Hsig in Hri, Hrj. congruence.
  - intros ev c. apply aborted_step.
Qed.

(** In production nothing aborts a request that is still parked. *)
Lemma production_pending_live st :
  isDevelopment rt = false → reachable rt st →
  ∀ p, p ∈ pending (browser st) → aborted (req_signal (p_request p)) st = false.
Proof.
  intros Hprod Hr. induction Hr as [|ev st Hr IH Hen].
  { intros p Hp. by apply elem_of_nil in Hp. }
  pose proof (reachable_search_inv rt st Hr) as Hinv.
  assert (Hps : ∀ query st0,
    browser st0 = browser st → isSearchInProgress (panel st0) = isSearchInProgress (panel st) →
    abortControllerRef (panel st0) = abortControllerRef (panel st) →
    ∀ p, p ∈ pending (browser (performSearch rt query st0)) →
         aborted (req_signal (p_request p)) (performSearch rt query st0) = false).
  { intros query st0 Hb Hbusy Href p.
    destruct (isSearchInProgress (panel st)) eqn:Hidle.
    - rewrite performSearch_busy by congruence. unfold aborted. red_ops. rewrite Hb.
      apply IH.
    - rewrite performSearch_idle by congruence. unfold aborted. red_ops.
      rewrite Hb, (search_inv_idle st Hinv Hidle). simpl.
      intros Hp. apply list_elem_of_singleton in Hp as ->. simpl.
      rewrite lookup_app_r by (rewrite length_controllers_abortCurrent, Hb; lia).
      by rewrite length_controllers_abortCurrent, Hb, Nat.sub_diag. }
  destruct ev as [| |q|key| | |k o d|r|]; cbn [step].
  - unfold mountEffect. rewrite Hprod. by apply Hps.
  - unfold cleanupEffect, debouncedPerformSearch_cancel. rewrite Hprod. exact IH.
  - exact IH.
  - unfold onKeyDown. destruct (decide _); [|exact IH]. by apply Hps.
  - unfold onClickSearch. by apply Hps.
  - unfold debounceTimerFires.
    destruct (debounceTimer (panel st)) as [[? query]|]; [|exact IH]. by apply Hps.
  - destruct (pending (browser st) !! k) as [p0|] eqn:Hk; [|exact IH].
    unfold aborted.
    destruct (browser_resume rt (p_span p0) o d
                (with_browser (λ b, set_pending (delete k (pending b)) b) st))
      as (-> & _ & -> & _).
    red_ops. intros p Hp. apply IH. by eapply list_elem_of_delete_inv.
  - unfold handleSpeechResult. destruct (decide _); exact IH.
  - exact IH.
Qed.

(** X9.  In production a search is never cancelled.  The cleanup of the
    mount effect aborts the controller only in development, and a new
    search aborts the old controller only once the old search has ended:
    in production, in every reachable state, the signal of a parked request
    is not aborted, so the request cannot settle as a cancellation, and
    the cleanup leaves every abort flag as it is. *)
Theorem production_never_cancels st :
  isDevelopment rt = false →
  reachable rt st →
  (∀ p, p ∈ pending (browser st) → aborted (req_signal (p_request p)) st = false)
  ∧ (∀ k e d, enabled rt (Settle k (Rejected e) d) st = true → isCancel e = false)
  ∧ controllers (browser (step rt Cleanup st)) = controllers (browser st).
Proof.
  intros Hprod Hr. pose proof (production_pending_live st Hprod Hr) as Hlive.
  split; [exact Hlive|]. split.
  - intros k e d Hen. cbn [enabled] in Hen.
    destruct (pending (browser st) !! k) as [p|] eqn:Hk; [|done].
    unfold settles in Hen. apply bool_decide_eq_true in Hen.
    rewrite Hen. apply Hlive. by eapply list_elem_of_lookup_2.
  - cbn [step]. unfold cleanupEffect, debouncedPerformSearch_cancel. by rewrite Hprod.
Qed.

(** X10.  In development the cleanup cancels the parked search.  Outside
    the strict-mode mount, the cleanup of the mount effect aborts the
    signal of the parked request and leaves the search parked; the request
    can then settle only as a cancellation, and when it does the talk list,
    the selected talk and the chat message history are as before the
    cleanup, and the search is no longer in progress. *)
Theorem development_cleanup_cancels st k p :
  isDevelopment rt = true →
  reachable rt st →
  isStrictMode (panel st) = false →
  pending (browser st) !! k = Some p →
  let st1 := step rt Cleanup st in
  aborted (req_signal (p_request p)) st1 = true
  ∧ pending (browser st1) = pending (browser st)
  ∧ ∀ o d, enabled rt (Settle k o d) st1 = true →
           let st2 := step rt (Settle k o d) st1 in
           (∃ e, o = Rejected e ∧ isCancel e = true)
           ∧ talks (store st2) = talks (store st)
           ∧ selectedTalk (store st2) = selectedTalk (store st)
           ∧ messages (store st2) = messages (store st)
           ∧ isSearchInProgress (panel st2) = false.
Proof.
  intros Hdev Hr Hstrict Hk. cbv zeta.
  pose proof (reachable_search_inv rt st Hr) as Hinv.
  assert (Hin : p ∈ pending (browser st)) by (by eapply list_elem_of_lookup_2).
  pose proof (ok_signal Hinv p Hin) as Href.
  pose proof (ok_ref Hinv _ Href) as Hlt.
  assert (Hst1 : step rt Cleanup st
                 = with_panel (set_debounceTimer None)
                     (with_browser
                        (λ b, set_controllers
                                (<[req_signal (p_request p) := true]> (controllers b)) b)
                        (with_panel (set_mounted false) st))).
  { cbn [step]. unfold cleanupEffect, debouncedPerformSearch_cancel, abortCurrent.
    red_ops. by rewrite Hdev, Hstrict, Href. }
  rewrite Hst1.
  assert (Hab : aborted (req_signal (p_request p))
                  (with_panel (set_debounceTimer None)
                     (with_browser
                        (λ b, set_controllers
                                (<[req_signal (p_request p) := true]> (controllers b)) b)
                        (with_panel (set_mounted false) st))) = true).
  { unfold aborted. red_ops. by rewrite list_lookup_insert_eq. }
  split; [exact Hab|]. split; [done|].
  intros o d Hen. cbv zeta.
  assert (Hcancel : ∃ e, o = Rejected e ∧ isCancel e = true).
  { cbn [enabled] in Hen.
    cbn [pending browser with_panel with_browser set_controllers] in Hen.
    rewrite Hk in Hen. unfold settles in Hen. apply bool_decide_eq_true in Hen. rewrite Hab in Hen.
    destruct o as [?|e]; [done|]. by exists e. }
  split; [exact Hcancel|]. destruct Hcancel as (e & -> & He).
  erewrite step_settle by (red_ops; exact Hk).
  rewrite panel_resume.
  match goal with
  | |- context [performSearch_resume rt ?sp ?o ?d ?st0] =>
      destruct (resume_commits_nothing rt sp o d st0) as (-> & -> & -> & _);
        [right; by exists e | done]
  end.
Qed.

End Controllers.

(** ** The sent set over the life of the panel *)

Section SentForGood.
Variable rt : Runtime.

Lemma sent_sendTranscriptAsMessage_mono talk st :
  sentMessagesRef (panel st) ⊆ sentMessagesRef (panel (sendTranscriptAsMessage rt talk st)).
Proof.
  unfold sendTranscriptAsMessage. destruct (decide _); [done|]. red_ops.
  apply union_subseteq_r.
Qed.

Lemma sent_handleSearchResults_mono d data st :
  sentMessagesRef (panel st) ⊆ sentMessagesRef (panel (handleSearchResults rt d data st)).
Proof.
  unfold handleSearchResults. destruct data as [|first data']; [done|].
  cbv zeta. red_ops.
  match goal with
  | |- _ ⊆ sentMessagesRef (panel (sendTranscriptAsMessage rt ?t ?st0)) =>
      apply (sent_sendTranscriptAsMessage_mono t st0)
  end.
Qed.

Lemma sent_resume_mono sp o d st :
  sentMessagesRef (panel st) ⊆ sentMessagesRef (panel (performSearch_resume rt sp o d st)).
Proof.
  rewrite performSearch_resume_eq. unfold performSearch_finally. red_ops.
  destruct (try_result o) as [e|data].
  - unfold performSearch_catch. by destruct (negb (isCancel e)).
  - cbv zeta. destruct (isStrictMode (panel st)); [done|].
    apply (sent_handleSearchResults_mono d data
             (setAttribute sp "search.results_count" (ANum (length data)) st)).
Qed.

Lemma sent_step_mono ev st :
  sentMessagesRef (panel st) ⊆ sentMessagesRef (panel (step rt ev st)).
Proof.
  destruct ev as [| |q|key| | |k o d|r|]; cbn [step].
  - unfold mountEffect. destruct (isDevelopment rt); cbv beta iota zeta.
    + destruct (decide _); [done|]. rewrite panel_performSearch. red_ops.
      by destruct (isSearchInProgress (panel st)).
    + rewrite panel_performSearch. red_ops. by destruct (isSearchInProgress (panel st)).
  - unfold cleanupEffect, debouncedPerformSearch_cancel. cbv beta iota zeta. red_ops.
    destruct (isDevelopment rt && negb _); [|done].
    by rewrite (panel_abortCurrent (with_panel (set_mounted false) st)).
  - done.
  - unfold onKeyDown. destruct (decide _); [|done].
    rewrite panel_performSearch. by destruct (isSearchInProgress (panel st)).
  - unfold onClickSearch.
    rewrite panel_performSearch. by destruct (isSearchInProgress (panel st)).
  - unfold debounceTimerFires.
    destruct (debounceTimer (panel st)) as [[? query]|]; [|done].
    rewrite panel_performSearch. red_ops. by destruct (isSearchInProgress (panel st)).
  - destruct (pending (browser st) !! k) as [p|]; [|done].
    apply (sent_resume_mono (p_span p) o d
             (with_browser (λ b, set_pending (delete k (pending b)) b) st)).
  - unfold handleSpeechResult. by destruct (decide _).
  - done.
Qed.

Lemma sent_app_step_mono e a i st :
  instance i a = Some st →
  ∃ st', instance i (app_step rt e a) = Some st'
         ∧ sentMessagesRef (panel st) ⊆ sentMessagesRef (panel st').
Proof.
  intros Hi. unfold instance in Hi. apply fmap_Some in Hi as (inst & Hl & ->).
  pose proof (lookup_lt_Some _ _ _ Hl) as Hlt.
  destruct e as [|j ev]; cbn [app_step].
  - exists (instance_state (app_step rt Render a) inst). split; [|done].
    unfold instance. cbn [app_step app_instances].
    rewrite lookup_app_l by exact Hlt. by rewrite Hl.
  - destruct (instance j a) as [stj|] eqn:Hj.
    + destruct (decide (i = j)) as [->|Hne].
      * unfold instance in Hj. rewrite Hl in Hj. injection Hj as <-.
        eexists. split.
        { unfold instance, put_instance. cbn [app_instances].
          rewrite list_lookup_insert_eq by exact Hlt. reflexivity. }
        apply (sent_step_mono ev (instance_state a inst)).
      * exists (instance_state (put_instance j (step rt ev stj) a) inst).
        split; [|done]. unfold instance, put_instance. cbn [app_instances].
        rewrite list_lookup_insert_ne by congruence. by rewrite Hl.
    + exists (instance_state a inst). split; [|done]. unfold instance. by rewrite Hl.
Qed.

(** X11.  A title is sent for good, for the instance that sent it.  Once
    the title of a talk is in the sent set of an instance it stays there
    whatever happens on the page (searches, the cleanup of the instance,
    events of other instances, a cleared chat), so [sendTranscriptAsMessage]
    of that instance dispatches nothing for a talk of that title.  The set
    is a ref of the instance: an instance rendered later starts with an
    empty set, and its [sendTranscriptAsMessage] dispatches the transcript
    of the same title again. *)
Theorem sent_title_stays_sent (es : list AppEvent) (a : App) (i : nat) (st : State)
    (talk : Talk) :
  instance i a = Some st →
  title talk ∈ sentMessagesRef (panel st) →
  (∃ st', instance i (app_run rt es a) = Some st'
          ∧ title talk ∈ sentMessagesRef (panel st')
          ∧ sendTranscriptAsMessage rt talk st' = st')
  ∧ ∃ fresh, instance (length (app_instances a)) (app_step rt Render a) = Some fresh
             ∧ sentMessagesRef (panel fresh) = ∅
             ∧ dispatched (sendTranscriptAsMessage rt talk fresh)
               = dispatched fresh
                 ++ [SendMessage (PayloadMessage (transcript_message rt talk))].
Proof.
  intros Hi Hin. split.
  - revert a st Hi Hin. induction es as [|e es IH]; intros a st Hi Hin.
    + exists st. split; [done|]. split; [done|]. by apply sendTranscriptAsMessage_sent.
    + destruct (sent_app_step_mono e a i st Hi) as (st1 & Hi1 & Hsub).
      apply (IH (app_step rt e a) st1 Hi1). by apply Hsub.
  - eexists. split.
    { unfold instance. cbn [app_step app_instances].
      by rewrite lookup_app_r, Nat.sub_diag by done. }
    split; [done|]. rewrite dispatched_sendTranscriptAsMessage.
    rewrite decide_False; [done|]. apply not_elem_of_empty.
Qed.

(** X12.  Clearing the chat does not bring a transcript back.  After
    [handleClearChat] the sent set is as before; so when the next results
    select a talk whose title has been sent, [handleSearchResults] leaves
    the cleared chat message history empty. *)
Theorem cleared_chat_stays_empty (d : RandomDraw) (first : Talk) (rest : list Talk)
    (st : State) :
  title (randomTalk_of d first (first :: rest)) ∈ sentMessagesRef (panel st) →
  sentMessagesRef (panel (handleClearChat st)) = sentMessagesRef (panel st)
  ∧ messages (store (handleClearChat st)) = []
  ∧ messages (store (handleSearchResults rt d (first :: rest) (handleClearChat st))) = [].
Proof.
  intros Hin. split; [done|]. split; [done|].
  unfold handleSearchResults. cbv zeta. red_ops.
  rewrite sendTranscriptAsMessage_sent; [done|]. exact Hin.
Qed.

End SentForGood.

(** ** The span of the video being watched *)

Lemma watch_inv_end (w : Watch) : watch_inv w → watch_inv (endActiveWatchSpan w).
Proof.
  intros Hw. unfold endActiveWatchSpan.
  destruct (activeWatchSpanRef w) as [a|] eqn:Ha; [|exact Hw].
  destruct Hw as [Hended Href]. rewrite Ha in Hended.
  split; simpl; [|done].
  intros i s Hs. rewrite list_lookup_alter in Hs.
  destruct (decide (a = i)) as [->|Hne].
  - destruct (watch_spans w !! i) as [s0|] eqn:Hs0; [|done].
    injection Hs as <-. simpl. apply Hended in Hs0.
    rewrite decide_True in Hs0 by done. by rewrite Hs0.
  - apply Hended in Hs. rewrite decide_False in Hs by congruence. done.
Qed.

Lemma watch_inv_effect (sel : option Talk) (w : Watch) :
  watch_inv w → watch_inv (watchEffect sel w).
Proof.
  intros Hw. apply watch_inv_end in Hw. unfold watchEffect.
  assert (Hnone : activeWatchSpanRef (endActiveWatchSpan w) = None).
  { unfold endActiveWatchSpan. by destruct (activeWatchSpanRef w) eqn:Ha. }
  destruct sel as [talk|]; [|exact Hw].
  destruct Hw as [Hended Href]. split; simpl.
  - intros i s Hs. apply lookup_app_Some in Hs as [Hs|[Hge Hs]].
    + pose proof (lookup_lt_Some _ _ _ Hs) as Hlt.
      rewrite decide_False by (intros [= ?]; lia).
      apply Hended in Hs. by rewrite Hnone in Hs.
    + destruct (i - length (watch_spans (endActiveWatchSpan w))) eqn:Hi; [|done].
      injection Hs as <-. simpl. rewrite decide_True; [done|]. f_equal. lia.
  - intros i [= <-]. rewrite length_app. simpl. lia.
Qed.

Lemma watch_inv_run (evs : list WatchEvent) (w : Watch) :
  watch_inv w → watch_inv (watch_run evs w).
Proof.
  revert w. induction evs as [|ev evs IH]; intros w Hw; [done|].
  apply IH. destruct ev; [by apply watch_inv_effect | by apply watch_inv_end].
Qed.

(** X13.  Watch spans are bracketed.  Whatever the order in which the
    effect on [selectedTalk] and its cleanup run, at most one
    [watch_video] span is open: the span in [activeWatchSpanRef] has not
    been ended and every other span has been ended exactly once, although
    both the effect and its cleanup end the active span.  After the cleanup
    no span is open; after the effect a span is open exactly when a talk is
    selected, and it is the newest span, carrying the title, presenter, URL
    and tags of that talk. *)
Theorem watch_spans_bracketed (evs : list WatchEvent) (sel : option Talk) :
  let w := watch_run evs (mkWatch [] None) in
  (∀ i s, watch_spans w !! i = Some s →
          watch_ended s = if decide (activeWatchSpanRef w = Some i) then 0 else 1)
  ∧ (∀ i, activeWatchSpanRef w = Some i → i < length (watch_spans w))
  ∧ activeWatchSpanRef (watch_step WatchCleanup w) = None
  ∧ match sel with
    | None => activeWatchSpanRef (watch_step (WatchRun sel) w) = None
    | Some talk =>
        activeWatchSpanRef (watch_step (WatchRun sel) w) = Some (length (watch_spans w))
        ∧ watch_spans (watch_step (WatchRun sel) w) !! length (watch_spans w)
          = Some (mkWatchSpan "watch_video"
                    [("video.title", WStr (title talk));
                     ("video.presenter", WStr (presenterDisplayName talk));
                     ("video.url", WStr (url talk));
                     ("video.sdg_tags", WTags (sdg_tags talk))] 0)
    end.
Proof.
  cbv zeta.
  assert (Hinv : watch_inv (watch_run evs (mkWatch [] None))).
  { apply watch_inv_run. split; [|done]. intros i s Hs. done. }
  set (w := watch_run evs (mkWatch [] None)) in *.
  assert (Hnone : activeWatchSpanRef (endActiveWatchSpan w) = None).
  { unfold endActiveWatchSpan. by destruct (activeWatchSpanRef w) eqn:Ha. }
  assert (Hlen : length (watch_spans (endActiveWatchSpan w)) = length (watch_spans w)).
  { unfold endActiveWatchSpan. destruct (activeWatchSpanRef w); [|done].
    simpl. by rewrite length_alter. }
  destruct Hinv as [Hended Href].
  split; [exact Hended|]. split; [exact Href|]. split; [exact Hnone|].
  cbn [watch_step]. unfold watchEffect. destruct sel as [talk|]; [|exact Hnone].
  simpl. rewrite Hlen. split; [done|].
  rewrite lookup_app_r by lia. by rewrite Hlen, Nat.sub_diag.
Qed.

(** ** The embedded player *)

Lemma string_cons_app (x : ascii) (a b : string) : String x a +:+ b = String x (a +:+ b).
Proof. reflexivity. Qed.

Lemma word_prefix_all_word (s : string) : all_word (word_prefix s) = true.
Proof.
  induction s as [|c s IH]; [done|]. simpl.
  destruct (is_word_char c) eqn:Hc; [|done].
  unfold all_word in *. simpl. by rewrite Hc, IH.
Qed.

Lemma word_prefix_id (s : string) : all_word s = true → word_prefix s = s.
Proof.
  unfold all_word. induction s as [|c s IH]; [done|]. simpl.
  intros [Hc Hs]%andb_true_iff. rewrite Hc. f_equal. by apply IH.
Qed.

Lemma word_prefix_stop (w : string) (c : ascii) (rest : string) :
  all_word w = true → is_word_char c = false → word_prefix (w +:+ String c rest) = w.
Proof.
  unfold all_word. intros Hw Hc. induction w as [|x w IH].
  - change ("" +:+ String c rest) with (String c rest). simpl. by rewrite Hc.
  - rewrite string_cons_app. simpl in *. apply andb_true_iff in Hw as [Hx Hw].
    rewrite Hx. f_equal. by apply IH.
Qed.

Lemma contains_cons (s : string) (c : ascii) (t : string) :
  contains s t → contains s (String c t).
Proof. intros (a & b & ->). by exists (String c a), b. Qed.

Lemma strip_prefix_Some (p s rest : string) :
  strip_prefix p s = Some rest → s = p +:+ rest.
Proof.
  revert s. induction p as [|a p IH]; intros s; simpl.
  - by intros [= ->].
  - destruct s as [|b s]; [done|].
    destruct (Ascii.eqb_spec a b) as [->|]; [|done].
    intros Hs. rewrite string_cons_app. f_equal. by apply IH.
Qed.

Lemma word_prefix_is_prefix (s : string) : ∃ rest, s = word_prefix s +:+ rest.
Proof.
  induction s as [|c s [rest IH]]; [by exists ""|]. simpl.
  destruct (is_word_char c); [|by exists (String c s)].
  exists rest. rewrite string_cons_app. by f_equal.
Qed.

Lemma match_talks_here_Some (s w : string) :
  match_talks_here s = Some w →
  w ≠ "" ∧ all_word w = true ∧ ∃ rest, s = "talks/" +:+ w +:+ rest.
Proof.
  unfold match_talks_here.
  destruct (strip_prefix "talks/" s) as [r|] eqn:Hr; [|done].
  destruct (decide (word_prefix r = "")) as [|Hne]; [done|].
  intros [= <-]. split; [done|]. split; [apply word_prefix_all_word|].
  apply strip_prefix_Some in Hr. destruct (word_prefix_is_prefix r) as [rest Hrest].
  exists rest. by rewrite <- Hrest.
Qed.

Lemma match_talks_Some (s w : string) :
  match_talks s = Some w →
  w ≠ "" ∧ all_word w = true ∧ contains ("talks/" +:+ w) s.
Proof.
  induction s as [|c s IH].
  - done.
  - simpl. destruct (match_talks_here (String c s)) as [w'|] eqn:Hh.
    + intros [= <-]. apply match_talks_here_Some in Hh as (? & ? & rest & Hrest).
      split; [done|]. split; [done|]. rewrite Hrest.
      exists "", rest. by rewrite string_app_assoc.
    + intros Hm. destruct (IH Hm) as (? & ? & Hc).
      split; [done|]. split; [done|]. by apply contains_cons.
Qed.

(** The match on a URL built by [toTalk]. *)
Lemma match_talks_ted (slug : string) :
  match_talks ("https://www.ted.com/talks/" +:+ slug)
  = if decide (word_prefix slug = "") then match_talks slug
    else Some (word_prefix slug).
Proof.
  change (match_talks ("https://www.ted.com/talks/" +:+ slug))
    with (match (if decide (word_prefix slug = "") then None
                 else Some (word_prefix slug)) with
          | Some w => Some w
          | None => match_talks slug
          end).
  by destruct (decide (word_prefix slug = "")).
Qed.

(** X14.  The player gets the slug.  For a talk read from a document whose
    slug starts with a word character, the [src] of the iframe is the embed
    address followed by the leading word characters of the slug: the whole
    slug when the slug consists of word characters, and only the part
    before the first other character (a hyphen, say) when it does not. *)
Theorem iframe_src_of_document (doc : Document) (slug : string) (talk : Talk) :
  doc_slug doc = Some slug →
  toTalk doc = Some talk →
  word_prefix slug ≠ "" →
  iframe_src talk = "https://embed.ted.com/talks/" +:+ word_prefix slug
  ∧ (all_word slug = true → iframe_src talk = "https://embed.ted.com/talks/" +:+ slug)
  ∧ (∀ w c rest, slug = w +:+ String c rest → all_word w = true →
                 is_word_char c = false →
                 iframe_src talk = "https://embed.ted.com/talks/" +:+ w).
Proof.
  unfold toTalk. intros -> [= <-] Hne.
  assert (Hsrc : iframe_src
                   {| presenterDisplayName := default "" (doc_presenterDisplayName doc);
                      title := replace_underscores slug;
                      url := "https://www.ted.com/talks/" +:+ slug;
                      sdg_tags := default [] (doc_sdg_tags doc);
                      transcript := default "" (doc_transcript doc) |}
                 = "https://embed.ted.com/talks/" +:+ word_prefix slug).
  { unfold iframe_src. cbn [url]. rewrite match_talks_ted.
    by rewrite decide_False. }
  split; [exact Hsrc|]. split.
  - intros Hall. by rewrite Hsrc, word_prefix_id.
  - intros w c rest -> Hw Hc. by rewrite Hsrc, word_prefix_stop.
Qed.

(** X15.  The shape of the embed address.  Whatever the URL of the talk,
    the [src] of the iframe is the embed address followed by a text that is
    not empty and has word characters only: a run of word characters that
    follows [talks/] in the URL or, when the URL has no such run, the text
    [undefined]. *)
Theorem iframe_src_shape (talk : Talk) :
  ∃ id, iframe_src talk = "https://embed.ted.com/talks/" +:+ id
        ∧ id ≠ ""
        ∧ all_word id = true
        ∧ match match_talks (url talk) with
          | Some w => id = w ∧ contains ("talks/" +:+ w) (url talk)
          | None => id = "undefined"
          end.
Proof.
  unfold iframe_src. destruct (match_talks (url talk)) as [w|] eqn:Hm.
  - apply match_talks_Some in Hm as (Hne & Hall & Hc). by exists w.
  - by exists "undefined".
Qed.

(** ** What the panel renders *)

Lemma pretty_N_char_no_dash (x : N) : Ascii.eqb (pretty_N_char x) "-" = false.
Proof. unfold pretty_N_char. by repeat case_match. Qed.

Lemma pretty_N_go_no_dash (x : N) (s : string) :
  occurs "-" s = false → occurs "-" (pretty_N_go x s) = false.
Proof.
  revert s. induction (N.lt_wf_0 x) as [x _ IH]; intros s Hs.
  assert (x = 0 ∨ 0 < x)%N as [->|Hpos] by lia.
  - by rewrite pretty_N_go_0.
  - rewrite pretty_N_go_step by done. apply IH; [by apply N.div_lt|].
    simpl. by rewrite pretty_N_char_no_dash, Hs.
Qed.

Lemma pretty_nat_no_dash (n : nat) : occurs "-" (pretty n) = false.
Proof.
  unfold pretty, pretty_nat, pretty, pretty_N.
  destruct (decide (N.of_nat n = 0%N)); [done|]. by apply pretty_N_go_no_dash.
Qed.

Lemma occurs_app (c : ascii) (a b : string) :
  occurs c (a +:+ b) = occurs c a || occurs c b.
Proof.
  induction a as [|x a IH]; [done|].
  rewrite string_cons_app. simpl. by rewrite IH, orb_assoc.
Qed.

(** Where two texts end in a dash and a suffix without dashes, the
    suffixes are the same when the texts are. *)
Lemma dash_suffix_inj (u1 u2 d1 d2 : string) :
  occurs "-" d1 = false → occurs "-" d2 = false →
  u1 +:+ "-" +:+ d1 = u2 +:+ "-" +:+ d2 → d1 = d2.
Proof.
  intros H1 H2. revert u2. induction u1 as [|x u1 IH]; intros [|y u2] Heq.
  - change (String "-" d1 = String "-" d2) in Heq. by injection Heq.
  - change (String "-" d1 = String y (u2 +:+ "-" +:+ d2)) in Heq.
    injection Heq as _ Hd. rewrite Hd, occurs_app in H1. simpl in H1.
    by rewrite orb_true_r in H1.
  - change (String x (u1 +:+ "-" +:+ d1) = String "-" d2) in Heq.
    injection Heq as _ Hd. rewrite <- Hd, occurs_app in H2. simpl in H2.
    by rewrite orb_true_r in H2.
  - change (String x (u1 +:+ "-" +:+ d1) = String y (u2 +:+ "-" +:+ d2)) in Heq.
    injection Heq as _ Heq. by eapply IH.
Qed.

Section Rendering.
Variable rt : Runtime.

(** X16.  The keys of the talk items are pairwise different.  The panel
    renders one item per talk of the store, in the order of the store, with
    the key [url-index]; since an index has no dash, two items have the
    same key only if they are the same item, even when talks share a URL. *)
Theorem talk_item_keys_distinct (st : State) :
  NoDup (item_key <$> view_items (render st))
  ∧ item_talk <$> view_items (render st) = talks (store st).
Proof.
  cbn [render view_items]. split.
  - apply NoDup_alt. intros i j key Hi Hj.
    rewrite list_lookup_fmap, list_lookup_imap in Hi, Hj.
    destruct (talks (store st) !! i) as [ti|]; [|done].
    destruct (talks (store st) !! j) as [tj|]; [|done].
    simpl in Hi, Hj. injection Hi as Hi. injection Hj as Hj. subst key.
    apply dash_suffix_inj in Hj; [|apply pretty_nat_no_dash..].
    by apply (inj pretty) in Hj.
  - apply list_eq. intros i. rewrite list_lookup_fmap, list_lookup_imap.
    by destruct (talks (store st) !! i).
Qed.

(** X17.  After a search with results exactly one item is highlighted.
    When [handleSearchResults] has handled a list that is not empty, the
    first item rendered is the selected talk and is marked as selected, no
    other item is, and the Transcript button is shown; outside the
    strict-mode mount the player shows the selected talk. *)
Theorem one_item_selected_after_search (d : RandomDraw) (first : Talk) (rest : list Talk)
    (st : State) :
  let talk := randomTalk_of d first (first :: rest) in
  let v := render (handleSearchResults rt d (first :: rest) st) in
  (∃ item items,
      view_items v = item :: items
      ∧ item_talk item = talk
      ∧ item_selected item = true
      ∧ Forall (λ it, item_selected it = false) items)
  ∧ view_transcriptButton v = true
  ∧ view_nowPlaying v = if isStrictMode (panel st) then None else Some (iframe_src talk).
Proof.
  cbv zeta. unfold render. cbn [view_items view_transcriptButton view_nowPlaying].
  destruct (store_handleSearchResults rt d (first :: rest) st) as (-> & -> & _).
  rewrite panel_handleSearchResults. cbn [isStrictMode set_sentMessagesRef].
  split; [|split; [done|by destruct (isStrictMode (panel st))]].
  unfold reorderedTalks. rewrite imap_cons.
  eexists _, _. split; [reflexivity|]. cbn [item_talk item_selected is_selected].
  split; [done|]. split; [by apply bool_decide_eq_true_2|].
  apply Forall_forall. intros it Hit.
  apply list_elem_of_lookup in Hit as [i Hi].
  rewrite list_lookup_imap in Hi.
  destruct (filter _ _ !! i) as [t|] eqn:Ht; [|done].
  injection Hi as <-. cbn [item_selected is_selected].
  apply bool_decide_eq_false_2. intros Heq.
  apply list_elem_of_lookup_2, list_elem_of_filter in Ht as [Hne _]. by apply Hne.
Qed.

End Rendering.

(** ** The Transcript button *)

Section Transcript.
Variable rt : Runtime.

Lemma try_result_from_document o data :
  try_result o = inr data → Forall from_document data.
Proof.
  unfold try_result. destruct o as [r|e]; [|done].
  destruct (decide _); [done|].
  destruct (results r) as [docs|]; [|done]. simpl.
  destruct (mapM toTalk docs) as [data'|] eqn:Hm; [|done]. intros [= <-].
  apply mapM_Some in Hm. apply Forall_forall. intros t Ht.
  apply list_elem_of_lookup in Ht as [i Hi].
  destruct (Forall2_lookup_r _ _ _ _ _ Hm Hi) as (doc & _ & Hdoc). by exists doc.
Qed.

Lemma talks_inv_handleSearchResults d data st :
  Forall from_document data → talks_inv st →
  talks_inv (handleSearchResults rt d data st).
Proof.
  intros Hdata [Htalks Hsel]. unfold talks_inv.
  destruct (store_handleSearchResults rt d data st) as (-> & -> & _).
  destruct data as [|first rest]; [by split|].
  assert (Hpick : from_document (randomTalk_of d first (first :: rest))).
  { apply (proj1 (Forall_forall _ _) Hdata), randomTalk_of_elem. }
  split; [|by intros talk [= <-]].
  unfold reorderedTalks. apply Forall_cons. split; [done|].
  rewrite Forall_forall in Hdata. apply Forall_forall. intros t Ht.
  apply list_elem_of_filter in Ht as [_ Ht]. by apply Hdata.
Qed.

Lemma talks_inv_resume sp o d st :
  talks_inv st → talks_inv (performSearch_resume rt sp o d st).
Proof.
  intros Hinv. rewrite performSearch_resume_eq.
  destruct (try_result o) as [e|data] eqn:Htry.
  - unfold performSearch_catch. by destruct (negb (isCancel e)).
  - cbv zeta. destruct (isStrictMode (panel st)); [done|].
    apply try_result_from_document in Htry.
    apply (talks_inv_handleSearchResults d data
             (setAttribute sp "search.results_count" (ANum (length data)) st) Htry Hinv).
Qed.

Lemma talks_inv_step ev st : talks_inv st → talks_inv (step rt ev st).
Proof.
  intros Hinv.
  assert (Hps : ∀ query st0, store st0 = store st →
                             talks_inv (performSearch rt query st0)).
  { intros query st0 Hs. unfold talks_inv. rewrite store_performSearch, Hs.
    by destruct (isSearchInProgress (panel st0)). }
  destruct ev as [| |q|key| | |k o d|r|]; cbn [step].
  - unfold mountEffect. destruct (isDevelopment rt); cbv beta iota zeta.
    + destruct (decide _); [exact Hinv|]. by apply Hps.
    + by apply Hps.
  - unfold cleanupEffect, debouncedPerformSearch_cancel, abortCurrent. red_ops.
    destruct (isDevelopment rt && negb (isStrictMode (panel st)));
      [destruct (abortControllerRef (panel st))|]; exact Hinv.
  - exact Hinv.
  - unfold onKeyDown. destruct (decide _); [|exact Hinv]. by apply Hps.
  - unfold onClickSearch. by apply Hps.
  - unfold debounceTimerFires.
    destruct (debounceTimer (panel st)) as [[? query]|]; [|exact Hinv]. by apply Hps.
  - destruct (pending (browser st) !! k) as [p|]; [|exact Hinv].
    apply talks_inv_resume. exact Hinv.
  - unfold handleSpeechResult. destruct (decide _); exact Hinv.
  - exact Hinv.
Qed.

Lemma reachable_talks_inv st : reachable rt st → talks_inv st.
Proof.
  induction 1 as [|ev st _ IH _]; [|by apply talks_inv_step].
  split; [apply Forall_nil_2 | done].
Qed.

(** X18.  The Transcript button opens the page of the selected talk.  As
    long as the store is written by the searches of this panel only (the
    Shuffle button and the talk items are not among the events), in every
    reachable state the talks of the store and the selected talk were read
    from documents of a response.  With no talk selected
    [openTranscriptInNewTab] does nothing; with a talk selected it opens
    [https://www.ted.com/talks/<slug>/transcript?subtitle=en] for the slug
    the title of the talk was made from, and the [open_transcript] span it
    starts carries the title and the URL of the talk and is ended once when
    it returns; the store and the refs are not touched. *)
Theorem transcript_opens_talk_page st :
  reachable rt st →
  Forall from_document (talks (store st))
  ∧ match selectedTalk (store st) with
    | None => openTranscriptInNewTab st = (st, None)
    | Some selected =>
        ∃ slug,
          title selected = replace_underscores slug
          ∧ url selected = "https://www.ted.com/talks/" +:+ slug
          ∧ (openTranscriptInNewTab st).2
            = Some ("https://www.ted.com/talks/" +:+ slug +:+ "/transcript?subtitle=en")
          ∧ spans (browser (openTranscriptInNewTab st).1)
            = spans (browser st)
              ++ [mkSpan "open_transcript"
                    [("video.title", AStr (title selected));
                     ("video.url", AStr (url selected))] [] 1]
          ∧ store (openTranscriptInNewTab st).1 = store st
          ∧ panel (openTranscriptInNewTab st).1 = panel st
    end.
Proof.
  intros Hr. destruct (reachable_talks_inv st Hr) as [Htalks Hsel].
  split; [exact Htalks|]. unfold openTranscriptInNewTab.
  destruct (selectedTalk (store st)) as [selected|] eqn:Hs; [|done].
  destruct (Hsel selected eq_refl) as [doc Hdoc]. unfold toTalk in Hdoc.
  destruct (doc_slug doc) as [slug|]; [|done]. injection Hdoc as <-.
  exists slug. cbn [title url fst snd]. split; [done|]. split; [done|].
  split; [by rewrite string_app_assoc|].
  destruct_state st. unfold_ops. by rewrite !alter_snoc.
Qed.

End Transcript.

(** ** The spinner and the Search button *)

Section Spinner.
Variable rt : Runtime.

Lemma loading_step ev st :
  isLoading (store st) = isSearchInProgress (panel st) →
  isLoading (store (step rt ev st)) = isSearchInProgress (panel (step rt ev st)).
Proof.
  intros Hst.
  assert (Hps : ∀ query st0,
    store st0 = store st →
    isSearchInProgress (panel st0) = isSearchInProgress (panel st) →
    isLoading (store (performSearch rt query st0))
    = isSearchInProgress (panel (performSearch rt query st0))).
  { intros query st0 Hs Hp. rewrite store_performSearch, panel_performSearch.
    destruct (isSearchInProgress (panel st0)) eqn:Hbusy; [|reflexivity].
    by rewrite Hs, Hbusy, Hst, <- Hp. }
  destruct ev as [| |q|key| | |k o d|r|]; cbn [step].
  - unfold mountEffect. destruct (isDevelopment rt); cbv beta iota zeta.
    + destruct (decide _); [exact Hst|]. by apply Hps.
    + by apply Hps.
  - unfold cleanupEffect, debouncedPerformSearch_cancel, abortCurrent. red_ops.
    destruct (isDevelopment rt && negb (isStrictMode (panel st)));
      [destruct (abortControllerRef (panel st))|]; exact Hst.
  - exact Hst.
  - unfold onKeyDown. destruct (decide _); [|exact Hst]. by apply Hps.
  - unfold onClickSearch. by apply Hps.
  - unfold debounceTimerFires.
    destruct (debounceTimer (panel st)) as [[? query]|]; [|exact Hst]. by apply Hps.
  - destruct (pending (browser st) !! k) as [p|]; [|exact Hst].
    rewrite panel_resume, performSearch_resume_eq, store_finally. reflexivity.
  - unfold handleSpeechResult. destruct (decide _); exact Hst.
  - exact Hst.
Qed.

Lemma reachable_loading st :
  reachable rt st → isLoading (store st) = isSearchInProgress (panel st).
Proof.
  induction 1 as [|ev st _ IH _]; [done|]. by apply loading_step.
Qed.

(** X19.  The spinner and the Search button follow the search.  As long
    as only this panel sets the loading flag, the spinner is shown exactly
    while a search of the panel is in progress, and the Search button is
    disabled exactly while a request is parked.  So a click on the Search
    button never runs into the guard of [performSearch]: it always sends
    the request for the text of the input, and disables the button. *)
Theorem search_button_follows_search st :
  reachable rt st →
  view_spinner (render st) = isSearchInProgress (panel st)
  ∧ view_searchDisabled (render st) = bool_decide (pending (browser st) ≠ [])
  ∧ (enabled rt ClickSearch st = true →
     requests (browser (step rt ClickSearch st))
     = requests (browser st) ++ [search_request rt (searchQuery (panel st)) st]
     ∧ view_searchDisabled (render (step rt ClickSearch st)) = true).
Proof.
  intros Hr. pose proof (reachable_loading st Hr) as Hl.
  pose proof (ok_busy (reachable_search_inv rt st Hr)) as Hb.
  split; [exact Hl|]. split; [cbn [render view_searchDisabled]; by rewrite Hl|].
  intros Hen. cbn [enabled] in Hen. apply andb_true_iff in Hen as [_ Hen].
  apply negb_true_iff in Hen. rewrite Hl in Hen.
  cbn [step render view_searchDisabled]. unfold onClickSearch.
  rewrite requests_performSearch, store_performSearch, Hen. done.
Qed.

End Spinner.

(** ** The query of a search *)

Section Queries.
Variable rt : Runtime.

Lemma parked_ok_performSearch query st :
  search_inv st → parked_ok rt st → parked_ok rt (performSearch rt query st).
Proof.
  intros Hinv Hok. destruct (isSearchInProgress (panel st)) eqn:Hbusy.
  - rewrite performSearch_busy by done. intros p Hp.
    destruct (Hok p Hp) as (Hlast & tq & Hs & Hu).
    split; [exact Hlast|]. exists tq. split; [|exact Hu].
    red_ops. rewrite lookup_app_l by (by eapply lookup_lt_Some). exact Hs.
  - pose proof (ok_busy Hinv) as Hb. rewrite Hbusy in Hb.
    symmetry in Hb. apply bool_decide_eq_false in Hb.
    assert (Hnil : pending (browser st) = []).
    { destruct (pending (browser st)); [done|]. by destruct Hb. }
    rewrite performSearch_idle by done. intros p. red_ops. rewrite Hnil.
    intros Hp. apply list_elem_of_singleton in Hp as ->. cbn [p_span p_request].
    split; [apply last_snoc|].
    exists (str_toLowerCase rt (str_trim rt query)).
    split; [|reflexivity].
    by rewrite lookup_app_r, Nat.sub_diag.
Qed.

Lemma parked_ok_step ev st :
  search_inv st → parked_ok rt st → parked_ok rt (step rt ev st).
Proof.
  intros Hinv Hok. destruct ev as [| |q|key| | |k o d|r|]; cbn [step].
  - unfold mountEffect. destruct (isDevelopment rt); cbv beta iota zeta.
    + destruct (decide _); [exact Hok|]. apply parked_ok_performSearch; [exact Hinv|exact Hok].
    + apply parked_ok_performSearch; [exact Hinv|exact Hok].
  - unfold cleanupEffect, debouncedPerformSearch_cancel, abortCurrent. red_ops.
    destruct (isDevelopment rt && negb (isStrictMode (panel st)));
      [destruct (abortControllerRef (panel st))|]; exact Hok.
  - exact Hok.
  - unfold onKeyDown. destruct (decide _); [|exact Hok].
    apply parked_ok_performSearch; [exact Hinv|exact Hok].
  - unfold onClickSearch. apply parked_ok_performSearch; [exact Hinv|exact Hok].
  - unfold debounceTimerFires.
    destruct (debounceTimer (panel st)) as [[? query]|]; [|exact Hok].
    apply parked_ok_performSearch; [exact Hinv|exact Hok].
  - destruct (pending (browser st) !! k) as [p|] eqn:Hk; [|exact Hok].
    destruct (search_inv_parked st k p Hinv Hk) as (Hps & -> & _).
    intros p' Hp'.
    destruct (browser_resume rt (p_span p) o d
                (with_browser (λ b, set_pending (delete 0 (pending b)) b) st))
      as (_ & _ & Hpend & _).
    cbv zeta in Hpend. rewrite Hpend in Hp'.
    cbn [pending browser with_browser set_pending] in Hp'.
    rewrite Hps in Hp'. by apply elem_of_nil in Hp'.
  - unfold handleSpeechResult. destruct (decide _); exact Hok.
  - exact Hok.
Qed.

Lemma reachable_parked_ok st : reachable rt st → parked_ok rt st.
Proof.
  induction 1 as [|ev st Hr IH _]; [by intros p Hp; apply elem_of_nil in Hp|].
  apply parked_ok_step; [by apply (reachable_search_inv rt) | exact IH].
Qed.

(** X20.  The span of a running search tells what was asked.  In every
    reachable state the request of the parked search is the last request
    sent, its URL is the search address followed by the encoded query, and
    its span is a [search_talks] span, still open, whose only attribute is
    [search.query] with that same query, trimmed and in lower case as it
    was sent. *)
Theorem parked_search_span_matches_request st p :
  reachable rt st →
  p ∈ pending (browser st) →
  last (requests (browser st)) = Some (p_request p)
  ∧ ∃ trimmedQuery,
      spans (browser st) !! p_span p
      = Some (mkSpan "search_talks" [("search.query", AStr trimmedQuery)] [] 0)
      ∧ req_url (p_request p)
        = "https://tedxsdg-search-backend.vercel.app/api/search?query="
            +:+ encodeURIComponent rt trimmedQuery.
Proof.
  intros Hr Hp. exact (reachable_parked_ok st Hr p Hp).
Qed.

Lemma first_request_performSearch query st :
  (requests (browser st) = [] →
   isSearchInProgress (panel st) = false
   ∧ controllers (browser st) = []
   ∧ query = determineInitialKeyword rt) →
  (∀ r, requests (browser st) !! 0 = Some r → r = initial_request rt) →
  requests (browser (performSearch rt query st)) ≠ []
  ∧ ∀ r, requests (browser (performSearch rt query st)) !! 0 = Some r →
         r = initial_request rt.
Proof.
  intros Hnil Hfirst. rewrite requests_performSearch.
  destruct (isSearchInProgress (panel st)) eqn:Hbusy.
  - split; [|exact Hfirst]. intros Heq. by destruct (Hnil Heq) as (? & _ & _).
  - split; [by destruct (requests (browser st))|].
    intros r Hr. destruct (requests (browser st)) as [|r0 rs] eqn:Hreqs.
    + simpl in Hr. injection Hr as <-. destruct (Hnil eq_refl) as (_ & Hcs & ->).
      unfold search_request, initial_request. by rewrite Hcs.
    + apply Hfirst. exact Hr.
Qed.

Lemma first_request_step ev st :
  isDevelopment rt = false →
  debounceTimer (panel st) = None → enabled rt ev st = true →
  first_request_inv rt st ∧ (mounted (panel st) = true → requests (browser st) ≠ []) →
  first_request_inv rt (step rt ev st)
  ∧ (mounted (panel (step rt ev st)) = true → requests (browser (step rt ev st)) ≠ []).
Proof.
  intros Hprod Htimer Hen [[Hnil Hfirst] Hm].
  assert (Hfin : ∀ st',
    requests (browser st') ≠ []
    ∧ (∀ r, requests (browser st') !! 0 = Some r → r = initial_request rt) →
    first_request_inv rt st'
    ∧ (mounted (panel st') = true → requests (browser st') ≠ [])).
  { intros st' [Hne Hf]. split; [split; [done | exact Hf] | done]. }
  assert (Hps : ∀ query, mounted (panel st) = true →
    first_request_inv rt (performSearch rt query st)
    ∧ (mounted (panel (performSearch rt query st)) = true
       → requests (browser (performSearch rt query st)) ≠ [])).
  { intros query Hmt. apply Hfin, first_request_performSearch; [|exact Hfirst].
    intros Heq. by destruct (Hm Hmt). }
  destruct ev as [| |q|key| | |k o d|r|]; cbn [step]; cbn [enabled] in Hen.
  - unfold mountEffect. rewrite Hprod.
    apply Hfin, first_request_performSearch; [|exact Hfirst].
    intros Heq. destruct (Hnil Heq) as (_ & Hb & Hcs). done.
  - unfold cleanupEffect, debouncedPerformSearch_cancel. rewrite Hprod.
    cbn [andb]. split; [split; [|exact Hfirst]|done].
    intros Heq. destruct (Hnil Heq) as (_ & Hb & Hcs). done.
  - split; [split; [exact Hnil | exact Hfirst] | exact Hm].
  - unfold onKeyDown. destruct (decide _); [by apply Hps | by split].
  - apply andb_true_iff in Hen as [Hen _]. unfold onClickSearch. by apply Hps.
  - unfold debounceTimerFires. rewrite Htimer. by split.
  - destruct (pending (browser st) !! k) as [p|] eqn:Hk; [|by split].
    destruct (browser_resume rt (p_span p) o d
                (with_browser (λ b, set_pending (delete k (pending b)) b) st))
      as (Hcs & Hreqs & _ & _).
    cbv zeta in Hcs, Hreqs.
    cbn [controllers requests browser with_browser set_pending] in Hcs, Hreqs.
    unfold first_request_inv. rewrite Hcs, Hreqs, panel_resume.
    split; [split; [|exact Hfirst]|exact Hm].
    intros Heq. destruct (Hnil Heq) as (Hmt & _ & Hc). done.
  - unfold handleSpeechResult. destruct (decide _); by split.
  - by split.
Qed.

(** X21.  In production the first search asks for the initial keyword.
    The mount effect searches for the keyword the input starts with before
    any handler can run: in production, in every reachable state, a mounted
    panel has sent a request, and the first request ever sent is the one
    for the initial keyword on the signal of the first controller, whatever
    has been typed into the input since. *)
Theorem first_search_is_initial_keyword st :
  isDevelopment rt = false →
  reachable rt st →
  (mounted (panel st) = true → requests (browser st) ≠ [])
  ∧ (∀ r, requests (browser st) !! 0 = Some r →
          r = mkRequest
                ("https://tedxsdg-search-backend.vercel.app/api/search?query="
                   +:+ encodeURIComponent rt
                         (str_toLowerCase rt (str_trim rt (determineInitialKeyword rt))))
                0).
Proof.
  intros Hprod Hr.
  assert (H : first_request_inv rt st
              ∧ (mounted (panel st) = true → requests (browser st) ≠ [])).
  { induction Hr as [|ev st Hr IH Hen]; [by split|].
    apply first_request_step; [exact Hprod | by apply (reachable_timer rt) | exact Hen | exact IH]. }
  destruct H as [[_ Hfirst] Hm]. split; [exact Hm | exact Hfirst].
Qed.

End Queries.

(** ** The further properties at work *)

(** Ada's and Bob's documents have the slug [a_b]. *)
Lemma same_title_same_talk_witness :
  occurs " " "a_b" = false
  ∧ title (sample_talk "Ada" "a_b") = title (sample_talk "Bob" "a_b")
  ∧ url (sample_talk "Ada" "a_b") = url (sample_talk "Bob" "a_b").
Proof.
  split; [reflexivity|]. split; [reflexivity|].
  exact (proj2 (same_title_same_talk (sample_document "Ada" "a_b")
                  (sample_document "Bob" "a_b") "a_b" "a_b"
                  (sample_talk "Ada" "a_b") (sample_talk "Bob" "a_b")
                  eq_refl eq_refl eq_refl eq_refl eq_refl eq_refl eq_refl)).
Defined.

(** The double nearest to a third, drawn for a list of three talks: the
    second talk is selected. *)
Lemma random_talk_in_range_witness :
  (Z.of_nat (length sample_data) ≤ 2 ^ 32)%Z
  ∧ floor_mul (mkDraw 6004799503160661 1) (length sample_data) < length sample_data
  ∧ sample_data !! floor_mul (mkDraw 6004799503160661 1) (length sample_data)
    = Some (randomTalk_of (mkDraw 6004799503160661 1) (sample_talk "Ada" "a_b") sample_data)
  ∧ randomTalk_of (mkDraw 6004799503160661 1) (sample_talk "Ada" "a_b") sample_data
    = sample_talk "Bob" "a_b".
Proof.
  assert (Hlen : (Z.of_nat (length sample_data) ≤ 2 ^ 32)%Z).
  { apply Z.leb_le. vm_compute. reflexivity. }
  split; [exact Hlen|].
  pose proof (proj1 (random_talk_in_range (sample_talk "Ada" "a_b")
                       [sample_talk "Bob" "a_b"; sample_talk "Cy" "c_d"] Hlen)
                (mkDraw 6004799503160661 1)) as H.
  split; [exact (proj1 H)|]. split; [exact (proj1 (proj2 H))|].
  vm_compute. reflexivity.
Defined.

(** The first search of the panel gets one talk. *)
Lemma settled_search_span_witness :
  reachable production after_mount
  ∧ pending (browser after_mount) !! 0
    = Some (mkPending 0 (search_request production "TED" (initial production)))
  ∧ ∃ s0, spans (browser after_mount) !! 0 = Some s0
          ∧ spans (browser (step production
                              (Settle 0 (sample_response [("Ada", "a_b")]) (mkDraw 0 0))
                              after_mount)) !! 0
            = Some (mkSpan (span_name s0)
                      (attributes s0 ++ [("search.results_count", ANum 1)])
                      (exceptions s0) 1).
Proof.
  assert (Hk : pending (browser after_mount) !! 0
               = Some (mkPending 0 (search_request production "TED" (initial production))))
    by (vm_compute; reflexivity).
  split; [exact after_mount_reachable|]. split; [exact Hk|].
  exact (settled_search_span production after_mount 0 _
           (sample_response [("Ada", "a_b")]) (mkDraw 0 0) after_mount_reachable Hk).
Defined.

(** The second search of the sample trace finds nothing: Ada's talk stays
    selected. *)
Lemma empty_results_keep_selection_witness :
  pending (browser before_second_result) !! 0
  = Some (mkPending 1 (mkRequest
            "https://tedxsdg-search-backend.vercel.app/api/search?query=ted" 1))
  ∧ isStrictMode (panel before_second_result) = false
  ∧ try_result (sample_response []) = inr []
  ∧ selectedTalk (store before_second_result) = Some (sample_talk "Ada" "a_b")
  ∧ talks (store (step production (Settle 0 (sample_response []) (mkDraw 0 0))
                    before_second_result)) = []
  ∧ selectedTalk (store (step production (Settle 0 (sample_response []) (mkDraw 0 0))
                           before_second_result))
    = selectedTalk (store before_second_result).
Proof.
  assert (Hk : pending (browser before_second_result) !! 0
               = Some (mkPending 1 (mkRequest
                         "https://tedxsdg-search-backend.vercel.app/api/search?query=ted" 1)))
    by (vm_compute; reflexivity).
  assert (Hs : isStrictMode (panel before_second_result) = false)
    by (vm_compute; reflexivity).
  split; [exact Hk|]. split; [exact Hs|]. split; [reflexivity|].
  split; [vm_compute; reflexivity|].
  pose proof (empty_results_keep_selection production before_second_result 0 _
                (sample_response []) (mkDraw 0 0) Hk Hs eq_refl) as H.
  exact (conj (proj1 H) (proj1 (proj2 H))).
Defined.

Lemma one_controller_per_request_witness :
  reachable development aborted_search
  ∧ length (controllers (browser aborted_search))
    = length (requests (browser aborted_search)).
Proof.
  split; [exact aborted_search_reachable|].
  exact (proj1 (one_controller_per_request development aborted_search
                  aborted_search_reachable)).
Defined.

Lemma production_never_cancels_witness :
  isDevelopment production = false
  ∧ reachable production after_mount
  ∧ controllers (browser (step production Cleanup after_mount))
    = controllers (browser after_mount).
Proof.
  split; [reflexivity|]. split; [exact after_mount_reachable|].
  exact (proj2 (proj2 (production_never_cancels production after_mount eq_refl
                         after_mount_reachable))).
Defined.

(** In development, after the second mount: the cleanup aborts the signal
    of the search that this mount started. *)
Lemma development_cleanup_cancels_witness :
  isDevelopment development = true
  ∧ reachable development (run development [Mount; Cleanup; Mount] (initial development))
  ∧ isStrictMode (panel (run development [Mount; Cleanup; Mount] (initial development)))
    = false
  ∧ pending (browser (run development [Mount; Cleanup; Mount] (initial development))) !! 0
    = Some (mkPending 0 (search_request development "TED" (initial development)))
  ∧ aborted 0 (step development Cleanup
                 (run development [Mount; Cleanup; Mount] (initial development))) = true.
Proof.
  assert (Hr : reachable development
                 (run development [Mount; Cleanup; Mount] (initial development))).
  { apply possible_reachable; [apply reachable_initial | vm_compute; reflexivity]. }
  assert (Hs : isStrictMode (panel (run development [Mount; Cleanup; Mount]
                                      (initial development))) = false)
    by (vm_compute; reflexivity).
  assert (Hk : pending (browser (run development [Mount; Cleanup; Mount]
                                   (initial development))) !! 0
               = Some (mkPending 0 (search_request development "TED" (initial development))))
    by (vm_compute; reflexivity).
  split; [reflexivity|]. split; [exact Hr|]. split; [exact Hs|]. split; [exact Hk|].
  exact (proj1 (development_cleanup_cancels development _ 0 _ eq_refl Hr Hs Hk)).
Defined.

(** Ada's title has been sent by the first instance; it is in the set of
    that instance after the panel has been unmounted and mounted again. *)
Lemma sent_title_stays_sent_witness :
  ∃ st, instance 0 first_talk_sent = Some st
        ∧ title (sample_talk "Ada" "a_b") ∈ sentMessagesRef (panel st)
        ∧ ∃ st', instance 0 (app_run production [At 0 Cleanup; Render; At 1 Mount]
                               first_talk_sent) = Some st'
                 ∧ title (sample_talk "Ada" "a_b") ∈ sentMessagesRef (panel st').
Proof.
  eexists. split; [reflexivity|].
  assert (Hin : title (sample_talk "Ada" "a_b")
                ∈ sentMessagesRef
                    (panel (instance_state first_talk_sent
                              (mkInstance
                                 (panel (step production
                                           (Settle 0 (sample_response [("Ada", "a_b")])
                                              (mkDraw 0 0)) after_mount))
                                 (browser (step production
                                             (Settle 0 (sample_response [("Ada", "a_b")])
                                                (mkDraw 0 0)) after_mount)))))).
  { apply (bool_decide_eq_true_1 _). vm_compute. reflexivity. }
  split; [exact Hin|].
  destruct (proj1 (sent_title_stays_sent production [At 0 Cleanup; Render; At 1 Mount]
                     first_talk_sent 0 _ (sample_talk "Ada" "a_b") eq_refl Hin))
    as (st' & Hst' & Hin' & _).
  exists st'. split; [exact Hst' | exact Hin'].
Defined.

(** The second instance gets Ada's talk too and sends its transcript
    again: the chat holds it twice. *)
Lemma second_instance_sends_again :
  app_possible production
    [At 0 Cleanup; Render; At 1 Mount;
     At 1 (Settle 0 (sample_response [("Ada", "a_b")]) (mkDraw 0 0))]
    first_talk_sent = true
  ∧ messages (app_store
                (app_run production
                   [At 0 Cleanup; Render; At 1 Mount;
                    At 1 (Settle 0 (sample_response [("Ada", "a_b")]) (mkDraw 0 0))]
                   first_talk_sent))
    = [PayloadMessage (transcript_message production (sample_talk "Ada" "a_b"));
       PayloadMessage (transcript_message production (sample_talk "Ada" "a_b"))].
Proof. split; vm_compute; reflexivity. Qed.

Lemma cleared_chat_stays_empty_witness :
  title (randomTalk_of (mkDraw 0 0) (sample_talk "Ada" "a_b") [sample_talk "Ada" "a_b"])
  ∈ sentMessagesRef (panel before_second_result)
  ∧ messages (store (handleSearchResults production (mkDraw 0 0) [sample_talk "Ada" "a_b"]
                       (handleClearChat before_second_result))) = [].
Proof.
  assert (Hin : title (randomTalk_of (mkDraw 0 0) (sample_talk "Ada" "a_b")
                         [sample_talk "Ada" "a_b"])
                ∈ sentMessagesRef (panel before_second_result)).
  { apply (bool_decide_eq_true_1 _). vm_compute. reflexivity. }
  split; [exact Hin|].
  exact (proj2 (proj2 (cleared_chat_stays_empty production (mkDraw 0 0)
                         (sample_talk "Ada" "a_b") [] before_second_result Hin))).
Defined.

(** A slug with a hyphen: the player is given the part before the hyphen. *)
Lemma iframe_src_of_document_witness :
  word_prefix "a-b" ≠ ""
  ∧ iframe_src (sample_talk "Ada" "a-b") = "https://embed.ted.com/talks/a".
Proof.
  assert (Hw : word_prefix "a-b" ≠ "") by (vm_compute; discriminate).
  split; [exact Hw|].
  exact (proj1 (iframe_src_of_document (sample_document "Ada" "a-b") "a-b"
                  (sample_talk "Ada" "a-b") eq_refl eq_refl Hw)).
Defined.

(** Ada's talk is selected when the second search is parked. *)
Lemma transcript_opens_talk_page_witness :
  reachable production before_second_result
  ∧ Forall from_document (talks (store before_second_result)).
Proof.
  split; [exact before_second_result_reachable|].
  exact (proj1 (transcript_opens_talk_page production before_second_result
                  before_second_result_reachable)).
Defined.

Lemma search_button_follows_search_witness :
  reachable production after_mount
  ∧ view_spinner (render after_mount) = isSearchInProgress (panel after_mount).
Proof.
  split; [exact after_mount_reachable|].
  exact (proj1 (search_button_follows_search production after_mount after_mount_reachable)).
Defined.

Lemma parked_search_span_matches_request_witness :
  reachable production after_mount
  ∧ mkPending 0 (search_request production "TED" (initial production))
    ∈ pending (browser after_mount)
  ∧ last (requests (browser after_mount))
    = Some (search_request production "TED" (initial production)).
Proof.
  assert (Hp : mkPending 0 (search_request production "TED" (initial production))
               ∈ pending (browser after_mount)).
  { vm_compute. apply list_elem_of_here. }
  split; [exact after_mount_reachable|]. split; [exact Hp|].
  exact (proj1 (parked_search_span_matches_request production after_mount _
                  after_mount_reachable Hp)).
Defined.

(** The requests of the sample trace: the panel is mounted and has sent
    its first request. *)
Lemma first_search_is_initial_keyword_witness :
  isDevelopment production = false
  ∧ reachable production before_second_result
  ∧ mounted (panel before_second_result) = true
  ∧ requests (browser before_second_result) ≠ [].
Proof.
  assert (Hm : mounted (panel before_second_result) = true) by (vm_compute; reflexivity).
  split; [reflexivity|]. split; [exact before_second_result_reachable|].
  split; [exact Hm|].
  exact (proj1 (first_search_is_initial_keyword production before_second_result eq_refl
                  before_second_result_reachable) Hm).
Defined.



